(** * bi-bot: the multi-strategy signal engine, embedded and verified

    Shallow embedding of [user_input_files/binance_bot_backend.py]
    (indicators, the five strategy detectors, the aggregator, the position
    sizer and the polling loop) and of the [start_bot] handlers of
    [binance_bot_backend.py] and [main-no-ccxt.py].

    Numbers.  The program computes on IEEE binary64 values (Python [float],
    [numpy.float64]).  The embedding keeps the special values the program
    can observe (not-a-number and the two infinities) and computes the
    finite ones exactly, as rationals: binary64 rounding and the sign of
    zero are abstracted away.  Comparisons with not-a-number are false, as
    in the program.  Rounding is monotone: between computed values it
    keeps [<=] and can turn [<] into [=], as when an average true range
    below the spacing of the close is added to the close. *)

From Stdlib Require Import String.
From Stdlib Require Import QArith ZArith List Bool Lia Lqa Qround Qabs Qminmax DecimalString Sorted.
Import ListNotations.

Local Open Scope Q_scope.

(** ** Exceptions and results *)

Inductive exn : Type :=
  | IndexError
  | ZeroDivisionError
  | ValueError
  | HTTPException (status : Z) (detail : string).

Inductive result (A : Type) : Type :=
  | Ok (a : A)
  | Raise (e : exn).

Arguments Ok {A} a.
Arguments Raise {A} e.

Definition bind {A B : Type} (m : result A) (k : A -> result B) : result B :=
  match m with
  | Ok a => k a
  | Raise e => Raise e
  end.

Notation "x <- m ;; k" := (bind m (fun x => k))
  (at level 61, m at next level, right associativity).

(** ** Extended rationals standing for binary64 values *)

Module Num.

Inductive float : Type :=
  | Fin (q : Q)
  | PInf
  | NInf
  | NaN.

Definition Qltb (a b : Q) : bool :=
  match a ?= b with Lt => true | _ => false end.

Definition Qleb (a b : Q) : bool :=
  match a ?= b with Gt => false | _ => true end.

Definition Qeqb (a b : Q) : bool :=
  match a ?= b with Eq => true | _ => false end.

Definition neg (x : float) : float :=
  match x with
  | Fin a => Fin (- a)
  | PInf => NInf
  | NInf => PInf
  | NaN => NaN
  end.

Definition add (x y : float) : float :=
  match x, y with
  | NaN, _ | _, NaN => NaN
  | Fin a, Fin b => Fin (a + b)
  | PInf, NInf | NInf, PInf => NaN
  | PInf, _ | _, PInf => PInf
  | NInf, _ | _, NInf => NInf
  end.

Definition sub (x y : float) : float := add x (neg y).

(** The sign of an infinity multiplied (or divided) by a finite value. *)
Definition signed_inf (positive : bool) (a : Q) : float :=
  match a ?= 0 with
  | Eq => NaN
  | Gt => if positive then PInf else NInf
  | Lt => if positive then NInf else PInf
  end.

Definition mul (x y : float) : float :=
  match x, y with
  | NaN, _ | _, NaN => NaN
  | Fin a, Fin b => Fin (a * b)
  | PInf, Fin a | Fin a, PInf => signed_inf true a
  | NInf, Fin a | Fin a, NInf => signed_inf false a
  | PInf, PInf | NInf, NInf => PInf
  | PInf, NInf | NInf, PInf => NInf
  end.

(** binary64 division: a finite value over zero is an infinity of its
    sign, zero over zero is not-a-number, a finite value over an
    infinity is zero. *)
Definition div (x y : float) : float :=
  match x, y with
  | NaN, _ | _, NaN => NaN
  | Fin a, Fin b =>
      match b ?= 0 with
      | Eq => signed_inf true a
      | _ => Fin (a / b)
      end
  | Fin _, PInf | Fin _, NInf => Fin 0
  | PInf, Fin b => if Qltb b 0 then NInf else PInf
  | NInf, Fin b => if Qltb b 0 then PInf else NInf
  | PInf, PInf | PInf, NInf | NInf, PInf | NInf, NInf => NaN
  end.

Definition abs (x : float) : float :=
  match x with
  | Fin a => Fin (Qabs a)
  | PInf | NInf => PInf
  | NaN => NaN
  end.

Definition ltb (x y : float) : bool :=
  match x, y with
  | NaN, _ | _, NaN => false
  | Fin a, Fin b => Qltb a b
  | NInf, Fin _ | NInf, PInf | Fin _, PInf => true
  | _, _ => false
  end.

Definition leb (x y : float) : bool :=
  match x, y with
  | NaN, _ | _, NaN => false
  | Fin a, Fin b => Qleb a b
  | NInf, _ | _, PInf => true
  | _, _ => false
  end.

Definition gtb (x y : float) : bool := ltb y x.
Definition geb (x y : float) : bool := leb y x.

Definition is_nan (x : float) : bool :=
  match x with NaN => true | _ => false end.

(** Propositional order, false on not-a-number like the comparisons. *)
Definition lt (x y : float) : Prop := ltb x y = true.

(** Same value: rationals up to [==], special values by name. *)
Definition same (x y : float) : Prop :=
  match x, y with
  | Fin a, Fin b => a == b
  | PInf, PInf | NInf, NInf | NaN, NaN => True
  | _, _ => False
  end.

End Num.

Import Num.

Declare Scope float_scope.
Delimit Scope float_scope with F.
Bind Scope float_scope with float.
Infix "+" := add : float_scope.
Infix "-" := sub : float_scope.
Infix "*" := mul : float_scope.
Infix "/" := div : float_scope.
Infix "<?" := ltb (at level 70, no associativity) : float_scope.
Infix "<=?" := leb (at level 70, no associativity) : float_scope.
Infix ">?" := gtb (at level 70, no associativity) : float_scope.
Infix ">=?" := geb (at level 70, no associativity) : float_scope.

Coercion Fin : Q >-> float.

(** ** The pandas operations the program uses

    A [Series] is a column of binary64 values ([list float]); columns that
    never hold not-a-number (the candle columns and what [ewm] derives
    from them) are [list Q] and enter the others through [lift]. *)

Module Pandas.

Definition Series : Type := list float.

Definition lift (s : list Q) : Series := map Fin s.

(** [s.iloc[i]]: negative positions count from the end; a position
    outside the column raises [IndexError]. *)
Definition iloc {A : Type} (s : list A) (i : Z) : result A :=
  let n := Z.of_nat (length s) in
  let j := if (i <? 0)%Z then (i + n)%Z else i in
  if (j <? 0)%Z then Raise IndexError
  else match nth_error s (Z.to_nat j) with
       | Some a => Ok a
       | None => Raise IndexError
       end.

(** [s.tail(k)]: the last [k] rows (all of them when there are fewer). *)
Definition tail {A : Type} (k : nat) (s : list A) : list A :=
  skipn (length s - k) s.

(** [df[mask]]: the rows whose mask entry is true. *)
Fixpoint select {A : Type} (mask : list bool) (rows : list A) : list A :=
  match mask, rows with
  | m :: mask', r :: rows' =>
      if m then r :: select mask' rows' else select mask' rows'
  | _, _ => []
  end.

Fixpoint zip_with {A B C : Type} (f : A -> B -> C)
    (l1 : list A) (l2 : list B) : list C :=
  match l1, l2 with
  | a :: l1', b :: l2' => f a b :: zip_with f l1' l2'
  | _, _ => []
  end.

(** [s.shift()] and [s.shift(-1)]: the vacated position is not-a-number. *)
Definition shift (s : Series) : Series :=
  match s with
  | [] => []
  | _ :: _ => NaN :: removelast s
  end.

Definition shift_back (s : Series) : Series :=
  match s with
  | [] => []
  | _ :: t => t ++ [NaN]
  end.

(** [s.diff()] is [s - s.shift()]. *)
Definition diff (s : Series) : Series := zip_with sub s (shift s).

(** [s.where(cond, other)]: keep the entry where [cond] holds. *)
Definition where_ (cond : float -> bool) (other : float) (s : Series)
  : Series :=
  map (fun x => if cond x then x else other) s.

Definition fillna (v : float) (s : Series) : Series :=
  map (fun x => if is_nan x then v else x) s.

Definition sign (x : float) : float :=
  match x with
  | Fin a => match a ?= 0 with Lt => Fin (-1) | Eq => Fin 0 | Gt => Fin 1 end
  | PInf => Fin 1
  | NInf => Fin (-1)
  | NaN => NaN
  end.

Fixpoint cumsum_from (acc : float) (s : Series) : Series :=
  match s with
  | [] => []
  | x :: t => let acc' := add acc x in acc' :: cumsum_from acc' t
  end.

Definition cumsum (s : Series) : Series :=
  match s with
  | [] => []
  | x :: t => x :: cumsum_from x t
  end.

Definition fsum (l : list float) : float := fold_right add (Fin 0) l.

Definition mean (l : list float) : float :=
  div (fsum l) (Fin (inject_Z (Z.of_nat (length l)))).

(** Maximum and minimum of two values; not-a-number propagates (a
    rolling window holding one has too few observations). *)
Definition fmax (x y : float) : float :=
  match x, y with
  | NaN, _ | _, NaN => NaN
  | _, _ => if ltb x y then y else x
  end.

Definition fmin (x y : float) : float :=
  match x, y with
  | NaN, _ | _, NaN => NaN
  | _, _ => if ltb y x then y else x
  end.

Definition max_of (l : list float) : float :=
  match l with
  | [] => NaN
  | x :: t => fold_left fmax t x
  end.

Definition min_of (l : list float) : float :=
  match l with
  | [] => NaN
  | x :: t => fold_left fmin t x
  end.

(** [max(axis=1)] of a row: not-a-number entries are skipped. *)
Definition max_skipna (x y : float) : float :=
  match x, y with
  | NaN, _ => y
  | _, NaN => x
  | _, _ => if ltb x y then y else x
  end.

(** The [w] entries ending at position [i]. *)
Definition window {A : Type} (w i : nat) (s : list A) : list A :=
  firstn w (skipn (i + 1 - w) s).

(** [s.rolling(w).agg()]: trailing window of [w] entries, all of them
    required ([min_periods] defaults to the window); a negative window
    is refused. *)
Definition rolling_nat (w : nat) (agg : list float -> float) (s : Series)
  : Series :=
  map (fun i => if (i + 1 <? w)%nat then NaN else agg (window w i s))
      (seq 0 (length s)).

Definition rolling (w : Z) (agg : list float -> float) (s : Series)
  : result Series :=
  if (w <? 0)%Z then Raise ValueError
  else Ok (rolling_nat (Z.to_nat w) agg s).

(** [s.rolling(w, center=True).agg()]: the window is moved forward by
    [(w - 1) / 2] positions; positions whose window leaves the column
    are not-a-number. *)
Definition rolling_center (w : nat) (agg : list float -> float)
    (s : Series) : Series :=
  let off := ((w - 1) / 2)%nat in
  map (fun i =>
         if ((i + off + 1 <? w) || (length s <=? i + off))%nat then NaN
         else agg (window w (i + off) s))
      (seq 0 (length s)).

(** [s.ewm(span=span, adjust=False).mean()]: seeded with the first
    value, then [y = (1 - alpha) * y_prev + alpha * x] with
    [alpha = 2 / (span + 1)]; a span below 1 is refused.  Values are
    kept in lowest terms. *)
Fixpoint ewm_from (alpha prev : Q) (s : list Q) : list Q :=
  match s with
  | [] => []
  | x :: t =>
      let y := Qred ((1 - alpha) * prev + alpha * x) in
      y :: ewm_from alpha y t
  end.

Definition ewm_values (alpha : Q) (s : list Q) : list Q :=
  match s with
  | [] => []
  | x :: t => x :: ewm_from alpha x t
  end.

Definition ewm_mean (span : Z) (s : list Q) : result (list Q) :=
  if (span <? 1)%Z then Raise ValueError
  else Ok (ewm_values (2 / (inject_Z span + 1)) s).

(** [df.nsmallest(n, col)] and [df.nlargest(n, col)]: the rows in the
    order of the column (ascending, resp. descending), ties in row
    order, cut to [n] rows. *)
Fixpoint insert_asc {A : Type} (key : A -> Q) (x : A) (l : list A)
  : list A :=
  match l with
  | [] => [x]
  | y :: t => if Qleb (key x) (key y) then x :: l
              else y :: insert_asc key x t
  end.

Fixpoint insert_desc {A : Type} (key : A -> Q) (x : A) (l : list A)
  : list A :=
  match l with
  | [] => [x]
  | y :: t => if Qleb (key y) (key x) then x :: l
              else y :: insert_desc key x t
  end.

Definition nsmallest {A : Type} (n : nat) (key : A -> Q) (rows : list A)
  : list A :=
  firstn n (fold_right (insert_asc key) [] rows).

Definition nlargest {A : Type} (n : nat) (key : A -> Q) (rows : list A)
  : list A :=
  firstn n (fold_right (insert_desc key) [] rows).

End Pandas.

Import Pandas.

(** ** Data model *)

(** One OHLCV candle; the exchange delivers finite numbers. *)
Record Candle : Type := mkCandle {
  timestamp : Z;
  open : Q;
  high : Q;
  low : Q;
  close : Q;
  volume : Q
}.

(** The candle frame [df]: one row per candle, oldest first.  Its
    columns are numeric, as those of every frame with a row are, and the
    empty list is the empty numeric frame.  A frame built from an empty
    answer of the exchange has columns of dtype [object] instead, on
    which pandas refuses some operations ([nsmallest] with [TypeError]);
    that dtype is not modelled. *)
Definition DataFrame : Type := list Candle.

(** [df[name]] for a candle column. *)
Definition col (f : Candle -> Q) (df : DataFrame) : list Q := map f df.

(** A row of a frame is held by its position: [pos rows i] is the position
    [rows.iloc[i]] designates (or [IndexError]), and [row[c]] reads column
    [c] there. *)
Definition pos {A : Type} (rows : list A) (i : Z) : result nat :=
  let n := Z.of_nat (length rows) in
  let j := if (i <? 0)%Z then (i + n)%Z else i in
  if ((j <? 0) || (n <=? j))%Z then Raise IndexError else Ok (Z.to_nat j).

Definition get (c : Series) (p : nat) : float := nth p c NaN.

Definition getq (c : list Q) (p : nat) : Q := nth p c 0.

Inductive Direction : Type := LONG | SHORT.

(** The dict a detector returns. *)
Record Signal : Type := mkSignal {
  type : Direction;
  entry : float;
  stop_loss : float;
  take_profit : float;
  confidence : Z;
  strategy : string
}.

(** ** class AdvancedIndicators *)

Module AdvancedIndicators.

Definition calculate_ema (data : list Q) (period : Z) : result (list Q) :=
  ewm_mean period data.

Definition rsi_of (rs : float) : float :=
  (Fin 100 - (Fin 100 / (Fin 1 + rs)))%F.

(** The two rolling means of [calculate_rsi]. *)
Definition gain (data : Series) (period : Z) : result Series :=
  let delta := diff data in
  rolling period mean (where_ (fun d => d >? Fin 0)%F (Fin 0) delta).

Definition loss (data : Series) (period : Z) : result Series :=
  let delta := diff data in
  rolling period mean
    (map neg (where_ (fun d => d <? Fin 0)%F (Fin 0) delta)).

Definition calculate_rsi (data : Series) (period : Z) : result Series :=
  gain <- gain data period ;;
  loss <- loss data period ;;
  let rs := zip_with div gain loss in
  Ok (map rsi_of rs).

Definition calculate_vwap (df : DataFrame) : Series :=
  let typical_price :=
    map (fun c => (Fin (high c) + Fin (low c) + Fin (close c)) / Fin 3)%F df in
  let vol := lift (col volume df) in
  zip_with div (cumsum (zip_with mul typical_price vol)) (cumsum vol).

Definition calculate_atr (df : DataFrame) (period : Z) : result Series :=
  let prev_close := shift (lift (col close df)) in
  let high_low := map (fun c => Fin (high c) - Fin (low c))%F df in
  let high_close :=
    zip_with (fun c pc => abs (Fin (high c) - pc)%F) df prev_close in
  let low_close :=
    zip_with (fun c pc => abs (Fin (low c) - pc)%F) df prev_close in
  let true_range :=
    zip_with max_skipna (zip_with max_skipna high_low high_close) low_close in
  rolling period mean true_range.

Definition calculate_macd (data : list Q) (fast slow signal : Z)
  : result (list Q * list Q * list Q) :=
  ema_fast <- ewm_mean fast data ;;
  ema_slow <- ewm_mean slow data ;;
  let macd := zip_with Qminus ema_fast ema_slow in
  signal_line <- ewm_mean signal macd ;;
  let histogram := zip_with Qminus macd signal_line in
  Ok (macd, signal_line, histogram).

Definition calculate_obv (df : DataFrame) : Series :=
  cumsum (fillna (Fin 0)
            (zip_with mul (map sign (diff (lift (col close df))))
                      (lift (col volume df)))).

Definition calculate_delta (df : DataFrame) : list Q :=
  map (fun c => close c - open c) df.

(** [calculate_bollinger_bands] takes a square root, which the
    rationals do not have: the bands are defined over any function
    [sqrt] standing for the one of binary64. *)
Section BollingerBands.

Variable sqrt : Q -> Q.




End BollingerBands.

End AdvancedIndicators.

Import AdvancedIndicators.

(** ** class AdvancedStrategies

    Each detector returns [Ok (Some signal)], [Ok None] (Python's [None])
    or raises.  Python's [and] is evaluated left to right and stops at the
    first false operand; [andb] does the same on pure operands and [andM]
    where an operand can raise. *)

Module AdvancedStrategies.

Definition andM (a b : result bool) : result bool :=
  x <- a ;; if x then b else Ok false.

Definition eqb (x y : float) : bool :=
  match x, y with
  | Fin a, Fin b => Qeqb a b
  | PInf, PInf | NInf, NInf => true
  | _, _ => false
  end.

Definition ema_crossover_rsi_strategy (df : DataFrame)
  : result (option Signal) :=
  let closes := col close df in
  ema_9 <- calculate_ema closes 9 ;;
  ema_21 <- calculate_ema closes 21 ;;
  ema_50 <- calculate_ema closes 50 ;;
  rsi <- calculate_rsi (lift closes) 14 ;;
  volume_avg <- rolling 20 mean (lift (col volume df)) ;;
  last <- pos df (-1) ;;
  prev <- pos df (-2) ;;
  let last_close := Fin (getq closes last) in
  let last_volume := Fin (getq (col volume df) last) in
  if (Fin (getq ema_9 prev) <=? Fin (getq ema_21 prev))%F
     && (Fin (getq ema_9 last) >? Fin (getq ema_21 last))%F
     && (get rsi last >? Fin 50)%F && (get rsi last <? Fin 70)%F
     && (last_close >? Fin (getq ema_50 last))%F
     && (last_volume >? get volume_avg last * Fin 1.2)%F
  then
    atr_s <- calculate_atr df 14 ;;
    atr <- iloc atr_s (-1) ;;
    Ok (Some {| type := LONG;
                entry := last_close;
                stop_loss := (last_close - (Fin 2 * atr))%F;
                take_profit := (last_close + (Fin 4 * atr))%F;
                confidence := 75;
                strategy := "EMA Crossover with RSI" |})
  else if (Fin (getq ema_9 prev) >=? Fin (getq ema_21 prev))%F
     && (Fin (getq ema_9 last) <? Fin (getq ema_21 last))%F
     && (get rsi last <? Fin 50)%F && (get rsi last >? Fin 30)%F
     && (last_close <? Fin (getq ema_50 last))%F
     && (last_volume >? get volume_avg last * Fin 1.2)%F
  then
    atr_s <- calculate_atr df 14 ;;
    atr <- iloc atr_s (-1) ;;
    Ok (Some {| type := SHORT;
                entry := last_close;
                stop_loss := (last_close + (Fin 2 * atr))%F;
                take_profit := (last_close - (Fin 4 * atr))%F;
                confidence := 75;
                strategy := "EMA Crossover with RSI" |})
  else Ok None.

Definition volume_profile_order_flow_strategy (df : DataFrame)
  : result (option Signal) :=
  let vwap := calculate_vwap df in
  let delta := calculate_delta df in
  delta_ema <- calculate_ema delta 9 ;;
  volume_ma <- rolling 20 mean (lift (col volume df)) ;;
  last <- pos df (-1) ;;
  let last_close := Fin (getq (col close df) last) in
  let last_volume := Fin (getq (col volume df) last) in
  let last_delta := Fin (getq delta last) in
  if (last_close >? get vwap last)%F
     && (last_delta >? Fin 0)%F
     && (last_delta >? Fin (getq delta_ema last) * Fin 1.5)%F
     && (last_volume >? get volume_ma last * Fin 1.5)%F
  then
    atr_s <- calculate_atr df 14 ;;
    atr <- iloc atr_s (-1) ;;
    Ok (Some {| type := LONG;
                entry := last_close;
                stop_loss := (get vwap last - atr)%F;
                take_profit := (last_close + (Fin 3 * atr))%F;
                confidence := 80;
                strategy := "Volume Profile + Order Flow" |})
  else if (last_close <? get vwap last)%F
     && (last_delta <? Fin 0)%F
     && (last_delta <? Fin (getq delta_ema last) * Fin 1.5)%F
     && (last_volume >? get volume_ma last * Fin 1.5)%F
  then
    atr_s <- calculate_atr df 14 ;;
    atr <- iloc atr_s (-1) ;;
    Ok (Some {| type := SHORT;
                entry := last_close;
                stop_loss := (get vwap last + atr)%F;
                take_profit := (last_close - (Fin 3 * atr))%F;
                confidence := 80;
                strategy := "Volume Profile + Order Flow" |})
  else Ok None.

Definition market_structure_break_strategy (df : DataFrame)
  : result (option Signal) :=
  let highs := lift (col high df) in
  let lows := lift (col low df) in
  let swing_high := rolling_center 5 max_of highs in
  let swing_low := rolling_center 5 min_of lows in
  let is_swing_high := zip_with eqb highs swing_high in
  let is_swing_low := zip_with eqb lows swing_low in
  rsi <- calculate_rsi (lift (col close df)) 14 ;;
  m <- calculate_macd (col close df) 12 26 9 ;;
  let macd_hist := snd m in
  last <- pos df (-1) ;;
  let last_close := Fin (getq (col close df) last) in
  let recent_highs := tail 3 (select is_swing_high df) in
  let recent_lows := tail 3 (select is_swing_low df) in
  long <-
    (if (2 <=? length recent_highs)%nat then
       r <- iloc recent_highs (-2) ;;
       let prev_high := Fin (high r) in
       if (last_close >? prev_high)%F
          && (get rsi last >? Fin 55)%F
          && (Fin (getq macd_hist last) >? Fin 0)%F
       then
         atr_s <- calculate_atr df 14 ;;
         atr <- iloc atr_s (-1) ;;
         stop <- (if (0 <? length recent_lows)%nat
                  then r' <- iloc recent_lows (-1) ;; Ok (Fin (low r'))
                  else Ok (last_close - (Fin 2 * atr))%F) ;;
         Ok (Some {| type := LONG;
                     entry := last_close;
                     stop_loss := stop;
                     take_profit := (last_close + (Fin 3 * atr))%F;
                     confidence := 72;
                     strategy := "Market Structure Break" |})
       else Ok None
     else Ok None) ;;
  match long with
  | Some s => Ok (Some s)
  | None =>
      if (2 <=? length recent_lows)%nat then
        r <- iloc recent_lows (-2) ;;
        let prev_low := Fin (low r) in
        if (last_close <? prev_low)%F
           && (get rsi last <? Fin 45)%F
           && (Fin (getq macd_hist last) <? Fin 0)%F
        then
          atr_s <- calculate_atr df 14 ;;
          atr <- iloc atr_s (-1) ;;
          stop <- (if (0 <? length recent_highs)%nat
                   then r' <- iloc recent_highs (-1) ;; Ok (Fin (high r'))
                   else Ok (last_close + (Fin 2 * atr))%F) ;;
          Ok (Some {| type := SHORT;
                      entry := last_close;
                      stop_loss := stop;
                      take_profit := (last_close - (Fin 3 * atr))%F;
                      confidence := 72;
                      strategy := "Market Structure Break" |})
        else Ok None
      else Ok None
  end.

Definition liquidity_sweep_fvg_strategy (df : DataFrame)
  : result (option Signal) :=
  let highs := lift (col high df) in
  let lows := lift (col low df) in
  let fvg_up := zip_with gtb (shift_back lows) (shift highs) in
  let fvg_down := zip_with ltb (shift_back highs) (shift lows) in
  volume_ma <- rolling 20 mean (lift (col volume df)) ;;
  atr <- calculate_atr df 14 ;;
  let last_3 := tail 3 df in
  let low_3 := tail 3 lows in
  let high_3 := tail 3 highs in
  last <- pos last_3 (-1) ;;
  let last_close := Fin (getq (col close last_3) last) in
  let last_volume := Fin (getq (col volume last_3) last) in
  let last_fvg_up := nth last (tail 3 fvg_up) false in
  let last_fvg_down := nth last (tail 3 fvg_down) false in
  let last_volume_ma := get (tail 3 volume_ma) last in
  let last_atr := get (tail 3 atr) last in
  long <-
    andM (l0 <- iloc low_3 0 ;; Ok (min_of low_3 <? l0)%F)
      (andM (h1 <- iloc high_3 1 ;; Ok (last_close >? h1)%F)
         (Ok (last_fvg_up && (last_volume >? last_volume_ma * Fin 1.5)%F))) ;;
  if long then
    Ok (Some {| type := LONG;
                entry := last_close;
                stop_loss := (min_of low_3 - last_atr)%F;
                take_profit :=
                  (last_close + (last_close - min_of low_3) * Fin 2)%F;
                confidence := 82;
                strategy := "Liquidity Sweep + FVG" |})
  else
    short <-
      andM (h0 <- iloc high_3 0 ;; Ok (max_of high_3 >? h0)%F)
        (andM (l1 <- iloc low_3 1 ;; Ok (last_close <? l1)%F)
           (Ok (last_fvg_down
                && (last_volume >? last_volume_ma * Fin 1.5)%F))) ;;
    if short then
      Ok (Some {| type := SHORT;
                  entry := last_close;
                  stop_loss := (max_of high_3 + last_atr)%F;
                  take_profit :=
                    (last_close - (max_of high_3 - last_close) * Fin 2)%F;
                  confidence := 82;
                  strategy := "Liquidity Sweep + FVG" |})
    else Ok None.

Definition delta_of (c : Candle) : Q := close c - open c.

Definition delta_divergence_strategy (df : DataFrame)
  : result (option Signal) :=
  let obv := calculate_obv df in
  obv_ma <- rolling 20 mean obv ;;
  rsi <- calculate_rsi (lift (col close df)) 14 ;;
  let last_20 := tail 20 df in
  let obv_20 := tail 20 obv in
  let obv_ma_20 := tail 20 obv_ma in
  let rsi_20 := tail 20 rsi in
  let last_close p := Fin (getq (col close last_20) p) in
  let price_lows := nsmallest 2 low last_20 in
  long <-
    (if (length price_lows =? 2)%nat then
       r0 <- iloc price_lows 0 ;;
       r1 <- iloc price_lows 1 ;;
       c <- andM (Ok ((Fin (low r1) <? Fin (low r0))%F
                      && (Fin (delta_of r1) >? Fin (delta_of r0))%F))
              (p <- pos last_20 (-1) ;;
               Ok ((get obv_20 p >? get obv_ma_20 p)%F
                   && (get rsi_20 p <? Fin 40)%F)) ;;
       if c then
         atr_s <- calculate_atr df 14 ;;
         atr <- iloc atr_s (-1) ;;
         p <- pos last_20 (-1) ;;
         Ok (Some {| type := LONG;
                     entry := last_close p;
                     stop_loss := (Fin (low r1) - atr)%F;
                     take_profit := (last_close p + (Fin 3 * atr))%F;
                     confidence := 78;
                     strategy := "Delta Divergence" |})
       else Ok None
     else Ok None) ;;
  match long with
  | Some s => Ok (Some s)
  | None =>
      let price_highs := nlargest 2 high last_20 in
      if (length price_highs =? 2)%nat then
        r0 <- iloc price_highs 0 ;;
        r1 <- iloc price_highs 1 ;;
        c <- andM (Ok ((Fin (high r1) >? Fin (high r0))%F
                       && (Fin (delta_of r1) <? Fin (delta_of r0))%F))
               (p <- pos last_20 (-1) ;;
                Ok ((get obv_20 p <? get obv_ma_20 p)%F
                    && (get rsi_20 p >? Fin 60)%F)) ;;
        if c then
          atr_s <- calculate_atr df 14 ;;
          atr <- iloc atr_s (-1) ;;
          p <- pos last_20 (-1) ;;
          Ok (Some {| type := SHORT;
                      entry := last_close p;
                      stop_loss := (Fin (high r1) + atr)%F;
                      take_profit := (last_close p - (Fin 3 * atr))%F;
                      confidence := 78;
                      strategy := "Delta Divergence" |})
        else Ok None
      else Ok None
  end.

End AdvancedStrategies.

Import AdvancedStrategies.

(** ** Python scalars

    A binary64 value reaches the sizer either as a Python [float] or as a
    [numpy.float64] (what a frame row holds, hence what a detector puts in
    a signal).  The two differ on a zero divisor: Python raises
    [ZeroDivisionError], numpy returns an infinity or not-a-number.  An
    operation with a numpy operand is carried out by numpy. *)

Module Python.

Inductive scalar : Type :=
  | PyFloat (x : float)
  | NpFloat64 (x : float).

Definition value (s : scalar) : float :=
  match s with PyFloat x | NpFloat64 x => x end.

Definition is_numpy (s : scalar) : bool :=
  match s with PyFloat _ => false | NpFloat64 _ => true end.

Definition wrap (numpy : bool) (x : float) : scalar :=
  if numpy then NpFloat64 x else PyFloat x.

Definition lift2 (f : float -> float -> float) (a b : scalar) : scalar :=
  wrap (is_numpy a || is_numpy b) (f (value a) (value b)).

Definition sub (a b : scalar) : scalar := lift2 Num.sub a b.
Definition mul (a b : scalar) : scalar := lift2 Num.mul a b.

Definition abs (a : scalar) : scalar := wrap (is_numpy a) (Num.abs (value a)).

Definition is_zero (x : float) : bool :=
  match x with Fin q => Qeqb q 0 | _ => false end.

Definition truediv (a b : scalar) : result scalar :=
  if is_numpy a || is_numpy b then Ok (NpFloat64 (Num.div (value a) (value b)))
  else if is_zero (value b) then Raise ZeroDivisionError
  else Ok (PyFloat (Num.div (value a) (value b))).

(** Nearest integer, ties to the even one. *)
Definition round_half_even (x : Q) : Z :=
  let f := Qfloor x in
  match ((x - inject_Z f) ?= 1 # 2)%Q with
  | Lt => f
  | Gt => (f + 1)%Z
  | Eq => if Z.even f then f else (f + 1)%Z
  end.

Definition round_digits (x : float) (ndigits : nat) : float :=
  match x with
  | Fin q =>
      let scale := inject_Z (10 ^ Z.of_nat ndigits) in
      Fin (inject_Z (round_half_even (q * scale)) / scale)
  | _ => x
  end.

(** [round(x, ndigits)] *)
Definition round (a : scalar) (ndigits : nat) : scalar :=
  wrap (is_numpy a) (round_digits (value a) ndigits).

(** [f"{x:.2f}"]: the sign is that of [x], also when the cents round
    to zero ([-0.00]). *)
Definition format_2f (x : float) : string :=
  match x with
  | Fin q =>
      let cents := round_half_even (q * 100) in
      let a := Z.abs cents in
      let frac := (a mod 100)%Z in
      ((if Qltb q 0 then "-" else "")
       ++ NilZero.string_of_uint (N.to_uint (Z.to_N (a / 100)))
       ++ "."
       ++ (if (frac <? 10)%Z then "0" else "")
       ++ NilZero.string_of_uint (N.to_uint (Z.to_N frac)))%string
  | PInf => "inf"
  | NInf => "-inf"
  | NaN => "nan"
  end.

End Python.

Import Python.

(** ** class BotConfig, class TradingBot *)

Record BotConfig : Type := mkBotConfig {
  symbol : string;
  leverage : Z;
  risk_percent : Q;
  timeframe : string;
  strategy_mode : string;
  max_positions : Z
}.

(** What the loop prints, in order. *)
Inductive Event : Type :=
  | BotStarted
  | BotStopped
  | TradeExecuted (signal : Signal) (size : scalar)
  | ErrorExecutingTrade (e : exn)
  | ErrorFetchingData
  | ErrorInBotLoop (e : exn).

(** What the exchange holds when one iteration of the loop runs:
    [ohlcv] is the outcome of [exchange.fetch_ohlcv] ([None] when it
    raises) and [account_total] is the balance of the account there. *)
Record Exchange : Type := mkExchange {
  ohlcv : option DataFrame;
  account_total : float
}.

Module TradingBot.

Record t : Type := mk {
  config : BotConfig;
  is_running : bool;
  positions : list Signal;
  balance : Q
}.

(** [__init__] *)
Definition init (cfg : BotConfig) : t :=
  {| config := cfg; is_running := false; positions := []; balance := 10000 |}.

(** [fetch_ohlcv]: an exception of the exchange is printed and
    turned into [None]. *)
Definition fetch_ohlcv (self : t) (ex : Exchange)
  : option DataFrame * list Event :=
  match ohlcv ex with
  | Some df => (Some df, [])
  | None => (None, [ErrorFetchingData])
  end.

Definition strategy_methods : list (DataFrame -> result (option Signal)) :=
  [ ema_crossover_rsi_strategy;
    volume_profile_order_flow_strategy;
    market_structure_break_strategy;
    liquidity_sweep_fvg_strategy;
    delta_divergence_strategy ].

Fixpoint collect (methods : list (DataFrame -> result (option Signal)))
    (df : DataFrame) (signals : list Signal) : result (list Signal) :=
  match methods with
  | [] => Ok signals
  | method :: rest =>
      signal <- method df ;;
      collect rest df
        (match signal with Some s => signals ++ [s] | None => signals end)
  end.

(** [signals.sort(key=confidence, reverse=True)]: stable. *)
Definition sort_by_confidence (signals : list Signal) : list Signal :=
  fold_right (insert_desc (fun s => inject_Z (confidence s))) [] signals.

Definition analyze_market (self : t) (df : DataFrame)
  : result (list Signal) :=
  signals <- collect strategy_methods df [] ;;
  Ok (sort_by_confidence signals).

Definition calculate_position_size (self : t) (entry stop_loss : scalar)
  : result scalar :=
  let risk_amount :=
    PyFloat (Fin (balance self) * (Fin (risk_percent (config self)) / Fin 100))%F in
  let stop_distance := Python.abs (Python.sub entry stop_loss) in
  q <- truediv risk_amount stop_distance ;;
  let position_size :=
    Python.mul q (PyFloat (Fin (inject_Z (leverage (config self))))) in
  Ok (round position_size 3).

(** [execute_trade]: [numpy] tells how the numbers of the [signal] dict
    are boxed, as [numpy.float64] (true) or as Python floats (false).
    Any exception of the sizer is caught and printed. *)
Definition execute_trade (self : t) (numpy : bool) (signal : Signal)
  : bool * list Event :=
  match calculate_position_size self (wrap numpy (entry signal))
                                     (wrap numpy (stop_loss signal)) with
  | Ok size => (true, [TradeExecuted signal size])
  | Raise e => (false, [ErrorExecutingTrade e])
  end.

(** The body of one turn of [while self.is_running] in [run].  The
    signals come from [analyze_market]: their numbers are read off frame
    rows, hence [numpy.float64]. *)
Definition iteration (self : t) (ex : Exchange) : t * list Event :=
  let '(df, ev) := fetch_ohlcv self ex in
  match df with
  | Some df =>
      if (50 <? length df)%nat then
        match analyze_market self df with
        | Ok signals =>
            match signals with
            | best_signal :: _ =>
                if (Z.of_nat (length (positions self))
                    <? max_positions (config self))%Z
                then (self, ev ++ snd (execute_trade self true best_signal))
                else (self, ev)
            | [] => (self, ev)
            end
        | Raise e => (self, ev ++ [ErrorInBotLoop e])
        end
      else (self, ev)
  | None => (self, ev)
  end.

(** [stop] *)
Definition stop (self : t) : t * list Event :=
  ({| config := config self; is_running := false;
      positions := positions self; balance := balance self |},
   [BotStopped]).

(** One tick of the environment: the exchange as the iteration finds it
    and whether [stop] is called while the loop sleeps afterwards. *)
Record Tick : Type := mkTick {
  exchange : Exchange;
  stop_called : bool
}.

Fixpoint loop (self : t) (ticks : list Tick) : t * list Event :=
  match ticks with
  | [] => (self, [])
  | tick :: rest =>
      if is_running self then
        let '(self1, ev1) := iteration self (exchange tick) in
        let '(self2, ev2) :=
          if stop_called tick then stop self1 else (self1, []) in
        let '(self3, ev3) := loop self2 rest in
        (self3, ev1 ++ ev2 ++ ev3)
      else (self, [])
  end.

(** [run]: sets the flag, then loops; observed over finitely many ticks. *)
Definition run (self : t) (ticks : list Tick) : t * list Event :=
  let self0 := {| config := config self; is_running := true;
                  positions := positions self; balance := balance self |} in
  let '(self1, ev) := loop self0 ticks in
  (self1, BotStarted :: ev).

End TradingBot.

(** ** The [start_bot] handler of [binance_bot_backend.py]

    [asyncio.create_task(bot_instance.run())] only schedules the loop;
    the flag [is_running] is set when the event loop enters [run]
    ([task_begin]). *)

Module Backend.

Record Server : Type := mkServer {
  bot_instance : option TradingBot.t;
  scheduled : nat   (* [run] tasks created and not yet entered *)
}.

Definition initial : Server := {| bot_instance := None; scheduled := 0 |}.

Definition running (srv : Server) : bool :=
  match bot_instance srv with
  | Some bot => TradingBot.is_running bot
  | None => false
  end.

Definition start_bot (cfg : BotConfig) (srv : Server)
  : result string * Server :=
  if running srv then
    (Raise (HTTPException 400 "Bot is already running"), srv)
  else
    (Ok "Bot started successfully"%string,
     {| bot_instance := Some (TradingBot.init cfg);
        scheduled := S (scheduled srv) |}).

(** The event loop enters a scheduled [run]: [self.is_running = True]. *)
Definition task_begin (srv : Server) : Server :=
  match scheduled srv, bot_instance srv with
  | S n, Some bot =>
      {| bot_instance :=
           Some {| TradingBot.config := TradingBot.config bot;
                   TradingBot.is_running := true;
                   TradingBot.positions := TradingBot.positions bot;
                   TradingBot.balance := TradingBot.balance bot |};
         scheduled := n |}
  | _, _ => srv
  end.

(** [stop_bot]: what it answers, the server afterwards and what
    [bot_instance.stop()] prints. *)
Definition stop_bot (srv : Server) : result string * Server * list Event :=
  match bot_instance srv with
  | None => (Raise (HTTPException 400 "Bot is not running"), srv, [])
  | Some bot =>
      let '(bot', ev) := TradingBot.stop bot in
      (Ok "Bot stopped successfully"%string,
       {| bot_instance := Some bot'; scheduled := scheduled srv |}, ev)
  end.

(** The dict [get_status] returns. *)
Module Status.
Record t : Type := mk {
  is_running : bool;
  balance : Q;
  positions : list Signal
}.
End Status.

Definition get_status (srv : Server) : Status.t :=
  match bot_instance srv with
  | None =>
      {| Status.is_running := false; Status.balance := 0;
         Status.positions := [] |}
  | Some bot =>
      {| Status.is_running := TradingBot.is_running bot;
         Status.balance := TradingBot.balance bot;
         Status.positions := TradingBot.positions bot |}
  end.

(** The server over time.  The handlers and one turn of the loop run
    without giving up control (the only suspension of [run] is its
    [asyncio.sleep]), so the server moves by whole steps: a request is
    handled, a scheduled [run] is entered, or the running bot does one
    iteration on what the exchange holds. *)
Inductive Step : Type :=
  | StartBot (cfg : BotConfig)
  | StopBot
  | TaskBegin
  | Iterate (ex : Exchange).

Definition step (srv : Server) (s : Step) : Server :=
  match s with
  | StartBot cfg => snd (start_bot cfg srv)
  | StopBot => snd (fst (stop_bot srv))
  | TaskBegin => task_begin srv
  | Iterate ex =>
      match bot_instance srv with
      | Some bot =>
          if TradingBot.is_running bot then
            {| bot_instance := Some (fst (TradingBot.iteration bot ex));
               scheduled := scheduled srv |}
          else srv
      | None => srv
      end
  end.

Definition steps (srv : Server) (l : list Step) : Server :=
  fold_left step l srv.

End Backend.

(** ** The [start_bot] handler of [main-no-ccxt.py] *)

Module MainNoCcxt.

(** The credentials read from [env_vars] (empty when absent). *)
Record Env : Type := mkEnv {
  BINANCE_API_KEY : string;
  BINANCE_SECRET_KEY : string
}.

(** An exception of the exchange client, held by its text. *)
Definition ClientError : Type := string.

Record Bot : Type := mkBot {
  is_running : bool;
  scheduled : nat   (* [start] tasks created and not yet entered *)
}.

Record Response : Type := mkResponse {
  status : string;
  message : string;
  balance : option float
}.

Definition is_empty (s : string) : bool :=
  match s with EmptyString => true | _ => false end.

(** [fetched] is the outcome of opening the client and awaiting
    [fetch_balance]: the [total] of the account or an exception. *)
Definition start_bot (env : Env) (fetched : float + ClientError)
    (trading_bot : Bot) : Response * Bot :=
  if is_running trading_bot then
    ({| status := "running"; message := "Bot is already running";
        balance := None |}, trading_bot)
  else if is_empty (BINANCE_API_KEY env) || is_empty (BINANCE_SECRET_KEY env)
  then
    ({| status := "error";
        message := "API credentials not found. Please configure .env file.";
        balance := None |}, trading_bot)
  else
    match fetched with
    | inr e =>
        ({| status := "error";
            message := "Failed to connect to Binance API: " ++ e;
            balance := None |}, trading_bot)
    | inl account_balance =>
        if (account_balance <=? Fin 0)%F then
          ({| status := "blocked";
              message := "Account balance is $" ++ format_2f account_balance
                         ++ ". Cannot start bot with zero balance.";
              balance := Some account_balance |}, trading_bot)
        else
          ({| status := "started";
              message := "Trading bot started successfully. Balance: $"
                         ++ format_2f account_balance;
              balance := Some account_balance |},
           {| is_running := is_running trading_bot;
              scheduled := S (scheduled trading_bot) |})
    end.

(** The event loop enters a scheduled [TradingBot.start]:
    [self.is_running = True]. *)
Definition task_begin (bot : Bot) : Bot :=
  match scheduled bot with
  | S n => {| is_running := true; scheduled := n |}
  | O => bot
  end.

(** *** class SimpleBinanceClient

    What the exchange answers to a request: nothing usable (the
    request, or the decoding of its body, raised), or a status with the
    decoded JSON body. *)
Inductive Reply (A : Type) : Type :=
  | RequestFailed
  | Http (status : Z) (json : A).

Arguments RequestFailed {A}.
Arguments Http {A} status json.

(** What [float(item.get(key, 0))] finds under a key: nothing, a value
    [float] converts, or one it refuses (with [ValueError] or
    [TypeError], which no caller tells apart). *)
Inductive Field : Type :=
  | Missing
  | Value (x : float)
  | Refused.

Definition to_float (f : Field) : result float :=
  match f with
  | Missing => Ok (Fin 0)
  | Value x => Ok x
  | Refused => Raise ValueError
  end.

Module SimpleBinanceClient.

(** A row of [/fapi/v2/balance], by the keys the client reads. *)
Module Item.
Record t : Type := mk {
  asset : option string;
  balance : Field;
  free : Field;
  locked : Field
}.
End Item.

(** The dict [fetch_balance] returns. *)
Module Balance.
Record t : Type := mk {
  total : float;
  free : float;
  used : float
}.
End Balance.

(** A row of [/fapi/v2/positionRisk]. *)
Module Position.
Record t : Type := mk {
  symbol : string;
  positionAmt : Field
}.
End Position.

Definition zeros : Balance.t :=
  {| Balance.total := Fin 0; Balance.free := Fin 0; Balance.used := Fin 0 |}.

Definition is_usdt (item : Item.t) : bool :=
  match Item.asset item with
  | Some a => String.eqb a "USDT"
  | None => false
  end.

(** [fetch_balance]: every exception is logged and answered with
    zeros. *)
Definition fetch_balance (reply : Reply (list Item.t)) : Balance.t :=
  match reply with
  | RequestFailed => zeros
  | Http status data =>
      if (status =? 200)%Z then
        match find is_usdt data with
        | Some usdt_balance =>
            match (total <- to_float (Item.balance usdt_balance) ;;
                   free <- to_float (Item.free usdt_balance) ;;
                   used <- to_float (Item.locked usdt_balance) ;;
                   Ok {| Balance.total := total; Balance.free := free;
                         Balance.used := used |}) with
            | Ok b => b
            | Raise _ => zeros
            end
        | None => zeros
        end
      else zeros
  end.

(** [[pos for pos in data if float(pos.get('positionAmt', 0)) != 0]] *)
Fixpoint active (data : list Position.t) : result (list Position.t) :=
  match data with
  | [] => Ok []
  | pos :: rest =>
      amt <- to_float (Position.positionAmt pos) ;;
      rest' <- active rest ;;
      Ok (if negb (eqb amt (Fin 0)) then pos :: rest' else rest')
  end.

(** [fetch_positions]: every exception is logged and answered with the
    empty list. *)
Definition fetch_positions (reply : Reply (list Position.t))
  : list Position.t :=
  match reply with
  | RequestFailed => []
  | Http status data =>
      if (status =? 200)%Z then
        match active data with
        | Ok positions => positions
        | Raise _ => []
        end
      else []
  end.

End SimpleBinanceClient.

(** *** load_env

    A dict of strings, in insertion order; assigning to a key it has
    keeps the key's place. *)
Definition Dict : Type := list (string * string).

Fixpoint dict_set (d : Dict) (key value : string) : Dict :=
  match d with
  | [] => [(key, value)]
  | (k, v) :: t =>
      if String.eqb k key then (key, value) :: t
      else (k, v) :: dict_set t key value
  end.

Fixpoint dict_get (d : Dict) (key : string) : option string :=
  match d with
  | [] => None
  | (k, v) :: t => if String.eqb k key then Some v else dict_get t key
  end.

(** [d.get(key, default)] *)
Definition get_default (d : Dict) (key default : string) : string :=
  match dict_get d key with Some v => v | None => default end.

(** [str.isspace] on the characters of ASCII text. *)
Definition is_space (c : Ascii.ascii) : bool :=
  let n := Ascii.nat_of_ascii c in
  ((9 <=? n) && (n <=? 13) || (28 <=? n) && (n <=? 32))%nat.

Fixpoint lstrip (s : string) : string :=
  match s with
  | String c t => if is_space c then lstrip t else s
  | EmptyString => EmptyString
  end.

Fixpoint rstrip (s : string) : string :=
  match s with
  | String c t =>
      match rstrip t with
      | EmptyString => if is_space c then EmptyString else String c EmptyString
      | t' => String c t'
      end
  | EmptyString => EmptyString
  end.

(** [line.strip()] *)
Definition strip (s : string) : string := rstrip (lstrip s).

(** The characters [#] and [=]. *)
Definition hash : Ascii.ascii := Ascii.ascii_of_nat 35.
Definition equals : Ascii.ascii := Ascii.ascii_of_nat 61.

(** [line.startswith('#')] *)
Definition is_comment (s : string) : bool :=
  match s with
  | String c _ => Ascii.eqb c hash
  | EmptyString => false
  end.

(** [line.split('=', 1)], when it has the two parts the assignment
    [key, value = ...] unpacks. *)
Fixpoint split_once (s : string) : option (string * string) :=
  match s with
  | String c t =>
      if Ascii.eqb c equals then Some (EmptyString, t)
      else match split_once t with
           | Some (key, value) => Some (String c key, value)
           | None => None
           end
  | EmptyString => None
  end.

(** The body of [for line in f]; a line without [=] makes the
    unpacking raise [ValueError], which [load_env] does not catch. *)
Fixpoint read_lines (lines : list string) (env_vars : Dict) : result Dict :=
  match lines with
  | [] => Ok env_vars
  | line :: rest =>
      let line := strip line in
      if negb (is_empty line) && negb (is_comment line) then
        match split_once line with
        | Some (key, value) => read_lines rest (dict_set env_vars key value)
        | None => Raise ValueError
        end
      else read_lines rest env_vars
  end.

(** [load_env]: [file] holds the lines of [.env] (ASCII text), or
    nothing when [open] raises [FileNotFoundError]. *)
Definition load_env (file : option (list string)) : result Dict :=
  match file with
  | Some lines => read_lines lines []
  | None =>
      Ok [ ("BINANCE_API_KEY", "test_key");
           ("BINANCE_SECRET_KEY", "test_secret");
           ("TRADING_MODE", "testnet") ]%string
  end.

(** The credentials as the handlers read them:
    [env_vars.get('BINANCE_API_KEY', '')]. *)
Definition credentials (env_vars : Dict) : Env :=
  {| BINANCE_API_KEY := get_default env_vars "BINANCE_API_KEY" "";
     BINANCE_SECRET_KEY := get_default env_vars "BINANCE_SECRET_KEY" "" |}.

(** *** class TradingBot: the account data, and the handlers reading it *)

(** The dicts [update_account_data] stores and [get_account] returns;
    a key a dict does not have is [None]. *)
Module Account.
Record t : Type := mk {
  total : float;
  free : float;
  used : float;
  positions : list SimpleBinanceClient.Position.t;
  trades : list string;
  totalPnL : float;
  lastUpdate : option string;
  status : option string;
  error : option string
}.
End Account.

(** [update_account_data], when the global client is set: [now] is
    [datetime.now().isoformat()].  [self.trades] and [self.total_pnl]
    are what [__init__] gave them, nothing assigns them afterwards. *)
Definition update_account_data
    (balance_reply : Reply (list SimpleBinanceClient.Item.t))
    (positions_reply : Reply (list SimpleBinanceClient.Position.t))
    (now : string) : Account.t :=
  let balance_data := SimpleBinanceClient.fetch_balance balance_reply in
  let positions_data := SimpleBinanceClient.fetch_positions positions_reply in
  {| Account.total := SimpleBinanceClient.Balance.total balance_data;
     Account.free := SimpleBinanceClient.Balance.free balance_data;
     Account.used := SimpleBinanceClient.Balance.used balance_data;
     Account.positions := positions_data;
     Account.trades := [];
     Account.totalPnL := Fin 0;
     Account.lastUpdate := Some now;
     Account.status := None;
     Account.error := None |}.

(** [get_account]: [account_data] is the attribute of the bot, absent
    until the first update; [session] tells whether opening and closing
    the temporary client raised. *)
Definition get_account (account_data : option Account.t) (env_vars : Dict)
    (session : option ClientError)
    (balance_reply : Reply (list SimpleBinanceClient.Item.t))
    (now : string) : Account.t :=
  match account_data with
  | Some data => data
  | None =>
      let env := credentials env_vars in
      if is_empty (BINANCE_API_KEY env) || is_empty (BINANCE_SECRET_KEY env)
      then
        {| Account.total := Fin 0; Account.free := Fin 0;
           Account.used := Fin 0; Account.positions := [];
           Account.trades := []; Account.totalPnL := Fin 0;
           Account.lastUpdate := Some now;
           Account.status := Some "no_api_credentials"%string;
           Account.error := None |}
      else
        match session with
        | Some e =>
            {| Account.total := Fin 0; Account.free := Fin 0;
               Account.used := Fin 0; Account.positions := [];
               Account.trades := []; Account.totalPnL := Fin 0;
               Account.lastUpdate := None;
               Account.status := None;
               Account.error := Some e |}
        | None =>
            let balance_data :=
              SimpleBinanceClient.fetch_balance balance_reply in
            {| Account.total := SimpleBinanceClient.Balance.total balance_data;
               Account.free := SimpleBinanceClient.Balance.free balance_data;
               Account.used := SimpleBinanceClient.Balance.used balance_data;
               Account.positions := [];
               Account.trades := []; Account.totalPnL := Fin 0;
               Account.lastUpdate := Some now;
               Account.status := Some "real_account"%string;
               Account.error := None |}
        end
  end.

(** [get_positions], [get_trades] *)
Definition get_positions (account_data : option Account.t)
  : list SimpleBinanceClient.Position.t :=
  match account_data with
  | Some data => Account.positions data
  | None => []
  end.

Definition get_trades (account_data : option Account.t) : list string :=
  match account_data with
  | Some data => Account.trades data
  | None => []
  end.

(** *** The bot over time

    [stop] and the handler [stop_bot]. *)
Definition stop (bot : Bot) : Bot :=
  {| is_running := false; scheduled := scheduled bot |}.

Definition stop_bot (bot : Bot) : Response * Bot :=
  ({| status := "stopped"; message := "Trading bot stopped successfully";
      balance := None |}, stop bot).

(** The one [trading_bot] of the module and the tasks of [start] that
    are alive, each suspended at an [await] before its next test of
    [while self.is_running]. *)
Record Runtime : Type := mkRuntime {
  trading_bot : Bot;
  loops : nat
}.

(** What happens between two suspensions: a start or a stop request is
    handled, the event loop enters a scheduled [start] (which sets the
    flag and goes on to its first update), or a task comes back from
    its [await] and tests the flag, going on when it is set and ending
    when it is not. *)
Inductive Move : Type :=
  | PostStart (env : Env) (fetched : float + ClientError)
  | PostStop
  | Enter
  | Wake.

Definition move (rt : Runtime) (m : Move) : Runtime :=
  match m with
  | PostStart env fetched =>
      {| trading_bot := snd (start_bot env fetched (trading_bot rt));
         loops := loops rt |}
  | PostStop =>
      {| trading_bot := snd (stop_bot (trading_bot rt)); loops := loops rt |}
  | Enter =>
      match scheduled (trading_bot rt) with
      | S _ =>
          {| trading_bot := task_begin (trading_bot rt);
             loops := S (loops rt) |}
      | O => rt
      end
  | Wake =>
      if is_running (trading_bot rt) then rt
      else {| trading_bot := trading_bot rt; loops := Nat.pred (loops rt) |}
  end.

Definition moves (rt : Runtime) (l : list Move) : Runtime :=
  fold_left move l rt.

(** What [start_bot] holds once [async with ... as client:
    balance_data = await client.fetch_balance()] is over. *)
Definition fetched_balance (session : option ClientError)
    (balance_reply : Reply (list SimpleBinanceClient.Item.t))
  : float + ClientError :=
  match session with
  | Some e => inr e
  | None =>
      inl (SimpleBinanceClient.Balance.total
             (SimpleBinanceClient.fetch_balance balance_reply))
  end.

End MainNoCcxt.

(** ** api/index.py

    The serverless handler: a router over the request path, the API
    routes and the balance request to the exchange.  An exception is held
    by its text, [str(e)]. *)

Module ApiIndex.

(** The values the handler writes into its dicts; its only lists are
    empty. *)
Inductive Json : Type :=
  | JString (s : string)
  | JNumber (x : float)
  | JEmptyList.

(** A dict literal, in the order of its keys. *)
Definition Content : Type := list (string * Json).

Inductive Body : Type :=
  | Text (s : string)
  | Object (c : Content).

Record Response : Type := mkResponse {
  media_type : string;
  status_code : Z;
  content : Body
}.

Definition HTMLResponse (content : string) (status_code : Z) : Response :=
  {| media_type := "text/html"; status_code := status_code;
     content := Text content |}.

Definition JSONResponse (content : Content) (status_code : Z) : Response :=
  {| media_type := "application/json"; status_code := status_code;
     content := Object content |}.

(** [os.environ.get] of the three variables, with the defaults
    [''], [''] and ['testnet']. *)
Record Environ : Type := mkEnviron {
  BINANCE_API_KEY : string;
  BINANCE_SECRET_KEY : string;
  TRADING_MODE : string
}.

(** What [float(balance.get('walletBalance', 0))] finds in a row: no
    such key, a value [float] converts, or one it refuses. *)
Inductive Wallet : Type :=
  | NoWalletBalance
  | WalletBalance (x : float)
  | BadWalletBalance (why : string).

(** What the exchange answers to the account request: the request or
    the decoding raised, or a status with the rows of [balances] and the
    text of the body. *)
Inductive Answer : Type :=
  | RequestRaised (why : string)
  | Answered (status : Z) (balances : list Wallet) (text : string).

Definition to_float (w : Wallet) : float + string :=
  match w with
  | NoWalletBalance => inl (Fin 0)
  | WalletBalance x => inl x
  | BadWalletBalance why => inr why
  end.

(** The loop over [balances]. *)
Fixpoint sum_positive (balances : list Wallet) (total_balance : float)
  : float + string :=
  match balances with
  | [] => inl total_balance
  | balance :: rest =>
      match to_float balance with
      | inl wallet_balance =>
          sum_positive rest
            (if (wallet_balance >? Fin 0)%F
             then (total_balance + wallet_balance)%F
             else total_balance)
      | inr why => inr why
      end
  end.

Definition string_of_Z (z : Z) : string :=
  NilZero.string_of_int (Z.to_int z).

(** [fetch_binance_balance]: the dict it returns, or the text of the
    exception it lets through. *)
Definition fetch_binance_balance (answer : Answer) : Content + string :=
  match answer with
  | RequestRaised why => inr why
  | Answered status balances text =>
      if (status =? 200)%Z then
        match sum_positive balances (Fin 0) with
        | inl total_balance =>
            inl [ ("total", JNumber (round_digits total_balance 2));
                  ("currency", JString "USDT");
                  ("status", JString "ok") ]%string
        | inr why => inr why
        end
      else
        inr ("Binance API error: " ++ string_of_Z status ++ " - " ++ text)%string
  end.

(** [balance_data.get('total', 0) < 10] *)
Definition total_below (balance_data : Content) (limit : float) : bool :=
  match find (fun kv => String.eqb (fst kv) "total") balance_data with
  | Some (_, JNumber total) => (total <? limit)%F
  | _ => (Fin 0 <? limit)%F
  end.

Definition is_empty (s : string) : bool :=
  match s with EmptyString => true | _ => false end.

(** [JSONResponse] renders its content with
    [json.dumps(..., allow_nan=False)], which raises [ValueError] on a
    number that is not finite. *)
Definition out_of_range (content : Content) : bool :=
  existsb (fun kv : string * Json =>
             match snd kv with
             | JNumber (Fin _) => false
             | JNumber _ => true
             | _ => false
             end) content.

(** [handle_api_request]; [answer] is what the account request meets
    when a route makes it. *)
Definition handle_api_request (environ : Environ) (answer : Answer)
    (path method : string) : Response :=
  let api_key := BINANCE_API_KEY environ in
  let secret_key := BINANCE_SECRET_KEY environ in
  if String.eqb path "/api/account" && String.eqb method "GET" then
    if is_empty api_key || is_empty secret_key then
      JSONResponse [("error", JString "API keys not configured")]%string 400
    else
      match fetch_binance_balance answer with
      | inl balance_data =>
          if out_of_range balance_data then
            JSONResponse
              [("error",
                JString ("Balance fetch failed: "
                         ++ "Out of range float values are not JSON compliant"))
              ]%string 500
          else JSONResponse balance_data 200
      | inr e =>
          JSONResponse
            [("error", JString ("Balance fetch failed: " ++ e))]%string 500
      end
  else if String.eqb path "/api/start" && String.eqb method "POST" then
    if is_empty api_key || is_empty secret_key then
      JSONResponse [ ("status", JString "error");
                     ("message", JString "API keys not configured") ]%string
        400
    else
      match fetch_binance_balance answer with
      | inl balance_data =>
          if total_below balance_data (Fin 10) then
            JSONResponse
              [ ("status", JString "error");
                ("message",
                 JString "Insufficient balance (minimum $10 required)") ]%string
              400
          else
            JSONResponse
              [ ("status", JString "started");
                ("message", JString "Bot started successfully") ]%string 200
      | inr e =>
          JSONResponse [ ("status", JString "error");
                         ("message", JString e) ]%string 500
      end
  else if String.eqb path "/api/stop" && String.eqb method "POST" then
    JSONResponse
      [ ("status", JString "stopped");
        ("message", JString "Trading bot stopped successfully") ]%string 200
  else if String.eqb path "/api/positions" && String.eqb method "GET" then
    JSONResponse [ ("positions", JEmptyList);
                   ("status", JString "ok") ]%string 200
  else if String.eqb path "/api/trades" && String.eqb method "GET" then
    JSONResponse [ ("trades", JEmptyList);
                   ("status", JString "ok") ]%string 200
  else
    JSONResponse [("error", JString "API endpoint not found")]%string 404.

(** The files the handler can see: [os.path.exists] and what opening
    and reading a file gives, its text or the text of an exception. *)
Record FileSystem : Type := mkFileSystem {
  exists_ : string -> bool;
  read : string -> string + string
}.

(** [s.endswith(suffix)] *)
Fixpoint endswith (s suffix : string) : bool :=
  String.eqb s suffix
  || match s with
     | String _ t => endswith t suffix
     | EmptyString => false
     end.

(** [path[1:]] *)
Definition drop_first (path : string) : string :=
  match path with
  | String _ t => t
  | EmptyString => EmptyString
  end.

(** The loop over the places of [index.html]: the first that exists is
    read, and an exception there ends the search. *)
Fixpoint serve_index (fs : FileSystem) (places : list string) : Response :=
  match places with
  | [] => HTMLResponse "<h1>index.html not found</h1>" 404
  | file_path :: rest =>
      if exists_ fs file_path then
        match read fs file_path with
        | inl text => HTMLResponse text 200
        | inr e =>
            HTMLResponse ("<h1>Error loading page: " ++ e ++ "</h1>") 500
        end
      else serve_index fs rest
  end.

(** The loop over the places of a static file: a place is passed over
    when it does not exist, when reading it raises, and when its name
    ends neither in [.css] nor in [.js]. *)
Fixpoint serve_static (fs : FileSystem) (places : list string) : Response :=
  match places with
  | [] => JSONResponse [("error", JString "File not found")]%string 404
  | try_path :: rest =>
      if exists_ fs try_path then
        match read fs try_path with
        | inl text =>
            if endswith try_path ".css" then
              {| media_type := "text/css"; status_code := 200;
                 content := Text text |}
            else if endswith try_path ".js" then
              {| media_type := "application/javascript"; status_code := 200;
                 content := Text text |}
            else serve_static fs rest
        | inr _ => serve_static fs rest
        end
      else serve_static fs rest
  end.

(** [main] *)
Definition main (fs : FileSystem) (environ : Environ) (answer : Answer)
    (path method : string) : Response :=
  if String.eqb path "/" && String.eqb method "GET" then
    serve_index fs ["index.html"; "../index.html"; "./index.html"]%string
  else if String.prefix "/styles/" path || String.prefix "/js/" path then
    let file_path := drop_first path in
    serve_static fs
      [file_path; ("../" ++ file_path)%string; ("./" ++ file_path)%string]
  else if String.prefix "/api/" path then
    handle_api_request environ answer path method
  else
    JSONResponse [("error", JString "Route not found")]%string 404.

End ApiIndex.

(** ** Reference definitions

    What the statements below compare the code with: the invariant of
    the data model, the detectors by name, and the conditions of the
    specification written out on the candles. *)

(** [BotConfig()] with the defaults of the class. *)
Definition default_config : BotConfig :=
  {| symbol := "BTC/USDT:USDT"; leverage := 10; risk_percent := 1;
     timeframe := "5m"; strategy_mode := "advanced"; max_positions := 3 |}.

(** The size named by the specification, before rounding:
    [(balance * risk_percent / 100) / |entry - stop_loss| * leverage]. *)
Definition spec_size (balance risk_percent entry stop_loss : Q)
    (leverage : Z) : Q :=
  (balance * (risk_percent / 100)) / Qabs (entry - stop_loss)
  * inject_Z leverage.

Definition not_finite (x : float) : Prop := forall q : Q, x <> Fin q.

(** A candle whose open and close lie between its low and its high. *)
Definition well_formed (c : Candle) : Prop :=
  low c <= open c /\ open c <= high c /\ low c <= close c /\ close c <= high c.

(** The directional ordering invariant of a signal. *)
Definition ordered (s : Signal) : Prop :=
  match type s with
  | LONG => lt (stop_loss s) (entry s) /\ lt (entry s) (take_profit s)
  | SHORT => lt (take_profit s) (entry s) /\ lt (entry s) (stop_loss s)
  end.

(** A candle whose low is not above its high. *)
Definition ranged (c : Candle) : Prop := low c <= high c.

(** [x <= y], false on not-a-number like the comparison. *)
Definition at_most (x y : float) : Prop := leb x y = true.

(** The invariant with the stop and the target allowed on the entry. *)
Definition weakly_ordered (s : Signal) : Prop :=
  match type s with
  | LONG => at_most (stop_loss s) (entry s) /\ at_most (entry s) (take_profit s)
  | SHORT => at_most (take_profit s) (entry s) /\ at_most (entry s) (stop_loss s)
  end.

(** The stop half of the invariant. *)
Definition stop_ordered (s : Signal) : Prop :=
  match type s with
  | LONG => lt (stop_loss s) (entry s)
  | SHORT => lt (entry s) (stop_loss s)
  end.

(** The take-profit half with the target allowed on the entry. *)
Definition target_weakly_ordered (s : Signal) : Prop :=
  match type s with
  | LONG => at_most (entry s) (take_profit s)
  | SHORT => at_most (take_profit s) (entry s)
  end.

(** The five detectors by name. *)
Inductive Detector : Type :=
  | EmaCrossoverRsi
  | VolumeProfileOrderFlow
  | MarketStructureBreak
  | LiquiditySweepFvg
  | DeltaDivergence.

Definition detect (d : Detector) : DataFrame -> result (option Signal) :=
  match d with
  | EmaCrossoverRsi => ema_crossover_rsi_strategy
  | VolumeProfileOrderFlow => volume_profile_order_flow_strategy
  | MarketStructureBreak => market_structure_break_strategy
  | LiquiditySweepFvg => liquidity_sweep_fvg_strategy
  | DeltaDivergence => delta_divergence_strategy
  end.

(** The rows a detector needs before it can emit: its largest
    [rolling(n)] window, whose mean is not-a-number on a shorter frame
    ([volume.rolling(20)], [obv.rolling(20)]; the [rolling(14)] of RSI
    for Market Structure Break).  The exponential averages
    ([ewm(span=...)], spans 9, 21 and 50, and 12, 26 and 9 in MACD) have
    a value from the first row and need none; the [len(df) > 50] of the
    caller is not part of a detector. *)
Definition min_window (d : Detector) : nat :=
  match d with
  | MarketStructureBreak => 14
  | _ => 20
  end.

(** The fewest rows a detector indexes without a guard: [df.iloc[-2]] in
    the EMA detector, [iloc[-1]] in three others; the [iloc] calls of the
    Delta Divergence detector are all behind a test of [len]. *)
Definition rows_indexed (d : Detector) : nat :=
  match d with
  | EmaCrossoverRsi => 2
  | DeltaDivergence => 0
  | _ => 1
  end.

Definition Qsum (l : list Q) : Q := fold_right Qplus 0 l.

(** The long condition of the Liquidity Sweep detector as the
    specification words it, on the last three candles [c1], [c2], [c3]:
    the lowest of the three lows is below the first low, the close is
    above the middle high, the gap is up (the low of the third candle
    exceeds the high of the first) and the volume exceeds 1.5 times
    its 20-candle mean. *)
Definition spec_sweep_long (df : DataFrame) : bool :=
  match rev df with
  | c3 :: c2 :: c1 :: _ =>
      Qltb (Qmin (low c1) (Qmin (low c2) (low c3))) (low c1)
      && Qltb (high c2) (close c3)
      && Qltb (high c1) (low c3)
      && (20 <=? length df)%nat
      && Qltb (Qsum (firstn 20 (rev (col volume df))) / 20 * 1.5) (volume c3)
  | _ => false
  end.

(** The two lowest-low candles of a window, in time order (the earlier
    one first). *)
Definition two_lowest (rows : list Candle) : option (Candle * Candle) :=
  match nsmallest 2 (fun ic => low (snd ic))
          (combine (seq 0 (length rows)) rows) with
  | [(i, a); (j, b)] => Some (if (i <? j)%nat then (a, b) else (b, a))
  | _ => None
  end.

(** The bullish condition of the Delta Divergence detector as the
    specification words it: of the two lowest-low candles of the last
    20, the more recent has the lower low and the higher delta; OBV is
    above its 20-candle mean and RSI14 is below 40 on the latest candle. *)
Definition spec_bullish_divergence (df : DataFrame) : bool :=
  match two_lowest (tail 20 df),
        rolling 20 mean (calculate_obv df),
        calculate_rsi (lift (col close df)) 14 with
  | Some (earlier, recent), Ok obv_ma, Ok rsi =>
      Qltb (low recent) (low earlier)
      && Qltb (delta_of earlier) (delta_of recent)
      && (last (calculate_obv df) NaN >? last obv_ma NaN)%F
      && (last rsi NaN <? Fin 40)%F
  | _, _, _ => false
  end.

(** The gains and losses [calculate_rsi] averages, on a finite series:
    the positive part of each change and the negated negative part, zero
    on the first row. *)
Fixpoint changes_from (f : Q -> Q) (prev : Q) (s : list Q) : list Q :=
  match s with
  | [] => []
  | x :: t => f (x + - prev) :: changes_from f x t
  end.

Definition changes (f : Q -> Q) (s : list Q) : list Q :=
  match s with
  | [] => []
  | x :: t => 0 :: changes_from f x t
  end.

Definition positive_part (d : Q) : Q := if Qltb 0 d then d else 0.
Definition negative_part (d : Q) : Q := - (if Qltb d 0 then d else 0).

(** The mean of the [w] entries ending at position [i]. *)
Definition window_mean (w i : nat) (s : list Q) : Q :=
  Qsum (window w i s) / inject_Z (Z.of_nat w).

(** ** Concrete frames

    Five-minute candles, oldest first. *)

Definition frame (bars : list (Q * Q * Q * Q * Q)) : DataFrame :=
  map (fun ib : nat * (Q * Q * Q * Q * Q) =>
         let '(i, (o, h, l, c, v)) := ib in
         mkCandle (300000 * Z.of_nat i) o h l c v)
      (combine (seq 0 (length bars)) bars).

Definition flat (n : nat) (p : Q) : list (Q * Q * Q * Q * Q) :=
  repeat (p, p, p, p, 10) n.

(** A rally to a plateau, then a close below the low of the plateau's
    swing low (179 at row 47). *)
Definition df_break_below_swing_low : DataFrame :=
  frame (flat 37 100 ++
    [ (100, 110, 100, 110, 10); (110, 120, 110, 120, 10);
      (120, 130, 120, 130, 10); (130, 140, 130, 140, 10);
      (140, 150, 140, 150, 10); (150, 160, 150, 160, 10);
      (160, 170, 160, 170, 10); (170, 180, 170, 180, 10);
      (180, 181, 180, 181, 10); (181, 182, 180, 181, 10);
      (181, 183, 179, 181, 10); (181, 184, 180, 181, 10);
      (181, 185, 180, 181, 10);
      (181, 186, 178, 178, 10) ]).

(** The same, closing exactly on that low. *)
Definition df_break_on_swing_low : DataFrame :=
  frame (flat 37 100 ++
    [ (100, 110, 100, 110, 10); (110, 120, 110, 120, 10);
      (120, 130, 120, 130, 10); (130, 140, 130, 140, 10);
      (140, 150, 140, 150, 10); (150, 160, 150, 160, 10);
      (160, 170, 160, 170, 10); (170, 180, 170, 180, 10);
      (180, 181, 180, 181, 10); (181, 182, 180, 181, 10);
      (181, 183, 179, 181, 10); (181, 184, 180, 181, 10);
      (181, 185, 180, 181, 10);
      (181, 186, 179, 179, 10) ]).

(** Fifty quiet candles, then a strong up candle on ten times the volume. *)
Definition df_volume_thrust : DataFrame :=
  frame (flat 50 100 ++ [ (100, 105, 100, 105, 100) ]).

(** A sweep of the low at 100 (to 99), then a candle that gaps up over
    the high of the first of the three (lows 102 > 101) on high volume. *)
Definition df_sweep_and_gap : DataFrame :=
  frame (flat 48 100 ++
    [ (100, 101, 100, 100, 10); (100, 100, 99, 100, 10);
      (102, 105, 102, 104, 100) ]).

(** A decline on thin volume whose last two lows are 48 (delta -5) and
    45 (delta -1/2), then three small rises on heavy volume. *)
Definition df_bullish_divergence : DataFrame :=
  frame (flat 37 100 ++
    [ (100, 100, 95, 95, 1); (95, 95, 90, 90, 1); (90, 90, 85, 85, 1);
      (85, 85, 80, 80, 1); (80, 80, 75, 75, 1); (75, 75, 70, 70, 1);
      (70, 70, 65, 65, 1); (65, 65, 60, 60, 1); (60, 60, 55, 55, 1);
      (55, 55, 48, 50, 1);
      (50, 50, 45, 99 # 2, 1);
      (99 # 2, 101 # 2, 99 # 2, 101 # 2, 100);
      (101 # 2, 103 # 2, 101 # 2, 103 # 2, 100);
      (103 # 2, 105 # 2, 103 # 2, 105 # 2, 100) ]).

(** Constant high and low with a close outside them. *)
Definition df_close_outside_range : DataFrame :=
  frame (flat 50 100 ++ [ (100, 100, 100, 105, 100) ]).

(** Two ticks that differ at most in the balance of the account. *)
Definition same_market (t t' : TradingBot.Tick) : Prop :=
  ohlcv (TradingBot.exchange t) = ohlcv (TradingBot.exchange t')
  /\ TradingBot.stop_called t = TradingBot.stop_called t'.

(** One tick on the volume thrust frame, the account holding 5. *)
Definition tick_volume_thrust : TradingBot.Tick :=
  {| TradingBot.exchange :=
       {| ohlcv := Some df_volume_thrust; account_total := Fin 5 |};
     TradingBot.stop_called := false |}.



Definition env_with_keys : MainNoCcxt.Env :=
  {| MainNoCcxt.BINANCE_API_KEY := "test_key";
     MainNoCcxt.BINANCE_SECRET_KEY := "test_secret" |}.


Definition bot_idle : MainNoCcxt.Bot :=
  {| MainNoCcxt.is_running := false; MainNoCcxt.scheduled := 0 |}.


Definition has_keys (env : MainNoCcxt.Env) : bool :=
  negb (MainNoCcxt.is_empty (MainNoCcxt.BINANCE_API_KEY env)
        || MainNoCcxt.is_empty (MainNoCcxt.BINANCE_SECRET_KEY env)).

(** A single quiet candle. *)
Definition df_single : DataFrame := frame (flat 1 100).

(** [n] quiet candles at 100, a fall to 96, twelve quiet candles there,
    then a rise to 105 on ten times the volume: [n + 14] candles. *)
Definition cross (n : nat) : DataFrame :=
  frame (flat n 100 ++ [ (100, 100, 96, 96, 10) ] ++ flat 12 96
         ++ [ (96, 105, 96, 105, 100) ]).

(** The last thirteen of these candles. *)
Definition df_rise_13 : DataFrame :=
  frame (flat 12 96 ++ [ (96, 105, 96, 105, 100) ]).

(** The candles of [cross 0] behind a first candle whose high (0) is
    below its low (100). *)
Definition df_inverted_first : DataFrame :=
  frame ([ (100, 0, 100, 96, 10) ] ++ flat 12 96
         ++ [ (96, 105, 96, 105, 100) ]).

(** The closes of [cross 6] on candles whose high and low both stay on
    the previous close, so that every true range is 0. *)
Definition df_cross_outside_range : DataFrame :=
  frame (flat 7 100 ++ [ (100, 100, 100, 96, 10) ] ++ flat 11 96
         ++ [ (96, 96, 96, 105, 100) ]).

(** Fifteen strictly rising prices. *)
Definition rising_prices : list Q :=
  [100; 101; 102; 103; 104; 105; 106; 107; 108; 109; 110; 111; 112; 113; 114].

(** The true range [calculate_atr] averages, on the candles: the range of
    the first candle, then the largest of the range and of the distances
    of the high and of the low to the previous close. *)
Definition qmax (a b : Q) : Q := if Qltb a b then b else a.

Fixpoint true_ranges_from (prev_close : Q) (df : DataFrame) : list Q :=
  match df with
  | [] => []
  | c :: t =>
      qmax (qmax (high c + - low c) (Qabs (high c + - prev_close)))
           (Qabs (low c + - prev_close))
      :: true_ranges_from (close c) t
  end.

Definition true_ranges (df : DataFrame) : list Q :=
  match df with
  | [] => []
  | c :: t => (high c + - low c) :: true_ranges_from (close c) t
  end.

Definition well_formedb (c : Candle) : bool :=
  Qleb (low c) (open c) && Qleb (open c) (high c)
  && Qleb (low c) (close c) && Qleb (close c) (high c).

Definition rangedb (c : Candle) : bool := Qleb (low c) (high c).

(** The signal the Market Structure Break detector emits on
    [df_break_on_swing_low]: entry and stop both 179. *)
Definition zero_distance_signal : Signal :=
  {| type := LONG; entry := Fin 179; stop_loss := Fin 179;
     take_profit := Fin (2815 # 14); confidence := 72;
     strategy := "Market Structure Break" |}.

(** ** Reference definitions for further properties *)

(** On-balance volume on the candles: 0 on the first row, then the
    previous value plus, minus or without the volume as the close rose,
    fell or stayed. *)
Definition sgn (d : Q) : Q :=
  match d ?= 0 with Lt => -1 | Eq => 0 | Gt => 1 end.

Fixpoint obv_from (prev_close acc : Q) (df : DataFrame) : list Q :=
  match df with
  | [] => []
  | c :: t =>
      let acc' := acc + sgn (close c + - prev_close) * volume c in
      acc' :: obv_from (close c) acc' t
  end.

Definition obv_values (df : DataFrame) : list Q :=
  match df with
  | [] => []
  | c :: t => 0 :: obv_from (close c) 0 t
  end.

(** The entry every detector writes into its signal: the close of the
    latest candle. *)
Definition latest_close (df : DataFrame) : float :=
  Fin (getq (col close df) (length df - 1)).



(** A drop from 100 to 96, twelve quiet candles, then a rise to 105 on
    ten times the volume: the fast EMA crosses over the slow one on the
    latest candle. *)
Definition df_ema_cross : DataFrame :=
  frame (flat 38 100 ++ [ (100, 100, 96, 96, 10) ] ++ flat 12 96
         ++ [ (96, 105, 96, 105, 100) ]).

(** What a detector adds to the list of signals. *)
Definition emitted (o : option Signal) : list Signal :=
  match o with Some s => [s] | None => [] end.

(** The same tick during which [stop] is called. *)
Definition tick_stop : TradingBot.Tick :=
  {| TradingBot.exchange := TradingBot.exchange tick_volume_thrust;
     TradingBot.stop_called := true |}.

(** A balance request that brings no USDT balance: it raised, was
    refused by the exchange, holds no USDT row, or holds one with a
    number [float] cannot read. *)
Definition no_balance
    (reply : MainNoCcxt.Reply (list MainNoCcxt.SimpleBinanceClient.Item.t))
  : Prop :=
  match reply with
  | MainNoCcxt.RequestFailed => True
  | MainNoCcxt.Http status data =>
      status <> 200%Z
      \/ match find MainNoCcxt.SimpleBinanceClient.is_usdt data with
         | None => True
         | Some item =>
             MainNoCcxt.SimpleBinanceClient.Item.balance item
             = MainNoCcxt.Refused
             \/ MainNoCcxt.SimpleBinanceClient.Item.free item
                = MainNoCcxt.Refused
             \/ MainNoCcxt.SimpleBinanceClient.Item.locked item
                = MainNoCcxt.Refused
         end
  end.

(** A line of [.env] that [load_env] can take: once stripped it is
    empty, a comment, or holds an [=]. *)
Definition readable_line (line : string) : Prop :=
  let s := MainNoCcxt.strip line in
  s = EmptyString
  \/ MainNoCcxt.is_comment s = true
  \/ In MainNoCcxt.equals (list_ascii_of_string s).

(** The line [key=value]. *)
Definition assignment (key value : string) : string :=
  (key ++ String MainNoCcxt.equals value)%string.

(** A position row with a position amount other than zero. *)
Definition is_active (pos : MainNoCcxt.SimpleBinanceClient.Position.t) : bool :=
  match MainNoCcxt.SimpleBinanceClient.Position.positionAmt pos with
  | MainNoCcxt.Value x => negb (eqb x (Fin 0))
  | _ => false
  end.

Definition unreadable (pos : MainNoCcxt.SimpleBinanceClient.Position.t) : Prop :=
  MainNoCcxt.SimpleBinanceClient.Position.positionAmt pos = MainNoCcxt.Refused.

(** The rows of an account answer whose wallet balances are the finite
    numbers [qs], and the sum of the positive ones. *)
Definition wallets (qs : list Q) : list ApiIndex.Wallet :=
  map (fun q => ApiIndex.WalletBalance (Fin q)) qs.

Definition positive_sum (qs : list Q) : Q := Qsum (map positive_part qs).

Definition has_api_keys (environ : ApiIndex.Environ) : bool :=
  negb (ApiIndex.is_empty (ApiIndex.BINANCE_API_KEY environ)
        || ApiIndex.is_empty (ApiIndex.BINANCE_SECRET_KEY environ)).

(** A market that does not move: every candle opens and closes at [v]. *)
Definition flat_market (v : Q) (df : DataFrame) : Prop :=
  Forall (fun c => close c == v /\ open c == v) df.



(** The module of [main-no-ccxt.py] once loaded: the bot idle, no task. *)
Definition runtime_idle : MainNoCcxt.Runtime :=
  {| MainNoCcxt.trading_bot := bot_idle; MainNoCcxt.loops := 0 |}.

(** * Verification *)

(** Rational arithmetic stays folded under [simpl]. *)
#[local] Arguments Qplus : simpl never.
#[local] Arguments Qminus : simpl never.
#[local] Arguments Qmult : simpl never.
#[local] Arguments Qdiv : simpl never.
#[local] Arguments Qopp : simpl never.
#[local] Arguments Qinv : simpl never.
#[local] Arguments Qabs : simpl never.
#[local] Arguments Qcompare : simpl never.
#[local] Arguments Qred : simpl never.
#[local] Arguments inject_Z : simpl never.
#[local] Arguments Z.pow : simpl never.
#[local] Arguments Z.of_nat : simpl never.

(** ** Comparisons and rounding *)

Lemma Qltb_true (a b : Q) : Qltb a b = true <-> a < b.
Proof.
  unfold Qltb. rewrite Qlt_alt. destruct (a ?= b); split; congruence.
Qed.

Lemma Qleb_true (a b : Q) : Qleb a b = true <-> a <= b.
Proof.
  unfold Qleb. rewrite Qle_alt. destruct (a ?= b); split; congruence.
Qed.

Lemma Qeqb_true (a b : Q) : Qeqb a b = true <-> a == b.
Proof.
  unfold Qeqb. rewrite Qeq_alt. destruct (a ?= b); split; congruence.
Qed.

Lemma Qltb_false (a b : Q) : Qltb a b = false <-> b <= a.
Proof.
  split; intro H.
  - destruct (Qlt_le_dec a b) as [Hl | Hl]; [| exact Hl].
    apply Qltb_true in Hl. congruence.
  - destruct (Qltb a b) eqn:E; [| reflexivity].
    apply Qltb_true in E. lra.
Qed.

Lemma Qleb_false (a b : Q) : Qleb a b = false <-> b < a.
Proof.
  split; intro H.
  - destruct (Qlt_le_dec b a) as [Hl | Hl]; [exact Hl |].
    apply Qleb_true in Hl. congruence.
  - destruct (Qleb a b) eqn:E; [| reflexivity].
    apply Qleb_true in E. lra.
Qed.

Lemma Qeqb_false (a b : Q) : Qeqb a b = false <-> ~ a == b.
Proof.
  split; intro H.
  - intro E. apply Qeqb_true in E. congruence.
  - destruct (Qeqb a b) eqn:E; [| reflexivity].
    apply Qeqb_true in E. contradiction.
Qed.

Lemma Qcompare_Gt_0 (a : Q) : 0 < a -> (a ?= 0) = Gt.
Proof. intro H. apply Qgt_alt. exact H. Qed.

Lemma Qcompare_Eq_0 (a : Q) : a == 0 -> (a ?= 0) = Eq.
Proof. intro H. apply Qeq_alt. exact H. Qed.

Lemma Qcompare_Lt_0 (a : Q) : a < 0 -> (a ?= 0) = Lt.
Proof. intro H. apply Qlt_alt. exact H. Qed.

(** [round_half_even] returns a nearest integer. *)
Lemma round_half_even_nearest (x : Q) :
  Qabs (inject_Z (round_half_even x) - x) <= 1 # 2.
Proof.
  unfold round_half_even.
  pose proof (Qfloor_le x) as Hlo.
  pose proof (Qlt_floor x) as Hhi.
  rewrite inject_Z_plus in Hhi.
  change (inject_Z 1) with 1 in Hhi.
  apply Qabs_Qle_condition.
  destruct ((x - inject_Z (Qfloor x)) ?= 1 # 2) eqn:E.
  - apply Qeq_alt in E.
    destruct (Z.even (Qfloor x)).
    + lra.
    + rewrite inject_Z_plus. change (inject_Z 1) with 1. lra.
  - apply Qlt_alt in E. lra.
  - apply Qgt_alt in E.
    rewrite inject_Z_plus. change (inject_Z 1) with 1. lra.
Qed.

(** An integer is its own rounding. *)
Lemma round_half_even_Z (z : Z) (x : Q) :
  x == inject_Z z -> round_half_even x = z.
Proof.
  intro H. unfold round_half_even.
  rewrite (Qfloor_comp _ _ H), Qfloor_Z.
  assert (E : (x - inject_Z z ?= 1 # 2) = Lt).
  { apply Qlt_alt. rewrite H. ring_simplify (inject_Z z - inject_Z z). reflexivity. }
  rewrite E. reflexivity.
Qed.

(** ** The embedding on small inputs *)

Example ema_of_four :
  calculate_ema [1; 2; 3; 4] 3 = Ok [1; 3 # 2; 9 # 4; 25 # 8].
Proof. reflexivity. Qed.

Example ema_refuses_span_zero :
  calculate_ema [1; 2; 3] 0 = Raise ValueError.
Proof. reflexivity. Qed.

Example rsi_of_six :
  exists rsi : Series,
    calculate_rsi (lift [1; 2; 3; 2; 2; 2]) 2 = Ok rsi
    /\ Forall2 same rsi [NaN; Fin 100; Fin 100; Fin 50; Fin 0; NaN].
Proof.
  eexists. split; [vm_compute; reflexivity |].
  repeat constructor; vm_compute; reflexivity.
Qed.

Example obv_of_four :
  calculate_obv (frame [ (1, 1, 1, 1, 10); (1, 2, 1, 2, 5);
                         (2, 2, 1, 1, 7); (1, 1, 1, 1, 9) ])
  = [Fin 0; Fin 5; Fin (-2); Fin (-2)].
Proof. reflexivity. Qed.

Example swing_highs_of_seven :
  rolling_center 5 max_of (lift [1; 2; 3; 2; 1; 5; 1])
  = [NaN; NaN; Fin 3; Fin 5; Fin 5; NaN; NaN].
Proof. reflexivity. Qed.

Example two_lowest_rows :
  map low (nsmallest 2 low
             (frame [ (5, 5, 3, 4, 1); (4, 4, 1, 2, 1); (2, 3, 1, 3, 1);
                      (3, 3, 2, 2, 1) ]))
  = [1; 1]
  /\ map timestamp (nsmallest 2 low
                      (frame [ (5, 5, 3, 4, 1); (4, 4, 1, 2, 1);
                               (2, 3, 1, 3, 1); (3, 3, 2, 2, 1) ]))
     = [300000; 600000]%Z.
Proof. split; reflexivity. Qed.

Example format_two_decimals :
  format_2f (Fin 0) = "0.00"%string
  /\ format_2f (Fin (1234567 # 1000)) = "1234.57"%string
  /\ format_2f (Fin (- (5 # 100))) = "-0.05"%string
  /\ format_2f (Fin (- (1 # 1000))) = "-0.00"%string.
Proof. repeat split; reflexivity. Qed.

Example round_three_decimals :
  same (round_digits (Fin (12345 # 10000)) 3) (Fin (1234 # 1000))
  /\ same (round_digits (Fin (12355 # 10000)) 3) (Fin (1236 # 1000)).
Proof. split; vm_compute; reflexivity. Qed.

Example ranked_by_confidence :
  exists signals : list Signal,
    TradingBot.analyze_market (TradingBot.init default_config)
      df_volume_thrust = Ok signals
    /\ map confidence signals = [80; 72]%Z
    /\ map strategy signals
       = ["Volume Profile + Order Flow"; "Market Structure Break"]%string.
Proof.
  eexists. split; [vm_compute; reflexivity |]. split; reflexivity.
Qed.

(** ** The position sizer *)

Section Sizer.

Import TradingBot.

Variable self : TradingBot.t.

Let risk : Q := balance self * (risk_percent (config self) / 100).
Let lev : Q := inject_Z (leverage (config self)).

Lemma abs_sub_pos (e s : Q) : ~ e == s -> 0 < Qabs (e + - s).
Proof.
  intro H.
  destruct (Qlt_le_dec 0 (Qabs (e + - s))) as [Hp | Hn]; [exact Hp |].
  exfalso. apply H.
  pose proof (Qabs_nonneg (e + - s)) as H0.
  assert (Hz : Qabs (e + - s) <= 0) by exact Hn.
  apply Qabs_Qle_condition in Hz. lra.
Qed.

Lemma abs_sub_zero (e s : Q) : e == s -> Qabs (e + - s) == 0.
Proof.
  intro H. assert (E : e + - s == 0) by lra.
  rewrite E. reflexivity.
Qed.

(** What the sizer computes on finite operands at a non-zero distance. *)
Lemma calculate_position_size_nonzero (e s : Q) (ke ks : bool) :
  ~ e == s ->
  calculate_position_size self (wrap ke (Fin e)) (wrap ks (Fin s))
  = Ok (wrap (ke || ks)
          (Fin (inject_Z
                  (round_half_even
                     (risk / Qabs (e + - s) * lev * inject_Z (10 ^ 3)))
                / inject_Z (10 ^ 3)))).
Proof.
  intro H. pose proof (abs_sub_pos e s H) as Hp.
  unfold calculate_position_size, truediv, Python.abs, Python.sub,
    Python.mul, Python.round, lift2, round_digits, is_zero.
  assert (Hc : (Qabs (e + - s) ?= 0) = Gt) by (apply Qcompare_Gt_0; exact Hp).
  assert (Hz : Qeqb (Qabs (e + - s)) 0 = false).
  { unfold Qeqb. rewrite Hc. reflexivity. }
  destruct ke, ks; simpl; rewrite ?Hz, ?Hc; simpl; rewrite ?Hc; reflexivity.
Qed.

End Sizer.

(** C2.  At a non-zero stop distance the sizer returns
    [(balance * risk_percent / 100) / |entry - stop_loss| * leverage]
    rounded to 3 decimal places: the result is [k / 1000] for an integer
    [k] nearest to 1000 times that value, hence within 0.0005 of it; and
    [entry = 100], [stop = 90], [balance = 10000], [risk_percent = 1],
    [leverage = 10] give 100.  [ke] and [ks] tell whether the entry and
    the stop are [numpy.float64] values or Python floats. *)
Theorem calculate_position_size_rounds_formula :
  forall (self : TradingBot.t) (e s : Q) (ke ks : bool),
    ~ e == s ->
    let x := spec_size (TradingBot.balance self)
               (risk_percent (TradingBot.config self)) e s
               (leverage (TradingBot.config self)) in
    (exists k : Z,
        TradingBot.calculate_position_size self
          (wrap ke (Fin e)) (wrap ks (Fin s))
        = Ok (wrap (ke || ks) (Fin (inject_Z k / 1000)))
        /\ Qabs (inject_Z k - x * 1000) <= 1 # 2
        /\ Qabs (inject_Z k / 1000 - x) <= 1 # 2000)
    /\ (exists r : Q,
          TradingBot.calculate_position_size (TradingBot.init default_config)
            (PyFloat (Fin 100)) (PyFloat (Fin 90))
          = Ok (PyFloat (Fin r))
          /\ r == 100).
Proof.
  intros self e s ke ks H x. split.
  - exists (round_half_even (x * 1000)).
    split; [| split].
    + rewrite (calculate_position_size_nonzero self e s ke ks H).
      reflexivity.
    + apply round_half_even_nearest.
    + pose proof (round_half_even_nearest (x * 1000)) as Hn.
      apply Qabs_Qle_condition in Hn. apply Qabs_Qle_condition.
      generalize dependent (inject_Z (round_half_even (x * 1000))).
      clearbody x. intros k Hn.
      unfold Qdiv. change (/ 1000) with (1 # 1000). lra.
  - eexists. split; [vm_compute; reflexivity | reflexivity].
Qed.

(** ** The sizer at a zero stop distance *)

Section ZeroDistance.

Import TradingBot.

Variable self : TradingBot.t.

(** Python floats: the division itself raises. *)
Lemma calculate_position_size_zero_python (e s : Q) :
  e == s ->
  calculate_position_size self (PyFloat (Fin e)) (PyFloat (Fin s))
  = Raise ZeroDivisionError.
Proof.
  intro H. pose proof (abs_sub_zero e s H) as Hz.
  unfold calculate_position_size, truediv, Python.abs, Python.sub, lift2,
    is_zero.
  simpl.
  assert (E : Qeqb (Qabs (e + - s)) 0 = true) by (apply Qeqb_true; exact Hz).
  rewrite E. reflexivity.
Qed.

Lemma signed_inf_mul_not_finite (p : bool) (a b : Q) :
  not_finite (signed_inf p a * Fin b)%F.
Proof.
  unfold signed_inf, not_finite.
  destruct (a ?= 0), p; simpl; unfold signed_inf;
    destruct (b ?= 0); intros q; discriminate.
Qed.

(** numpy operands: the division returns an infinity or not-a-number. *)
Lemma calculate_position_size_zero_numpy (e s : Q) :
  e == s ->
  exists x : float,
    calculate_position_size self (NpFloat64 (Fin e)) (NpFloat64 (Fin s))
    = Ok (NpFloat64 x)
    /\ not_finite x.
Proof.
  intro H. pose proof (abs_sub_zero e s H) as Hz.
  apply Qcompare_Eq_0 in Hz.
  unfold calculate_position_size, truediv, Python.abs, Python.sub,
    Python.mul, Python.round, lift2.
  simpl. rewrite Hz.
  set (r := balance self * (risk_percent (config self) / 100)).
  set (l := inject_Z (leverage (config self))).
  pose proof (signed_inf_mul_not_finite true r l) as Hnf.
  exists (signed_inf true r * Fin l)%F. split; [| exact Hnf].
  unfold round_digits.
  destruct (signed_inf true r * Fin l)%F eqn:E; try reflexivity.
  exfalso. exact (Hnf q eq_refl).
Qed.

(** On the operands [execute_trade] passes, the sizer never raises. *)
Lemma calculate_position_size_numpy_total (e s : float) :
  exists size : scalar,
    calculate_position_size self (NpFloat64 e) (NpFloat64 s) = Ok size.
Proof.
  unfold calculate_position_size, truediv. simpl. eexists. reflexivity.
Qed.

Lemma execute_trade_reports_success (signal : Signal) :
  fst (execute_trade self true signal) = true.
Proof.
  unfold execute_trade. cbn [wrap].
  destruct (calculate_position_size_numpy_total (entry signal)
              (stop_loss signal)) as [size E].
  rewrite E. reflexivity.
Qed.

End ZeroDistance.

(** C3, as the code has it.  At a zero stop distance the sizer divides
    unguarded.  On Python floats the division raises [ZeroDivisionError],
    which [execute_trade] catches: the trade is skipped.  On the
    [numpy.float64] numbers of a detector's signal the division returns an
    infinity or not-a-number, nothing is raised, and [execute_trade]
    reports the trade as executed with that size. *)
Theorem zero_distance_is_divided :
  forall (self : TradingBot.t) (signal : Signal) (e s : Q),
    entry signal = Fin e ->
    stop_loss signal = Fin s ->
    e == s ->
    TradingBot.calculate_position_size self (PyFloat (Fin e)) (PyFloat (Fin s))
    = Raise ZeroDivisionError
    /\ TradingBot.execute_trade self false signal
       = (false, [ErrorExecutingTrade ZeroDivisionError])
    /\ exists x : float,
         not_finite x
         /\ TradingBot.calculate_position_size self
              (NpFloat64 (Fin e)) (NpFloat64 (Fin s))
            = Ok (NpFloat64 x)
         /\ TradingBot.execute_trade self true signal
            = (true, [TradeExecuted signal (NpFloat64 x)]).
Proof.
  intros self signal e s He Hs H.
  pose proof (calculate_position_size_zero_python self e s H) as Hp.
  split; [exact Hp |]. split.
  - unfold TradingBot.execute_trade. rewrite He, Hs. cbn [wrap].
    rewrite Hp. reflexivity.
  - destruct (calculate_position_size_zero_numpy self e s H) as [x [E Hx]].
    exists x. split; [exact Hx |]. split; [exact E |].
    unfold TradingBot.execute_trade. rewrite He, Hs. cbn [wrap].
    rewrite E. reflexivity.
Qed.

(** ** EMA of a constant series *)

Lemma ewm_from_constant (alpha v : Q) (n : nat) (prev : Q) :
  prev == v ->
  Forall (fun y => y == v) (ewm_from alpha prev (repeat v n)).
Proof.
  revert prev. induction n as [| n IH]; intros prev Hp; simpl.
  - constructor.
  - assert (E : Qred ((1 - alpha) * prev + alpha * v) == v).
    { rewrite Qred_correct, Hp. ring. }
    constructor; [exact E | apply IH; exact E].
Qed.

Lemma ewm_from_length (alpha prev : Q) (s : list Q) :
  length (ewm_from alpha prev s) = length s.
Proof.
  revert prev. induction s as [| x t IH]; intros prev; simpl;
    [reflexivity | rewrite IH; reflexivity].
Qed.

Lemma ewm_mean_ok (span : Z) (s : list Q) :
  (1 <= span)%Z ->
  exists e, ewm_mean span s = Ok e /\ length e = length s.
Proof.
  intro H. unfold ewm_mean.
  destruct (span <? 1)%Z eqn:E; [apply Z.ltb_lt in E; lia |].
  eexists. split; [reflexivity |].
  destruct s as [| x t]; simpl; [reflexivity |].
  rewrite ewm_from_length. reflexivity.
Qed.

(** C9.  The EMA of a constant series is that constant at every index,
    for every period the EMA accepts (a span of at least 1). *)
Theorem calculate_ema_constant :
  forall (v : Q) (n : nat) (period : Z),
    (1 <= period)%Z ->
    exists ema : list Q,
      calculate_ema (repeat v n) period = Ok ema
      /\ length ema = n
      /\ forall i : nat, (i < n)%nat -> nth i ema 0 == v.
Proof.
  intros v n period H.
  destruct (ewm_mean_ok period (repeat v n) H) as [e [He Hl]].
  exists e. split; [exact He |].
  rewrite repeat_length in Hl. split; [exact Hl |].
  assert (Hall : Forall (fun y => y == v) e).
  { unfold ewm_mean in He.
    destruct (period <? 1)%Z; [discriminate |].
    injection He as <-.
    destruct n as [| n]; simpl; constructor;
      [reflexivity | apply ewm_from_constant; reflexivity]. }
  intros i Hi. rewrite Forall_forall in Hall.
  apply Hall. apply nth_In. lia.
Qed.

Lemma calculate_ema_constant_witness :
  (1 <= 9)%Z
  /\ exists ema : list Q,
       calculate_ema (repeat 100 5) 9 = Ok ema
       /\ length ema = 5%nat
       /\ forall i : nat, (i < 5)%nat -> nth i ema 0 == 100.
Proof.
  split; [lia | apply (calculate_ema_constant 100 5 9); lia].
Defined.

(** ** The balance of the bot *)

Section Balance.

Import TradingBot.

Lemma iteration_state (self : t) (ex : Exchange) :
  fst (iteration self ex) = self.
Proof.
  unfold iteration, fetch_ohlcv.
  destruct (ohlcv ex) as [df |]; [| reflexivity].
  destruct (50 <? length df)%nat; [| reflexivity].
  destruct (analyze_market self df) as [[| best rest] | e]; try reflexivity.
  destruct (Z.of_nat (length (positions self)) <? max_positions (config self))%Z;
    reflexivity.
Qed.

Lemma stop_balance (self : t) : balance (fst (stop self)) = balance self.
Proof. reflexivity. Qed.

Lemma stop_config (self : t) : config (fst (stop self)) = config self.
Proof. reflexivity. Qed.

Lemma loop_frame (ticks : list Tick) (self : t) :
  balance (fst (loop self ticks)) = balance self
  /\ config (fst (loop self ticks)) = config self.
Proof.
  revert self. induction ticks as [| tick rest IH]; intros self; simpl;
    [split; reflexivity |].
  destruct (is_running self); [| split; reflexivity].
  pose proof (iteration_state self (exchange tick)) as Hi.
  destruct (iteration self (exchange tick)) as [self1 ev1].
  simpl in Hi. subst self1.
  destruct (stop_called tick).
  - simpl. destruct (IH (fst (stop self))) as [Hb Hc].
    simpl in Hb, Hc.
    destruct (loop _ rest) as [self3 ev3]. simpl in *. split; assumption.
  - destruct (IH self) as [Hb Hc].
    destruct (loop self rest) as [self3 ev3]. simpl in *. split; assumption.
Qed.

Lemma run_balance (self : t) (ticks : list Tick) :
  balance (fst (run self ticks)) = balance self.
Proof.
  unfold run.
  match goal with |- context [loop ?s ticks] =>
    pose proof (proj1 (loop_frame ticks s)) as H;
    destruct (loop s ticks) as [self1 ev] end.
  exact H.
Qed.

Lemma calculate_position_size_reads (self self' : t) (e s : scalar) :
  balance self' = balance self ->
  config self' = config self ->
  calculate_position_size self' e s = calculate_position_size self e s.
Proof.
  intros Hb Hc. unfold calculate_position_size. rewrite Hb, Hc. reflexivity.
Qed.

(** Every trade an iteration executes is sized by
    [calculate_position_size] on the bot as the iteration found it. *)
Lemma iteration_sizes (self : t) (ex : Exchange) (signal : Signal)
    (size : scalar) :
  In (TradeExecuted signal size) (snd (iteration self ex)) ->
  calculate_position_size self (NpFloat64 (entry signal))
    (NpFloat64 (stop_loss signal)) = Ok size.
Proof.
  unfold iteration, fetch_ohlcv.
  destruct (ohlcv ex) as [df |]; cbn [snd app].
  2: { intros [H | []]. discriminate. }
  destruct (50 <? length df)%nat; cbn [snd].
  2: { intros []. }
  destruct (analyze_market self df) as [[| best rest] | e]; cbn [snd app].
  - intros [].
  - destruct (Z.of_nat (length (positions self))
              <? max_positions (config self))%Z; cbn [snd app].
    2: { intros []. }
    unfold execute_trade. cbn [wrap].
    destruct (calculate_position_size self (NpFloat64 (entry best))
                (NpFloat64 (stop_loss best))) as [sz | e] eqn:E;
      cbn [snd].
    + intros [H | []]. injection H as <- <-. exact E.
    + intros [H | []]. discriminate.
  - intros [H | []]. discriminate.
Qed.

Lemma loop_sizes (ticks : list Tick) (self : t) (signal : Signal)
    (size : scalar) :
  In (TradeExecuted signal size) (snd (loop self ticks)) ->
  forall self' : t,
    balance self' = balance self ->
    config self' = config self ->
    calculate_position_size self' (NpFloat64 (entry signal))
      (NpFloat64 (stop_loss signal)) = Ok size.
Proof.
  revert self. induction ticks as [| tick rest IH]; intros self; simpl.
  - intros [].
  - destruct (is_running self); [| intros []].
    pose proof (iteration_state self (exchange tick)) as Hi.
    pose proof (iteration_sizes self (exchange tick) signal size) as Hs.
    destruct (iteration self (exchange tick)) as [self1 ev1].
    simpl in Hi, Hs. subst self1.
    destruct (stop_called tick).
    + simpl. specialize (IH (fst (stop self))).
      destruct (loop (fst (stop self)) rest) as [self3 ev3] eqn:El.
      simpl in IH.
      unfold stop in El; simpl in El. rewrite El. simpl.
      intros Hin self' Hb Hc.
      apply in_app_or in Hin. destruct Hin as [Hin | [Hin | Hin]].
      * rewrite (calculate_position_size_reads self self' _ _ Hb Hc).
        apply Hs. exact Hin.
      * discriminate.
      * apply IH; assumption.
    + specialize (IH self).
      destruct (loop self rest) as [self3 ev3]. simpl in *.
      intros Hin self' Hb Hc.
      apply in_app_or in Hin. destruct Hin as [Hin | Hin].
      * rewrite (calculate_position_size_reads self self' _ _ Hb Hc).
        apply Hs. exact Hin.
      * apply IH; assumption.
Qed.

(** The loop reads the candles of the exchange and nothing else of it. *)
Lemma iteration_reads_ohlcv (self : t) (ex ex' : Exchange) :
  ohlcv ex = ohlcv ex' -> iteration self ex = iteration self ex'.
Proof.
  intro H. unfold iteration, fetch_ohlcv. rewrite H. reflexivity.
Qed.

End Balance.

Lemma loop_same_market (ticks ticks' : list TradingBot.Tick)
    (self : TradingBot.t) :
  Forall2 same_market ticks ticks' ->
  TradingBot.loop self ticks' = TradingBot.loop self ticks.
Proof.
  intro H. revert self.
  induction H as [| t t' rest rest' [Ho Hs] _ IH]; intros self; simpl;
    [reflexivity |].
  destruct (TradingBot.is_running self); [| reflexivity].
  rewrite (iteration_reads_ohlcv self _ _ Ho), Hs.
  destruct (TradingBot.iteration self (TradingBot.exchange t')) as [self1 ev1].
  destruct (if TradingBot.stop_called t' then TradingBot.stop self1
            else (self1, [])) as [self2 ev2].
  rewrite IH. reflexivity.
Qed.

(** C10.  The balance is 10000 at construction; the loop (fetching,
    analysing, trading) and [stop] leave it unchanged; every trade the
    loop executes is sized by [calculate_position_size] at that balance,
    whatever the account on the exchange holds. *)
Theorem balance_stays_10000 :
  forall (cfg : BotConfig) (ticks : list TradingBot.Tick),
    TradingBot.balance (TradingBot.init cfg) == 10000
    /\ (forall (self : TradingBot.t),
          TradingBot.balance (fst (TradingBot.run self ticks))
          = TradingBot.balance self
          /\ TradingBot.balance (fst (TradingBot.stop self))
             = TradingBot.balance self
          /\ forall ex : Exchange,
               TradingBot.balance (fst (TradingBot.iteration self ex))
               = TradingBot.balance self)
    /\ (forall (signal : Signal) (size : scalar),
          In (TradeExecuted signal size)
             (snd (TradingBot.run (TradingBot.init cfg) ticks)) ->
          TradingBot.calculate_position_size
            {| TradingBot.config := cfg; TradingBot.is_running := true;
               TradingBot.positions := []; TradingBot.balance := 10000 |}
            (NpFloat64 (entry signal)) (NpFloat64 (stop_loss signal))
          = Ok size)
    /\ (forall ticks' : list TradingBot.Tick,
          Forall2 same_market ticks ticks' ->
          TradingBot.run (TradingBot.init cfg) ticks'
          = TradingBot.run (TradingBot.init cfg) ticks).
Proof.
  intros cfg ticks. split; [reflexivity |]. split; [| split].
  - intros self. split; [apply run_balance |]. split; [reflexivity |].
    intros ex. rewrite iteration_state. reflexivity.
  - intros signal size Hin.
    unfold TradingBot.run in Hin.
    match type of Hin with context [TradingBot.loop ?s ticks] =>
      pose proof (loop_sizes ticks s signal size) as Hl;
      destruct (TradingBot.loop s ticks) as [self1 ev] end.
    simpl in Hin, Hl. destruct Hin as [Hin | Hin]; [discriminate |].
    apply Hl; [exact Hin | reflexivity | reflexivity].
  - intros ticks' H. unfold TradingBot.run.
    rewrite (loop_same_market ticks ticks' _ H). reflexivity.
Qed.

Lemma balance_stays_10000_witness :
  exists (signal : Signal) (size : scalar),
    In (TradeExecuted signal size)
       (snd (TradingBot.run (TradingBot.init default_config)
               [tick_volume_thrust]))
    /\ TradingBot.calculate_position_size
         {| TradingBot.config := default_config;
            TradingBot.is_running := true;
            TradingBot.positions := []; TradingBot.balance := 10000 |}
         (NpFloat64 (entry signal)) (NpFloat64 (stop_loss signal))
       = Ok size.
Proof.
  assert (H : exists (signal : Signal) (size : scalar),
             In (TradeExecuted signal size)
                (snd (TradingBot.run (TradingBot.init default_config)
                        [tick_volume_thrust]))).
  { eexists. eexists. vm_compute. right. left. reflexivity. }
  destruct H as [signal [size Hin]].
  exists signal, size. split; [exact Hin |].
  exact (proj1 (proj2 (proj2
           (balance_stays_10000 default_config [tick_volume_thrust])))
           signal size Hin).
Defined.

(** ** Starting the bot *)


Section Start.

Import MainNoCcxt.

Variables (env : Env) (fetched : float + ClientError) (bot : Bot).

Let r := start_bot env fetched bot.






End Start.



(** ** Columns: lengths and positions *)

Section Columns.

Context {A B C : Type}.

Lemma zip_with_length (f : A -> B -> C) (l1 : list A) (l2 : list B) :
  length (zip_with f l1 l2) = Nat.min (length l1) (length l2).
Proof.
  revert l2. induction l1 as [| a l1 IH]; intros [| b l2]; simpl;
    try reflexivity.
  rewrite IH. reflexivity.
Qed.

Lemma zip_with_nth (f : A -> B -> C) (l1 : list A) (l2 : list B)
    (i : nat) (d : C) (d1 : A) (d2 : B) :
  (i < length l1)%nat -> (i < length l2)%nat ->
  nth i (zip_with f l1 l2) d = f (nth i l1 d1) (nth i l2 d2).
Proof.
  revert l2 i. induction l1 as [| a l1 IH]; intros [| b l2] i H1 H2;
    simpl in *; try lia.
  destruct i as [| i]; [reflexivity |].
  apply IH; lia.
Qed.

Lemma zip_with_map_l (f : A -> B -> C) (g : A -> B) (l : list A) :
  zip_with f l (map g l) = map (fun a => f a (g a)) l.
Proof. induction l as [| a l IH]; simpl; [| rewrite IH]; reflexivity. Qed.

Lemma tail_length (k : nat) (l : list A) :
  length (tail k l) = Nat.min k (length l).
Proof. unfold tail. rewrite length_skipn. lia. Qed.

Lemma tail_map (f : A -> B) (k : nat) (l : list A) :
  tail k (map f l) = map f (tail k l).
Proof. unfold tail. rewrite length_map, skipn_map. reflexivity. Qed.

Lemma nth_tail (k p : nat) (l : list A) (d : A) :
  nth p (tail k l) d = nth (length l - k + p) l d.
Proof. unfold tail. apply nth_skipn. Qed.

Lemma tail_nil (k : nat) (l : list A) : tail k l = [] -> (0 < k)%nat -> l = [].
Proof.
  intros H Hk. apply (f_equal (@length A)) in H.
  rewrite tail_length in H. simpl in H.
  destruct l as [| a l]; [reflexivity | simpl in H; lia].
Qed.

Lemma pos_nil (i : Z) : (i < 0)%Z -> pos (@nil A) i = Raise IndexError.
Proof.
  intro H. unfold pos. cbn [length].
  apply Z.ltb_lt in H. rewrite H.
  change (Z.of_nat 0) with 0%Z. rewrite Z.add_0_r, H. reflexivity.
Qed.

Lemma pos_from_end (l : list A) (k : nat) :
  (0 < k <= length l)%nat ->
  pos l (- Z.of_nat k) = Ok (length l - k)%nat.
Proof.
  intro H. unfold pos.
  destruct (- Z.of_nat k <? 0)%Z eqn:E; [| apply Z.ltb_ge in E; lia].
  destruct (- Z.of_nat k + Z.of_nat (length l) <? 0)%Z eqn:E1;
    [apply Z.ltb_lt in E1; lia |].
  destruct (Z.of_nat (length l) <=? - Z.of_nat k + Z.of_nat (length l))%Z
    eqn:E2; [apply Z.leb_le in E2; lia |].
  simpl. f_equal. lia.
Qed.

Lemma pos_short (l : list A) (k : nat) :
  (length l < k)%nat -> pos l (- Z.of_nat k) = Raise IndexError.
Proof.
  intro H. unfold pos.
  destruct (- Z.of_nat k <? 0)%Z eqn:E; [| apply Z.ltb_ge in E; lia].
  destruct (- Z.of_nat k + Z.of_nat (length l) <? 0)%Z eqn:E1;
    [reflexivity | apply Z.ltb_ge in E1; lia].
Qed.

Lemma iloc_from_end (l : list A) (k : nat) (d : A) :
  (0 < k <= length l)%nat ->
  iloc l (- Z.of_nat k) = Ok (nth (length l - k) l d).
Proof.
  intro H. unfold iloc.
  destruct (- Z.of_nat k <? 0)%Z eqn:E; [| apply Z.ltb_ge in E; lia].
  destruct (- Z.of_nat k + Z.of_nat (length l) <? 0)%Z eqn:E1;
    [apply Z.ltb_lt in E1; lia |].
  replace (Z.to_nat (- Z.of_nat k + Z.of_nat (length l)))
    with (length l - k)%nat by lia.
  destruct (nth_error l (length l - k)) as [a |] eqn:En.
  - rewrite (nth_error_nth _ _ d En). reflexivity.
  - apply nth_error_None in En. lia.
Qed.

Lemma iloc_nat (l : list A) (i : nat) (d : A) :
  (i < length l)%nat -> iloc l (Z.of_nat i) = Ok (nth i l d).
Proof.
  intro H. unfold iloc.
  destruct (Z.of_nat i <? 0)%Z eqn:E; [apply Z.ltb_lt in E; lia |].
  rewrite E. rewrite Nat2Z.id.
  destruct (nth_error l i) as [a |] eqn:En.
  - rewrite (nth_error_nth _ _ d En). reflexivity.
  - apply nth_error_None in En. lia.
Qed.

End Columns.

Lemma rolling_nat_length (w : nat) (agg : list float -> float) (s : Series) :
  length (rolling_nat w agg s) = length s.
Proof. unfold rolling_nat. rewrite length_map, length_seq. reflexivity. Qed.

Lemma nth_map_seq {A : Type} (f : nat -> A) (n i : nat) (d : A) :
  (i < n)%nat -> nth i (map f (seq 0 n)) d = f i.
Proof.
  intro H.
  transitivity (nth i (map f (seq 0 n)) (f 0%nat)).
  - apply nth_indep. rewrite length_map, length_seq. exact H.
  - rewrite map_nth, seq_nth; [reflexivity | exact H].
Qed.

Lemma rolling_nat_nth (w : nat) (agg : list float -> float) (s : Series)
    (i : nat) :
  (i < length s)%nat ->
  nth i (rolling_nat w agg s) NaN
  = if (i + 1 <? w)%nat then NaN else agg (window w i s).
Proof.
  intro H. unfold rolling_nat. rewrite nth_map_seq; [reflexivity | exact H].
Qed.

Lemma rolling_ok (w : Z) (agg : list float -> float) (s : Series) :
  (0 <= w)%Z -> rolling w agg s = Ok (rolling_nat (Z.to_nat w) agg s).
Proof.
  intro H. unfold rolling.
  destruct (w <? 0)%Z eqn:E; [apply Z.ltb_lt in E; lia | reflexivity].
Qed.

Lemma shift_length (s : Series) : length (shift s) = length s.
Proof.
  destruct s as [| x t]; [reflexivity |].
  unfold shift. rewrite removelast_firstn_len. cbn [length Nat.pred].
  rewrite length_firstn. cbn [length]. lia.
Qed.

Lemma shift_back_length (s : Series) : length (shift_back s) = length s.
Proof.
  destruct s as [| x t]; [reflexivity |].
  unfold shift_back. rewrite length_app. simpl. lia.
Qed.

Lemma shift_back_last (s : Series) :
  nth (length s - 1) (shift_back s) NaN = NaN.
Proof.
  destruct s as [| x t]; [reflexivity |].
  unfold shift_back. cbn [length].
  replace (S (length t) - 1)%nat with (length t) by lia.
  rewrite app_nth2, Nat.sub_diag; [reflexivity | lia].
Qed.

(** ** The Liquidity Sweep detector *)

Lemma ltb_irrefl (x : float) : (x <? x)%F = false.
Proof.
  destruct x; try reflexivity. simpl. apply Qltb_false. apply Qle_refl.
Qed.

Lemma ltb_nan_r (x : float) : (x <? NaN)%F = false.
Proof. destruct x; reflexivity. Qed.

Lemma calculate_atr_ok (df : DataFrame) (period : Z) :
  (0 <= period)%Z ->
  exists atr : Series,
    calculate_atr df period = Ok atr /\ length atr = length df.
Proof.
  intro H. unfold calculate_atr. rewrite rolling_ok by exact H.
  eexists. split; [reflexivity |].
  rewrite rolling_nat_length, !zip_with_length, length_map, shift_length.
  unfold lift, col. rewrite !length_map. lia.
Qed.

(** The gap flags of the latest row: the row after it does not exist, so
    [shift(-1)] holds not-a-number there and both comparisons are false. *)
Lemma gap_flag_last (cmp : float -> float -> bool) (s1 s2 : Series) :
  (forall y : float, cmp NaN y = false) ->
  length s1 = length s2 ->
  nth (length (tail 3 s1) - 1) (tail 3 (zip_with cmp (shift_back s1) (shift s2)))
      false = false.
Proof.
  intros Hc Hl.
  destruct s1 as [| x t] eqn:E1.
  - reflexivity.
  - rewrite <- E1 in *.
    assert (Hn : (0 < length s1)%nat) by (rewrite E1; simpl; lia).
    rewrite nth_tail, tail_length, zip_with_length.
    rewrite shift_back_length, shift_length, <- Hl, Nat.min_id.
    replace (length s1 - 3 + (Nat.min 3 (length s1) - 1))%nat
      with (length s1 - 1)%nat by lia.
    rewrite (zip_with_nth cmp _ _ _ false NaN NaN).
    + rewrite shift_back_last. apply Hc.
    + rewrite shift_back_length. lia.
    + rewrite shift_length. lia.
Qed.

Lemma sweep_chain_false (s1 s2 : Series) (cmp : float -> float -> bool)
    (agg : list float -> float) (body : float -> bool) (v : bool) :
  s1 <> [] ->
  length s2 = length s1 ->
  (forall x : float, cmp (agg [x]) x = false) ->
  andM (l0 <- iloc s1 0 ;; Ok (cmp (agg s1) l0))
    (andM (h1 <- iloc s2 1 ;; Ok (body h1)) (Ok (false && v)))
  = Ok false.
Proof.
  intros Hne Hl Hirr.
  destruct s1 as [| x [| y t]]; [contradiction | |].
  - simpl. rewrite Hirr. reflexivity.
  - destruct s2 as [| a [| b u]]; try discriminate.
    unfold iloc. simpl.
    destruct (cmp (agg (x :: y :: t)) x); simpl; [| reflexivity].
    destruct (body b); reflexivity.
Qed.

(** The Liquidity Sweep detector never emits a signal. *)
Lemma liquidity_sweep_fvg_never_emits (df : DataFrame) :
  liquidity_sweep_fvg_strategy df
  = match df with [] => Raise IndexError | _ :: _ => Ok None end.
Proof.
  unfold liquidity_sweep_fvg_strategy.
  rewrite rolling_ok by lia. cbn [bind].
  destruct (calculate_atr_ok df 14) as [atr [Ha _]]; [lia |].
  rewrite Ha. cbn [bind].
  destruct df as [| c0 df']; [reflexivity |].
  set (df := c0 :: df').
  assert (Hdf : (0 < length df)%nat) by (simpl; lia).
  assert (H3 : (0 < length (tail 3 df))%nat) by (rewrite tail_length; lia).
  change (-1)%Z with (- Z.of_nat 1)%Z.
  rewrite pos_from_end by lia. cbn [bind].
  assert (Hup : nth (length (tail 3 (lift (col low df))) - 1)
                  (tail 3 (zip_with gtb (shift_back (lift (col low df)))
                             (shift (lift (col high df))))) false = false).
  { apply gap_flag_last.
    - intro y. unfold gtb. apply ltb_nan_r.
    - unfold lift, col. rewrite !length_map. reflexivity. }
  assert (Hdn : nth (length (tail 3 (lift (col high df))) - 1)
                  (tail 3 (zip_with ltb (shift_back (lift (col high df)))
                             (shift (lift (col low df))))) false = false).
  { apply gap_flag_last.
    - intro y. destruct y; reflexivity.
    - unfold lift, col. rewrite !length_map. reflexivity. }
  assert (Hlen : forall f : Candle -> Q,
             length (tail 3 (lift (col f df))) = length (tail 3 df)).
  { intro f. unfold lift, col. rewrite !tail_length, !length_map. reflexivity. }
  rewrite !Hlen in Hup, Hdn. rewrite Hup, Hdn.
  assert (Hne : forall f : Candle -> Q, tail 3 (lift (col f df)) <> []).
  { intros f E. apply (f_equal (@length float)) in E.
    rewrite Hlen in E. simpl in E. lia. }
  rewrite sweep_chain_false.
  - cbn [bind]. rewrite sweep_chain_false.
    + reflexivity.
    + apply Hne.
    + rewrite !Hlen. reflexivity.
    + intro x. unfold gtb. simpl. apply ltb_irrefl.
  - apply Hne.
  - rewrite !Hlen. reflexivity.
  - intro x. simpl. apply ltb_irrefl.
Qed.

(** ** The Delta Divergence detector *)

Section Ranking.

Context {A : Type} (key : A -> Q).

Let asc (a b : A) : Prop := key a <= key b.
Let desc (a b : A) : Prop := key b <= key a.

Lemma insert_asc_hd (x a : A) (l : list A) :
  asc a x -> HdRel asc a l -> HdRel asc a (insert_asc key x l).
Proof.
  intros Hax Hl. destruct l as [| y t]; simpl.
  - constructor. exact Hax.
  - destruct (Qleb (key x) (key y)); constructor;
      [exact Hax | inversion Hl; assumption].
Qed.

Lemma insert_asc_sorted (x : A) (l : list A) :
  Sorted asc l -> Sorted asc (insert_asc key x l).
Proof.
  induction 1 as [| y t Hs IH Hh]; simpl.
  - repeat constructor.
  - destruct (Qleb (key x) (key y)) eqn:E.
    + apply Qleb_true in E.
      constructor; [constructor; assumption | constructor; exact E].
    + apply Qleb_false in E.
      constructor; [exact IH |].
      apply insert_asc_hd; [unfold asc; lra | exact Hh].
Qed.

Lemma insert_desc_hd (x a : A) (l : list A) :
  desc a x -> HdRel desc a l -> HdRel desc a (insert_desc key x l).
Proof.
  intros Hax Hl. destruct l as [| y t]; simpl.
  - constructor. exact Hax.
  - destruct (Qleb (key y) (key x)); constructor;
      [exact Hax | inversion Hl; assumption].
Qed.

Lemma insert_desc_sorted (x : A) (l : list A) :
  Sorted desc l -> Sorted desc (insert_desc key x l).
Proof.
  induction 1 as [| y t Hs IH Hh]; simpl.
  - repeat constructor.
  - destruct (Qleb (key y) (key x)) eqn:E.
    + apply Qleb_true in E.
      constructor; [constructor; assumption | constructor; exact E].
    + apply Qleb_false in E.
      constructor; [exact IH |].
      apply insert_desc_hd; [unfold desc; lra | exact Hh].
Qed.

Lemma sort_asc_sorted (rows : list A) :
  Sorted asc (fold_right (insert_asc key) [] rows).
Proof.
  induction rows as [| x t IH]; simpl;
    [constructor | apply insert_asc_sorted; exact IH].
Qed.

Lemma sort_desc_sorted (rows : list A) :
  Sorted desc (fold_right (insert_desc key) [] rows).
Proof.
  induction rows as [| x t IH]; simpl;
    [constructor | apply insert_desc_sorted; exact IH].
Qed.

(** The two rows [nsmallest] returns are in ascending order of the
    column, those of [nlargest] in descending order. *)
Lemma nsmallest_ordered (rows : list A) (r0 r1 : A) :
  nsmallest 2 key rows = [r0; r1] -> key r0 <= key r1.
Proof.
  unfold nsmallest. intro H.
  pose proof (sort_asc_sorted rows) as Hs.
  destruct (fold_right (insert_asc key) [] rows) as [| a [| b u]];
    try discriminate.
  simpl in H. injection H as -> ->.
  inversion Hs as [| ? ? _ Hh]; subst. inversion Hh; subst. assumption.
Qed.

Lemma nlargest_ordered (rows : list A) (r0 r1 : A) :
  nlargest 2 key rows = [r0; r1] -> key r1 <= key r0.
Proof.
  unfold nlargest. intro H.
  pose proof (sort_desc_sorted rows) as Hs.
  destruct (fold_right (insert_desc key) [] rows) as [| a [| b u]];
    try discriminate.
  simpl in H. injection H as -> ->.
  inversion Hs as [| ? ? _ Hh]; subst. inversion Hh; subst. assumption.
Qed.

End Ranking.

Lemma calculate_rsi_ok (s : Series) (period : Z) :
  (0 <= period)%Z ->
  calculate_rsi s period
  = Ok (map rsi_of
          (zip_with div
             (rolling_nat (Z.to_nat period) mean
                (where_ (fun d => d >? Fin 0)%F (Fin 0) (diff s)))
             (rolling_nat (Z.to_nat period) mean
                (map neg (where_ (fun d => d <? Fin 0)%F (Fin 0) (diff s)))))).
Proof.
  intro H. unfold calculate_rsi, gain, loss.
  rewrite !rolling_ok by exact H. reflexivity.
Qed.

Lemma two_rows_case {A B : Type} (rows : list A)
    (body : A -> A -> result (option B)) :
  (forall r0 r1 : A, rows = [r0; r1] -> body r0 r1 = Ok None) ->
  (if (length rows =? 2)%nat then
     r0 <- iloc rows 0 ;; r1 <- iloc rows 1 ;; body r0 r1
   else Ok None) = Ok None.
Proof.
  intro H. destruct rows as [| a [| b [| c t]]]; try reflexivity.
  unfold iloc. simpl. apply H. reflexivity.
Qed.

(** The Delta Divergence detector never emits a signal (and never
    raises): the second row of [nsmallest] cannot be below the first,
    nor the second row of [nlargest] above the first. *)
Lemma delta_divergence_never_emits (df : DataFrame) :
  delta_divergence_strategy df = Ok None.
Proof.
  unfold delta_divergence_strategy.
  rewrite rolling_ok by lia. cbn [bind].
  rewrite calculate_rsi_ok by lia. cbn [bind].
  match goal with |- bind ?X ?K = _ => assert (HX : X = Ok None) end.
  { apply two_rows_case. intros r0 r1 E.
    apply nsmallest_ordered in E. apply Qltb_false in E.
    cbn [ltb]. rewrite E. reflexivity. }
  rewrite HX. cbn [bind].
  apply two_rows_case. intros r0 r1 E.
  apply nlargest_ordered in E. apply Qltb_false in E.
  unfold gtb at 1. cbn [ltb]. rewrite E. reflexivity.
Qed.

(** ** Frames shorter than a detector's window *)

Lemma ewm_mean_eq (span : Z) (s : list Q) :
  (1 <= span)%Z ->
  ewm_mean span s = Ok (ewm_values (2 / (inject_Z span + 1)) s).
Proof.
  intro H. unfold ewm_mean.
  destruct (span <? 1)%Z eqn:E; [apply Z.ltb_lt in E; lia | reflexivity].
Qed.

Lemma calculate_macd_ok (data : list Q) (fast slow signal : Z) :
  (1 <= fast)%Z -> (1 <= slow)%Z -> (1 <= signal)%Z ->
  exists m, calculate_macd data fast slow signal = Ok m.
Proof.
  intros Hf Hs Hg. unfold calculate_macd.
  rewrite !ewm_mean_eq by assumption. cbn [bind].
  rewrite ewm_mean_eq by assumption. cbn [bind]. eexists. reflexivity.
Qed.

Lemma gtb_nan_r (x : float) : (x >? NaN)%F = false.
Proof. reflexivity. Qed.

Lemma rolling_short (w : nat) (agg : list float -> float) (s : Series)
    (i : nat) :
  (i + 1 < w)%nat -> nth i (rolling_nat w agg s) NaN = NaN.
Proof.
  intro H. destruct (Nat.lt_ge_cases i (length s)) as [Hi | Hi].
  - rewrite rolling_nat_nth by exact Hi.
    destruct (i + 1 <? w)%nat eqn:E; [reflexivity |].
    apply Nat.ltb_ge in E. lia.
  - apply nth_overflow. rewrite rolling_nat_length. exact Hi.
Qed.

Lemma get_rolling_short (w : nat) (agg : list float -> float) (s : Series)
    (i : nat) :
  (i + 1 < w)%nat -> get (rolling_nat w agg s) i = NaN.
Proof. apply rolling_short. Qed.

Lemma ltb_nan_l (x : float) : (NaN <? x)%F = false.
Proof. reflexivity. Qed.

Lemma gtb_nan_l (x : float) : (NaN >? x)%F = false.
Proof. unfold gtb. apply ltb_nan_r. Qed.

(** RSI is not-a-number while the window is not filled. *)
Lemma rsi_short (g l : Series) (w i : nat) :
  (i + 1 < w)%nat ->
  nth i (map rsi_of (zip_with div (rolling_nat w mean g) (rolling_nat w mean l)))
      NaN = NaN.
Proof.
  intro H.
  change NaN with (rsi_of NaN) at 1. rewrite map_nth.
  destruct (Nat.lt_ge_cases i
              (length (zip_with div (rolling_nat w mean g)
                         (rolling_nat w mean l)))) as [Hi | Hi].
  - rewrite zip_with_length in Hi.
    rewrite (zip_with_nth div _ _ _ NaN NaN NaN) by lia.
    rewrite rolling_short by exact H. reflexivity.
  - rewrite nth_overflow by exact Hi. reflexivity.
Qed.

Lemma ema_crossover_short (df : DataFrame) :
  (2 <= length df < 20)%nat -> ema_crossover_rsi_strategy df = Ok None.
Proof.
  intro H. unfold ema_crossover_rsi_strategy, calculate_ema.
  rewrite !ewm_mean_eq by lia. cbn [bind].
  rewrite calculate_rsi_ok by lia. cbn [bind].
  rewrite rolling_ok by lia. cbn [bind].
  change (-1)%Z with (- Z.of_nat 1)%Z. change (-2)%Z with (- Z.of_nat 2)%Z.
  rewrite !pos_from_end by lia. cbn [bind].
  change (Z.to_nat 20) with 20%nat.
  rewrite !get_rolling_short by lia.
  cbn [mul]. rewrite gtb_nan_r, !andb_false_r. reflexivity.
Qed.

Lemma volume_profile_short (df : DataFrame) :
  (1 <= length df < 20)%nat ->
  volume_profile_order_flow_strategy df = Ok None.
Proof.
  intro H. unfold volume_profile_order_flow_strategy, calculate_ema.
  rewrite !ewm_mean_eq by lia. cbn [bind].
  rewrite rolling_ok by lia. cbn [bind].
  change (-1)%Z with (- Z.of_nat 1)%Z.
  rewrite !pos_from_end by lia. cbn [bind].
  change (Z.to_nat 20) with 20%nat.
  rewrite !get_rolling_short by lia.
  cbn [mul]. rewrite gtb_nan_r, !andb_false_r. reflexivity.
Qed.

Lemma market_structure_short (df : DataFrame) :
  (1 <= length df < 14)%nat ->
  market_structure_break_strategy df = Ok None.
Proof.
  intro H. unfold market_structure_break_strategy.
  rewrite calculate_rsi_ok by lia. cbn [bind].
  destruct (calculate_macd_ok (col close df) 12 26 9) as [m Hm]; try lia.
  rewrite Hm. cbn [bind].
  change (-1)%Z with (- Z.of_nat 1)%Z. change (-2)%Z with (- Z.of_nat 2)%Z.
  rewrite !pos_from_end by lia. cbn [bind].
  change (Z.to_nat 14) with 14%nat.
  unfold get. rewrite rsi_short by lia.
  destruct df as [| c0 df']; [simpl in H; lia |].
  set (df := c0 :: df') in *.
  match goal with |- context [tail 3 (select ?m df)] =>
    set (highs := tail 3 (select m df)) end.
  match goal with |- context [tail 3 (select ?m df)] =>
    set (lows := tail 3 (select m df)) end.
  destruct (2 <=? length highs)%nat eqn:Eh.
  - apply Nat.leb_le in Eh.
    rewrite (iloc_from_end highs 2 c0) by lia. cbn [bind].
    rewrite gtb_nan_l, andb_false_r. cbn [andb bind].
    destruct (2 <=? length lows)%nat eqn:El; [| reflexivity].
    apply Nat.leb_le in El.
    rewrite (iloc_from_end lows 2 c0) by lia. cbn [bind].
    rewrite ltb_nan_l. rewrite andb_false_r. reflexivity.
  - cbn [bind].
    destruct (2 <=? length lows)%nat eqn:El; [| reflexivity].
    apply Nat.leb_le in El.
    rewrite (iloc_from_end lows 2 c0) by lia. cbn [bind].
    rewrite ltb_nan_l. rewrite andb_false_r. reflexivity.
Qed.

Lemma ema_crossover_raises (df : DataFrame) :
  (length df < 2)%nat -> ema_crossover_rsi_strategy df = Raise IndexError.
Proof.
  intro H. unfold ema_crossover_rsi_strategy, calculate_ema.
  rewrite !ewm_mean_eq by lia. cbn [bind].
  rewrite calculate_rsi_ok by lia. cbn [bind].
  rewrite rolling_ok by lia. cbn [bind].
  change (-1)%Z with (- Z.of_nat 1)%Z. change (-2)%Z with (- Z.of_nat 2)%Z.
  rewrite (pos_short df 2) by lia.
  destruct df as [| c0 [| c1 t]]; [reflexivity | reflexivity | simpl in H; lia].
Qed.

Lemma volume_profile_raises :
  volume_profile_order_flow_strategy [] = Raise IndexError.
Proof. reflexivity. Qed.

Lemma market_structure_raises :
  market_structure_break_strategy [] = Raise IndexError.
Proof. reflexivity. Qed.

(** C4 fails as stated.  Four detectors raise [IndexError] on the empty
    frame, and the EMA detector also on a single candle.  And a frame
    shorter than the spans of the exponential averages and than the 50
    candles the caller waits for can give a signal: twenty candles do
    for the EMA Crossover and Volume Profile detectors (spans up to 50),
    fourteen for Market Structure Break (spans up to 26). *)
Lemma short_frames_raise_or_emit :
  detect EmaCrossoverRsi [] = Raise IndexError
  /\ detect EmaCrossoverRsi df_single = Raise IndexError
  /\ detect VolumeProfileOrderFlow [] = Raise IndexError
  /\ detect MarketStructureBreak [] = Raise IndexError
  /\ detect LiquiditySweepFvg [] = Raise IndexError
  /\ length (cross 6) = 20%nat
  /\ (exists s : Signal, detect EmaCrossoverRsi (cross 6) = Ok (Some s))
  /\ (exists s : Signal, detect VolumeProfileOrderFlow (cross 6) = Ok (Some s))
  /\ length (cross 0) = 14%nat
  /\ (exists s : Signal, detect MarketStructureBreak (cross 0) = Ok (Some s)).
Proof.
  repeat split; try reflexivity; eexists; vm_compute; reflexivity.
Qed.

(** C4, as the code has it.  On a frame shorter than the detector's
    largest rolling window (20 rows; 14 for Market Structure Break) a
    detector returns no signal, provided the frame has the rows the
    detector indexes without a guard (2 for EMA Crossover, 1 for Volume
    Profile, Market Structure Break and Liquidity Sweep); on a frame
    with fewer rows these four raise [IndexError].  The Delta Divergence
    detector is stated on the frames that have a row.  The bound cannot
    be raised: each of the three detectors that emit does so on a frame
    of exactly that many rows. *)
Theorem detectors_on_short_frames :
  (forall (d : Detector) (df : DataFrame),
      (length df < min_window d)%nat ->
      (d = DeltaDivergence -> df <> []) ->
      detect d df
      = if (length df <? rows_indexed d)%nat then Raise IndexError
        else Ok None)
  /\ (forall d : Detector,
        d = EmaCrossoverRsi \/ d = VolumeProfileOrderFlow
        \/ d = MarketStructureBreak ->
        exists (df : DataFrame) (s : Signal),
          length df = min_window d /\ detect d df = Ok (Some s)).
Proof.
  split.
  - intros d df H Hrow.
    destruct (length df <? rows_indexed d)%nat eqn:E;
      [apply Nat.ltb_lt in E | apply Nat.ltb_ge in E];
      destruct d; simpl in *.
    + apply ema_crossover_raises. exact E.
    + destruct df; [apply volume_profile_raises | simpl in E; lia].
    + destruct df; [apply market_structure_raises | simpl in E; lia].
    + rewrite liquidity_sweep_fvg_never_emits.
      destruct df; [reflexivity | simpl in E; lia].
    + lia.
    + apply ema_crossover_short. lia.
    + apply volume_profile_short. lia.
    + apply market_structure_short. lia.
    + rewrite liquidity_sweep_fvg_never_emits.
      destruct df; [simpl in E; lia | reflexivity].
    + apply delta_divergence_never_emits.
  - intros d [-> | [-> | ->]].
    + exists (cross 6). eexists. split; vm_compute; reflexivity.
    + exists (cross 6). eexists. split; vm_compute; reflexivity.
    + exists (cross 0). eexists. split; vm_compute; reflexivity.
Qed.

Lemma detectors_on_short_frames_witness :
  (length (cross 5) < min_window EmaCrossoverRsi)%nat
  /\ (EmaCrossoverRsi = DeltaDivergence -> cross 5 <> [])
  /\ detect EmaCrossoverRsi (cross 5) = Ok None
  /\ (length df_rise_13 < min_window MarketStructureBreak)%nat
  /\ detect MarketStructureBreak df_rise_13 = Ok None
  /\ (DeltaDivergence = DeltaDivergence -> cross 5 <> [])
  /\ detect DeltaDivergence (cross 5) = Ok None
  /\ (exists (df : DataFrame) (s : Signal),
        length df = min_window MarketStructureBreak
        /\ detect MarketStructureBreak df = Ok (Some s)).
Proof.
  split; [vm_compute; lia |].
  split; [discriminate |].
  split; [apply (proj1 detectors_on_short_frames EmaCrossoverRsi (cross 5));
          [vm_compute; lia | discriminate] |].
  split; [vm_compute; lia |].
  split; [apply (proj1 detectors_on_short_frames MarketStructureBreak
                   df_rise_13);
          [vm_compute; lia | discriminate] |].
  split; [intros _; discriminate |].
  split; [apply (proj1 detectors_on_short_frames DeltaDivergence (cross 5));
          [vm_compute; lia | intros _; discriminate] |].
  apply (proj2 detectors_on_short_frames MarketStructureBreak).
  right. right. reflexivity.
Defined.

(** ** What the rolling means hold on a finite series *)

Lemma fsum_lift (l : list Q) : fsum (lift l) = Fin (Qsum l).
Proof.
  induction l as [| x t IH]; [reflexivity |].
  unfold fsum, lift in *. simpl. rewrite IH. reflexivity.
Qed.

Lemma window_lift (w i : nat) (s : list Q) :
  window w i (lift s) = lift (window w i s).
Proof. unfold window, lift. rewrite skipn_map, firstn_map. reflexivity. Qed.

Lemma window_length {A : Type} (w i : nat) (s : list A) :
  (i < length s)%nat -> (w <= i + 1)%nat -> length (window w i s) = w.
Proof.
  intros Hi Hw. unfold window. rewrite length_firstn, length_skipn. lia.
Qed.

Lemma inject_nat_pos (w : nat) : (0 < w)%nat -> 0 < inject_Z (Z.of_nat w).
Proof.
  intro H. change 0 with (inject_Z 0). rewrite <- Zlt_Qlt. lia.
Qed.

Lemma mean_lift (l : list Q) :
  (0 < length l)%nat ->
  mean (lift l) = Fin (Qsum l / inject_Z (Z.of_nat (length l))).
Proof.
  intro H. unfold mean. rewrite fsum_lift.
  unfold lift. rewrite length_map. cbn [div].
  rewrite (Qcompare_Gt_0 _ (inject_nat_pos _ H)). reflexivity.
Qed.

(** The rolling mean of a finite column at a position whose window is
    filled. *)
Lemma rolling_mean_lift (w i : nat) (s : list Q) :
  (0 < w)%nat -> (w <= i + 1)%nat -> (i < length s)%nat ->
  nth i (rolling_nat w mean (lift s)) NaN = Fin (window_mean w i s).
Proof.
  intros Hw Hi Hn.
  rewrite rolling_nat_nth by (unfold lift; rewrite length_map; exact Hn).
  destruct (i + 1 <? w)%nat eqn:E; [apply Nat.ltb_lt in E; lia |].
  rewrite window_lift, mean_lift; rewrite window_length; try assumption.
  reflexivity.
Qed.

(** [diff] on a finite column. *)
Lemma diff_tail (p : Q) (t : list Q) :
  zip_with Num.sub (lift t) (removelast (Fin p :: lift t))
  = lift (changes_from (fun d => d) p t).
Proof.
  revert p. induction t as [| y u IH]; intros p; [reflexivity |].
  change (removelast (Fin p :: lift (y :: u)))
    with (Fin p :: removelast (Fin y :: lift u)).
  change (lift (y :: u)) with (Fin y :: lift u).
  cbn [zip_with]. rewrite IH. reflexivity.
Qed.

Lemma diff_lift (s : list Q) :
  diff (lift s)
  = match s with
    | [] => []
    | x :: t => NaN :: lift (changes_from (fun d => d) x t)
    end.
Proof.
  destruct s as [| x t]; [reflexivity |].
  unfold diff, shift. change (lift (x :: t)) with (Fin x :: lift t).
  cbn [zip_with]. rewrite diff_tail. reflexivity.
Qed.

Lemma changes_from_map (f : Q -> Q) (p : Q) (t : list Q) :
  changes_from f p t = map f (changes_from (fun d => d) p t).
Proof.
  revert p. induction t as [| y u IH]; intros p; simpl;
    [reflexivity | rewrite IH; reflexivity].
Qed.

(** The two columns [calculate_rsi] averages. *)
Lemma gains_lift (s : list Q) :
  where_ (fun d => d >? Fin 0)%F (Fin 0) (diff (lift s))
  = lift (changes positive_part s).
Proof.
  rewrite diff_lift. destruct s as [| x t]; [reflexivity |].
  unfold changes, where_, lift. cbn [map]. f_equal.
  rewrite (changes_from_map positive_part), !map_map.
  apply map_ext. intro d. unfold positive_part, gtb. cbn [ltb].
  destruct (Qltb 0 d); reflexivity.
Qed.

Lemma losses_lift (s : list Q) :
  map neg (where_ (fun d => d <? Fin 0)%F (Fin 0) (diff (lift s)))
  = lift (changes negative_part s).
Proof.
  rewrite diff_lift. destruct s as [| x t]; [reflexivity |].
  unfold changes, where_, lift. cbn [map]. f_equal.
  rewrite (changes_from_map negative_part), !map_map.
  apply map_ext. intro d. unfold negative_part. cbn [ltb].
  destruct (Qltb d 0); reflexivity.
Qed.

Lemma changes_length (f : Q -> Q) (s : list Q) :
  length (changes f s) = length s.
Proof.
  destruct s as [| x t]; [reflexivity |]. unfold changes. cbn [length].
  rewrite changes_from_map, length_map. f_equal.
  revert x. induction t as [| y u IH]; intros x; simpl;
    [reflexivity | rewrite IH; reflexivity].
Qed.

Lemma Qsum_nonneg (l : list Q) : Forall (fun x => 0 <= x) l -> 0 <= Qsum l.
Proof.
  induction 1 as [| x t Hx _ IH]; simpl; [apply Qle_refl |].
  unfold Qsum in *. lra.
Qed.

Lemma positive_part_nonneg (d : Q) : 0 <= positive_part d.
Proof.
  unfold positive_part. destruct (Qltb 0 d) eqn:E;
    [apply Qltb_true in E; lra | apply Qle_refl].
Qed.

Lemma negative_part_nonneg (d : Q) : 0 <= negative_part d.
Proof.
  unfold negative_part. destruct (Qltb d 0) eqn:E;
    [apply Qltb_true in E; lra | lra].
Qed.

Lemma changes_nonneg (f : Q -> Q) (s : list Q) :
  (forall d, 0 <= f d) -> Forall (fun x => 0 <= x) (changes f s).
Proof.
  intro Hf. destruct s as [| x t]; [constructor |].
  unfold changes. constructor; [apply Qle_refl |].
  rewrite changes_from_map. apply Forall_map, Forall_forall.
  intros d _. apply Hf.
Qed.

Lemma window_Forall {A : Type} (P : A -> Prop) (w i : nat) (s : list A) :
  Forall P s -> Forall P (window w i s).
Proof.
  intro H. unfold window.
  rewrite <- (firstn_skipn (i + 1 - w) s) in H.
  apply Forall_app in H. destruct H as [_ H].
  rewrite <- (firstn_skipn w (skipn (i + 1 - w) s)) in H.
  apply Forall_app in H. exact (proj1 H).
Qed.

Lemma window_mean_nonneg (w i : nat) (s : list Q) :
  (0 < w)%nat -> Forall (fun x => 0 <= x) s -> 0 <= window_mean w i s.
Proof.
  intros Hw H. unfold window_mean.
  pose proof (Qsum_nonneg _ (window_Forall _ w i s H)) as Hs.
  pose proof (inject_nat_pos w Hw) as Hp.
  apply Qle_shift_div_l; [exact Hp | lra].
Qed.

(** ** RSI *)

Lemma rsi_of_ratio (g l : Q) :
  0 <= g -> 0 < l ->
  rsi_of (Fin g / Fin l)%F = Fin (100 + - (100 / (1 + g / l))).
Proof.
  intros Hg Hl. unfold rsi_of. cbn [div].
  rewrite (Qcompare_Gt_0 l Hl). cbn [add div].
  assert (Hp : 0 < 1 + g / l).
  { assert (0 <= g / l) by (apply Qle_shift_div_l; [exact Hl | lra]). lra. }
  rewrite (Qcompare_Gt_0 _ Hp). reflexivity.
Qed.

Lemma rsi_of_no_loss (g l : Q) :
  0 < g -> l == 0 -> rsi_of (Fin g / Fin l)%F = Fin (100 + - 0).
Proof.
  intros Hg Hl. unfold rsi_of. cbn [div].
  rewrite (Qcompare_Eq_0 l Hl). unfold signed_inf.
  rewrite (Qcompare_Gt_0 g Hg). reflexivity.
Qed.

Lemma rsi_of_no_change (g l : Q) :
  g == 0 -> l == 0 -> rsi_of (Fin g / Fin l)%F = NaN.
Proof.
  intros Hg Hl. unfold rsi_of. cbn [div].
  rewrite (Qcompare_Eq_0 l Hl). unfold signed_inf.
  rewrite (Qcompare_Eq_0 g Hg). reflexivity.
Qed.

Section RsiValues.

Variables (s : list Q) (w : nat).
Hypothesis Hw : (0 < w)%nat.

Let gains : Series :=
  rolling_nat w mean (where_ (fun d => d >? Fin 0)%F (Fin 0) (diff (lift s))).
Let losses : Series :=
  rolling_nat w mean
    (map neg (where_ (fun d => d <? Fin 0)%F (Fin 0) (diff (lift s)))).
Let rsi : Series := map rsi_of (zip_with div gains losses).

Lemma rsi_length : length rsi = length s.
Proof.
  unfold rsi, gains, losses.
  rewrite length_map, zip_with_length, !rolling_nat_length.
  rewrite gains_lift, losses_lift. unfold lift.
  rewrite !length_map, !changes_length. lia.
Qed.

Lemma gains_nth (i : nat) :
  (w <= i + 1)%nat -> (i < length s)%nat ->
  nth i gains NaN = Fin (window_mean w i (changes positive_part s)).
Proof.
  intros Hi Hn. unfold gains. rewrite gains_lift.
  apply rolling_mean_lift; try assumption.
  rewrite changes_length. exact Hn.
Qed.

Lemma losses_nth (i : nat) :
  (w <= i + 1)%nat -> (i < length s)%nat ->
  nth i losses NaN = Fin (window_mean w i (changes negative_part s)).
Proof.
  intros Hi Hn. unfold losses. rewrite losses_lift.
  apply rolling_mean_lift; try assumption.
  rewrite changes_length. exact Hn.
Qed.

Lemma rsi_nth (i : nat) :
  (i < length s)%nat ->
  nth i rsi NaN = rsi_of (nth i gains NaN / nth i losses NaN)%F.
Proof.
  intro Hn. unfold rsi.
  change NaN with (rsi_of NaN) at 1. rewrite map_nth.
  assert (Hg : length gains = length s).
  { unfold gains. rewrite rolling_nat_length, gains_lift.
    unfold lift. rewrite length_map. apply changes_length. }
  assert (Hl : length losses = length s).
  { unfold losses. rewrite rolling_nat_length, losses_lift.
    unfold lift. rewrite length_map. apply changes_length. }
  rewrite (zip_with_nth div _ _ _ NaN NaN NaN) by lia. reflexivity.
Qed.

Lemma rsi_filled (i : nat) :
  (w <= i + 1)%nat -> (i < length s)%nat ->
  nth i rsi NaN
  = rsi_of (Fin (window_mean w i (changes positive_part s))
            / Fin (window_mean w i (changes negative_part s)))%F.
Proof.
  intros Hi Hn. rewrite rsi_nth, gains_nth, losses_nth by assumption.
  reflexivity.
Qed.

End RsiValues.

(** C8 fails as stated: on fifteen rising prices the 14-period average
    loss of the last row is 0 and its RSI is 100, not not-a-number. *)
Lemma rsi_is_100_without_losses :
  exists loss_s rsi : Series,
    loss (lift rising_prices) 14 = Ok loss_s
    /\ calculate_rsi (lift rising_prices) 14 = Ok rsi
    /\ same (nth 14 loss_s NaN) (Fin 0)
    /\ same (nth 14 rsi NaN) (Fin 100)
    /\ nth 14 rsi NaN <> NaN.
Proof.
  eexists. eexists.
  split; [vm_compute; reflexivity |].
  split; [vm_compute; reflexivity |].
  split; [vm_compute; reflexivity |].
  split; [vm_compute; reflexivity | discriminate].
Qed.

(** C8, as the code has it.  On a finite price series and a period of at
    least 1, RSI is not-a-number while the window is not filled; from
    then on, with [g] and [l] the means of the gains and of the losses
    over the trailing window, it is [100 - 100 / (1 + g / l)] when
    [l > 0], 100 when [l = 0 < g], and not-a-number when both are 0. *)
Theorem calculate_rsi_values :
  forall (s : list Q) (period : Z),
    (1 <= period)%Z ->
    exists gain_s loss_s rsi : Series,
      gain (lift s) period = Ok gain_s
      /\ loss (lift s) period = Ok loss_s
      /\ calculate_rsi (lift s) period = Ok rsi
      /\ length rsi = length s
      /\ forall i : nat,
           (i < length s)%nat ->
           ((Z.of_nat i + 1 < period)%Z -> nth i rsi NaN = NaN)
           /\ ((period <= Z.of_nat i + 1)%Z ->
               let g := window_mean (Z.to_nat period) i
                          (changes positive_part s) in
               let l := window_mean (Z.to_nat period) i
                          (changes negative_part s) in
               nth i gain_s NaN = Fin g
               /\ nth i loss_s NaN = Fin l
               /\ 0 <= g /\ 0 <= l
               /\ (0 < l ->
                   same (nth i rsi NaN) (Fin (100 - 100 / (1 + g / l))))
               /\ (l == 0 -> 0 < g -> same (nth i rsi NaN) (Fin 100))
               /\ (l == 0 -> g == 0 -> nth i rsi NaN = NaN)).
Proof.
  intros s period Hp.
  assert (Hw : (0 < Z.to_nat period)%nat) by lia.
  do 3 eexists.
  split; [unfold gain; apply rolling_ok; lia |].
  split; [unfold loss; apply rolling_ok; lia |].
  split; [apply calculate_rsi_ok; lia |].
  split; [apply rsi_length; exact Hw |].
  intros i Hi. split.
  - intro Hs. apply rsi_short. lia.
  - intros Hf g l.
    assert (Hwi : (Z.to_nat period <= i + 1)%nat) by lia.
    assert (Hg : 0 <= g).
    { apply window_mean_nonneg; [exact Hw |].
      apply changes_nonneg, positive_part_nonneg. }
    assert (Hl : 0 <= l).
    { apply window_mean_nonneg; [exact Hw |].
      apply changes_nonneg, negative_part_nonneg. }
    split; [apply gains_nth; assumption |].
    split; [apply losses_nth; assumption |].
    split; [exact Hg |]. split; [exact Hl |].
    rewrite rsi_filled by assumption. fold g l.
    split; [| split].
    + intro Hl0. rewrite rsi_of_ratio by assumption. simpl. reflexivity.
    + intros Hl0 Hg0. rewrite rsi_of_no_loss by assumption.
      simpl. reflexivity.
    + intros Hl0 Hg0. apply rsi_of_no_change; assumption.
Qed.

Lemma calculate_rsi_values_witness :
  (1 <= 14)%Z
  /\ exists rsi : Series,
       calculate_rsi (lift rising_prices) 14 = Ok rsi
       /\ length rsi = length rising_prices
       /\ same (nth 14 rsi NaN) (Fin 100).
Proof.
  split; [lia |].
  destruct (calculate_rsi_values rising_prices 14)
    as [g [l [rsi [_ [_ [Hr [Hlen Hi]]]]]]]; [lia |].
  exists rsi. split; [exact Hr |]. split; [exact Hlen |].
  destruct (Hi 14%nat) as [_ Hf]; [vm_compute; lia |].
  destruct Hf as [_ [_ [_ [_ [_ [H100 _]]]]]]; [lia |].
  apply H100; vm_compute; reflexivity.
Defined.

(** ** The average true range *)

Lemma qmax_ge_r (a b : Q) : b <= qmax a b.
Proof.
  unfold qmax. destruct (Qltb a b) eqn:E;
    [apply Qle_refl | apply Qltb_false in E; exact E].
Qed.

Lemma max_skipna_fin (a b : Q) : max_skipna (Fin a) (Fin b) = Fin (qmax a b).
Proof. unfold max_skipna, qmax. cbn [ltb]. destruct (Qltb a b); reflexivity. Qed.

Section TrueRange.

Let high_low (c : Candle) : float := (Fin (high c) - Fin (low c))%F.
Let high_close (c : Candle) (pc : float) : float :=
  Num.abs (Fin (high c) - pc)%F.
Let low_close (c : Candle) (pc : float) : float :=
  Num.abs (Fin (low c) - pc)%F.

Lemma true_range_tail (pc : Q) (t : DataFrame) :
  zip_with max_skipna
    (zip_with max_skipna (map high_low t)
       (zip_with high_close t (removelast (Fin pc :: lift (col close t)))))
    (zip_with low_close t (removelast (Fin pc :: lift (col close t))))
  = lift (true_ranges_from pc t).
Proof.
  revert pc. induction t as [| c u IH]; intros pc; [reflexivity |].
  change (removelast (Fin pc :: lift (col close (c :: u))))
    with (Fin pc :: removelast (Fin (close c) :: lift (col close u))).
  cbn [map zip_with true_ranges_from]. rewrite IH.
  change (lift (?x :: ?l)) with (Fin x :: lift l). f_equal.
  unfold high_low, high_close, low_close.
  cbn [Num.sub Num.add neg Num.abs].
  rewrite !max_skipna_fin. reflexivity.
Qed.

Lemma true_range_lift (df : DataFrame) :
  zip_with max_skipna
    (zip_with max_skipna (map high_low df)
       (zip_with high_close df (shift (lift (col close df)))))
    (zip_with low_close df (shift (lift (col close df))))
  = lift (true_ranges df).
Proof.
  destruct df as [| c t]; [reflexivity |].
  unfold shift. change (lift (col close (c :: t)))
    with (Fin (close c) :: lift (col close t)).
  cbn [map zip_with true_ranges]. rewrite true_range_tail.
  reflexivity.
Qed.

End TrueRange.

Lemma calculate_atr_eq (df : DataFrame) (period : Z) :
  (0 <= period)%Z ->
  calculate_atr df period
  = Ok (rolling_nat (Z.to_nat period) mean (lift (true_ranges df))).
Proof.
  intro H. unfold calculate_atr. rewrite rolling_ok by exact H.
  rewrite true_range_lift. reflexivity.
Qed.

Lemma true_ranges_from_length (pc : Q) (df : DataFrame) :
  length (true_ranges_from pc df) = length df.
Proof.
  revert pc. induction df as [| c t IH]; intros pc; simpl;
    [reflexivity | rewrite IH; reflexivity].
Qed.

Lemma true_ranges_length (df : DataFrame) :
  length (true_ranges df) = length df.
Proof.
  destruct df as [| c t]; [reflexivity |]. simpl.
  rewrite true_ranges_from_length. reflexivity.
Qed.

Lemma well_formed_range (c : Candle) : well_formed c -> 0 <= high c + - low c.
Proof. unfold well_formed. intros [H1 [H2 [H3 H4]]]. lra. Qed.

Lemma true_ranges_from_nonneg (pc : Q) (df : DataFrame) :
  Forall (fun x => 0 <= x) (true_ranges_from pc df).
Proof.
  revert pc. induction df as [| c t IH]; intros pc; simpl; constructor.
  - apply Qle_trans with (Qabs (low c + - pc));
      [apply Qabs_nonneg | apply qmax_ge_r].
  - apply IH.
Qed.

Lemma true_ranges_nonneg (df : DataFrame) :
  Forall well_formed df -> Forall (fun x => 0 <= x) (true_ranges df).
Proof.
  intro H. destruct df as [| c t]; [constructor |]. simpl.
  inversion H as [| ? ? Hc Ht]; subst.
  constructor; [apply well_formed_range; exact Hc |].
  apply true_ranges_from_nonneg.
Qed.

(** ** The RSI of the latest row *)

(** The RSI of the latest row, on a frame of at least 14 rows. *)
Lemma rsi_last (df : DataFrame) :
  (14 <= length df)%nat ->
  exists g l : Q,
    get (map rsi_of
           (zip_with div
              (rolling_nat 14 mean
                 (where_ (fun d => d >? Fin 0)%F (Fin 0)
                    (diff (lift (col close df)))))
              (rolling_nat 14 mean
                 (map neg (where_ (fun d => d <? Fin 0)%F (Fin 0)
                             (diff (lift (col close df))))))))
        (length df - 1)
    = rsi_of (Fin g / Fin l)%F
    /\ 0 <= g /\ 0 <= l
    /\ g = window_mean 14 (length df - 1) (changes positive_part (col close df))
    /\ l = window_mean 14 (length df - 1) (changes negative_part (col close df)).
Proof.
  intro Hn. do 2 eexists. split; [| split; [| split; [| split; reflexivity]]].
  - unfold get. apply rsi_filled; [lia | lia |].
    unfold col. rewrite length_map. lia.
  - apply window_mean_nonneg; [lia |].
    apply changes_nonneg, positive_part_nonneg.
  - apply window_mean_nonneg; [lia |].
    apply changes_nonneg, negative_part_nonneg.
Qed.

(** ** The ordering of emitted signals *)

Lemma getq_map (f : Candle -> Q) (df : DataFrame) (i : nat) (d : Candle) :
  (i < length df)%nat -> getq (map f df) i = f (nth i df d).
Proof.
  intro Hi. unfold getq.
  rewrite (nth_indep _ 0 (f d)) by (rewrite length_map; exact Hi).
  apply map_nth.
Qed.

Lemma well_formedb_ok (c : Candle) : well_formedb c = true -> well_formed c.
Proof.
  unfold well_formedb, well_formed. intro H.
  repeat (apply andb_true_iff in H; destruct H as [H ?]).
  repeat split; apply Qleb_true; assumption.
Qed.

Lemma well_formed_frame (df : DataFrame) :
  forallb well_formedb df = true -> Forall well_formed df.
Proof.
  intro H. apply Forall_forall. intros c Hc.
  apply well_formedb_ok. rewrite forallb_forall in H. apply H. exact Hc.
Qed.

Lemma ranged_frame (df : DataFrame) :
  forallb rangedb df = true -> Forall ranged df.
Proof.
  intro H. apply Forall_forall. intros c Hc.
  apply Qleb_true. rewrite forallb_forall in H. apply H. exact Hc.
Qed.

Lemma true_ranges_nonneg_ranged (df : DataFrame) :
  Forall ranged df -> Forall (fun x => 0 <= x) (true_ranges df).
Proof.
  intro H. destruct df as [| c t]; [constructor |]. simpl.
  inversion H as [| ? ? Hc Ht]; subst.
  constructor; [unfold ranged in Hc; lra |].
  apply true_ranges_from_nonneg.
Qed.

Lemma window_after_first {A : Type} (w i : nat) (x : A) (l : list A) :
  (1 <= w <= i)%nat -> window w i (x :: l) = window w (i - 1) l.
Proof.
  intro H. unfold window.
  replace (i + 1 - w)%nat with (S (i - 1 + 1 - w)) by lia.
  reflexivity.
Qed.

(** The true ranges the latest average is taken over are not negative:
    all but the first of a frame are largest values that include an
    absolute value, and the first is the range of the first candle. *)
Lemma latest_true_ranges_nonneg (df : DataFrame) :
  (15 <= length df)%nat \/ Forall ranged df ->
  Forall (fun x => 0 <= x) (window 14 (length df - 1) (true_ranges df)).
Proof.
  intros [H | H].
  - destruct df as [| c t]; [simpl in H; lia |].
    cbn [true_ranges]. rewrite window_after_first by (simpl in *; lia).
    apply window_Forall, true_ranges_from_nonneg.
  - apply window_Forall, true_ranges_nonneg_ranged. exact H.
Qed.

(** The latest average true range is a number that is not negative, on
    a frame of at least 15 candles and on one of 14 candles with
    low <= high. *)
Lemma atr_last_nonneg (df : DataFrame) :
  (15 <= length df)%nat \/ Forall ranged df ->
  (14 <= length df)%nat ->
  exists (atr_s : Series) (a : Q),
    calculate_atr df 14 = Ok atr_s
    /\ iloc atr_s (-1) = Ok (Fin a)
    /\ 0 <= a.
Proof.
  intros Hr Hn.
  rewrite calculate_atr_eq by lia. change (Z.to_nat 14) with 14%nat.
  exists (rolling_nat 14 mean (lift (true_ranges df))).
  exists (window_mean 14 (length df - 1) (true_ranges df)).
  split; [reflexivity |]. split.
  - change (-1)%Z with (- Z.of_nat 1)%Z.
    rewrite (iloc_from_end _ 1 NaN).
    + rewrite rolling_nat_length. unfold lift. rewrite length_map.
      rewrite true_ranges_length.
      rewrite <- (rolling_mean_lift 14 (length df - 1) (true_ranges df));
        try lia; [reflexivity | rewrite true_ranges_length; lia].
    + rewrite rolling_nat_length. unfold lift.
      rewrite length_map, true_ranges_length. lia.
  - unfold window_mean.
    pose proof (Qsum_nonneg _ (latest_true_ranges_nonneg df Hr)) as Hs.
    pose proof (inject_nat_pos 14 ltac:(lia)) as Hp.
    apply Qle_shift_div_l; [exact Hp | lra].
Qed.

Lemma at_most_sub_nonneg (c k a : Q) :
  0 < k -> 0 <= a -> at_most (Fin c - Fin k * Fin a)%F (Fin c).
Proof.
  intros Hk Ha. unfold at_most. cbn. apply Qleb_true. nra.
Qed.

Lemma at_most_add_nonneg (c k a : Q) :
  0 < k -> 0 <= a -> at_most (Fin c) (Fin c + Fin k * Fin a)%F.
Proof.
  intros Hk Ha. unfold at_most. cbn. apply Qleb_true. nra.
Qed.

Lemma lt_at_most (x y : float) : lt x y -> at_most x y.
Proof.
  unfold lt, at_most.
  destruct x as [a | | |], y as [b | | |]; cbn; intro H;
    try discriminate; try reflexivity.
  apply Qleb_true. apply Qltb_true in H. lra.
Qed.

(** The EMA Crossover detector puts the stop and the target at
    [close -/+ 2 ATR] and [close +/- 4 ATR]: on either side of the entry
    or on it. *)
Lemma ema_crossover_weakly_ordered (df : DataFrame) (s : Signal) :
  ema_crossover_rsi_strategy df = Ok (Some s) ->
  weakly_ordered s.
Proof.
  intro H.
  destruct (Nat.lt_ge_cases (length df) 20) as [Hs | Hn].
  { destruct (Nat.lt_ge_cases (length df) 2) as [H2 | H2].
    - rewrite ema_crossover_raises in H by exact H2. discriminate.
    - rewrite ema_crossover_short in H by lia. discriminate. }
  destruct (atr_last_nonneg df) as [atr_s [a [Ha [Hi Hpos]]]];
    [left; lia | lia |].
  unfold ema_crossover_rsi_strategy, calculate_ema in H.
  rewrite !ewm_mean_eq in H by lia. cbn [bind] in H.
  pose proof (calculate_rsi_ok (lift (col close df)) 14) as Hr.
  match type of Hr with _ -> _ = Ok ?e => set (rsi := e) in * end.
  specialize (Hr ltac:(lia)).
  rewrite Hr in H. cbn [bind] in H.
  rewrite rolling_ok in H by lia. cbn [bind] in H.
  change (-1)%Z with (- Z.of_nat 1)%Z in H.
  change (-2)%Z with (- Z.of_nat 2)%Z in H.
  rewrite !pos_from_end in H by lia. cbn [bind] in H.
  rewrite Ha in H. cbn [bind] in H.
  change (- Z.of_nat 1)%Z with (-1)%Z in H. rewrite Hi in H. cbn [bind] in H.
  match type of H with (if ?c then _ else _) = _ => destruct c end.
  - injection H as <-. unfold weakly_ordered.
    cbn [type stop_loss entry take_profit].
    split; [apply at_most_sub_nonneg | apply at_most_add_nonneg]; lra.
  - match type of H with (if ?c then _ else _) = _ => destruct c end;
      [| discriminate].
    injection H as <-. unfold weakly_ordered.
    cbn [type stop_loss entry take_profit].
    split; [apply at_most_sub_nonneg | apply at_most_add_nonneg]; lra.
Qed.

(** The Volume Profile detector puts the stop at [VWAP -/+ ATR], beyond
    the VWAP that the close has strictly passed, and the target at
    [close +/- 3 ATR]. *)
Lemma volume_profile_weakly_ordered (df : DataFrame) (s : Signal) :
  volume_profile_order_flow_strategy df = Ok (Some s) ->
  weakly_ordered s /\ stop_ordered s.
Proof.
  intro H.
  destruct (Nat.lt_ge_cases (length df) 20) as [Hs | Hn].
  { destruct df as [| c0 t]; [discriminate |].
    rewrite volume_profile_short in H by (simpl in *; lia). discriminate. }
  destruct (atr_last_nonneg df) as [atr_s [a [Ha [Hi Hpos]]]];
    [left; lia | lia |].
  unfold volume_profile_order_flow_strategy, calculate_ema in H.
  rewrite !ewm_mean_eq in H by lia. cbn [bind] in H.
  rewrite rolling_ok in H by lia. cbn [bind] in H.
  change (-1)%Z with (- Z.of_nat 1)%Z in H.
  rewrite !pos_from_end in H by lia. cbn [bind] in H.
  rewrite Ha in H. cbn [bind] in H.
  change (- Z.of_nat 1)%Z with (-1)%Z in H. rewrite Hi in H. cbn [bind] in H.
  set (vwap := get (calculate_vwap df) (length df - 1)) in *.
  set (c := getq (col close df) (length df - 1)) in *.
  match type of H with (if ?b then _ else _) = _ => destruct b eqn:EL end.
  - repeat (apply andb_true_iff in EL; destruct EL as [EL ?]).
    injection H as <-.
    assert (Hst : lt (vwap - Fin a)%F (Fin c)).
    { unfold gtb in EL. unfold lt.
      destruct vwap as [v | | |]; cbn in *; try discriminate; [| reflexivity].
      apply Qltb_true in EL. apply Qltb_true. lra. }
    unfold weakly_ordered, stop_ordered.
    cbn [type stop_loss entry take_profit].
    split; [split |]; [apply lt_at_most; exact Hst | | exact Hst].
    apply at_most_add_nonneg; lra.
  - clear EL.
    match type of H with (if ?b then _ else _) = _ => destruct b eqn:ES end;
      [| discriminate].
    repeat (apply andb_true_iff in ES; destruct ES as [ES ?]).
    injection H as <-.
    assert (Hst : lt (Fin c) (vwap + Fin a)%F).
    { unfold lt.
      destruct vwap as [v | | |]; cbn in *; try discriminate; [| reflexivity].
      apply Qltb_true in ES. apply Qltb_true. lra. }
    unfold weakly_ordered, stop_ordered.
    cbn [type stop_loss entry take_profit].
    split; [split |]; [| apply lt_at_most; exact Hst | exact Hst].
    apply at_most_sub_nonneg; lra.
Qed.

(** The Market Structure Break detector puts the target at
    [close +/- 3 ATR]. *)
Lemma market_structure_target_weakly_ordered (df : DataFrame) (s : Signal) :
  (15 <= length df)%nat \/ Forall ranged df ->
  market_structure_break_strategy df = Ok (Some s) ->
  target_weakly_ordered s.
Proof.
  intros Hrg H.
  destruct (Nat.lt_ge_cases (length df) 14) as [Hs | Hn].
  { destruct df as [| c0 t]; [discriminate |].
    rewrite market_structure_short in H by (simpl in *; lia). discriminate. }
  destruct (atr_last_nonneg df Hrg Hn) as [atr_s [a [Ha [Hi Hpos]]]].
  destruct df as [| c0 t] eqn:Edf; [simpl in Hn; lia |].
  rewrite <- Edf in *. clear Edf t.
  unfold market_structure_break_strategy in H.
  pose proof (calculate_rsi_ok (lift (col close df)) 14) as Hr.
  match type of Hr with _ -> _ = Ok ?e => set (rsi := e) in * end.
  specialize (Hr ltac:(lia)).
  rewrite Hr in H. cbn [bind] in H.
  destruct (calculate_macd_ok (col close df) 12 26 9) as [m Hm]; try lia.
  rewrite Hm in H. cbn [bind] in H.
  change (-1)%Z with (- Z.of_nat 1)%Z in H.
  change (-2)%Z with (- Z.of_nat 2)%Z in H.
  rewrite !pos_from_end in H by lia. cbn [bind] in H.
  rewrite Ha in H. cbn [bind] in H.
  match type of H with context [tail 3 (select ?mask df)] =>
    set (highs := tail 3 (select mask df)) in * end.
  match type of H with context [tail 3 (select ?mask df)] =>
    set (lows := tail 3 (select mask df)) in * end.
  set (c := getq (col close df) (length df - 1)) in *.
  assert (Long : forall st : float,
             target_weakly_ordered
               {| type := LONG; entry := Fin c; stop_loss := st;
                  take_profit := (Fin c + Fin 3 * Fin a)%F;
                  confidence := 72; strategy := "Market Structure Break" |}).
  { intro st. unfold target_weakly_ordered. cbn [type entry take_profit].
    apply at_most_add_nonneg; lra. }
  assert (Short : forall st : float,
             target_weakly_ordered
               {| type := SHORT; entry := Fin c; stop_loss := st;
                  take_profit := (Fin c - Fin 3 * Fin a)%F;
                  confidence := 72; strategy := "Market Structure Break" |}).
  { intro st. unfold target_weakly_ordered. cbn [type entry take_profit].
    apply at_most_sub_nonneg; lra. }
  destruct (2 <=? length highs)%nat eqn:Eh.
  - apply Nat.leb_le in Eh.
    rewrite (iloc_from_end highs 2 c0) in H by lia. cbn [bind] in H.
    match type of H with context [if ?b then _ else Ok None] =>
      destruct b eqn:EL end.
    + change (- Z.of_nat 1)%Z with (-1)%Z in H. rewrite Hi in H.
      cbn [bind] in H.
      destruct (0 <? length lows)%nat eqn:El.
      * apply Nat.ltb_lt in El.
        change (-1)%Z with (- Z.of_nat 1)%Z in H.
        rewrite (iloc_from_end lows 1 c0) in H by lia. cbn [bind] in H.
        injection H as <-. apply Long.
      * cbn [bind] in H. injection H as <-. apply Long.
    + cbn [bind] in H.
      destruct (2 <=? length lows)%nat eqn:El; [| discriminate].
      apply Nat.leb_le in El.
      rewrite (iloc_from_end lows 2 c0) in H by lia. cbn [bind] in H.
      match type of H with (if ?b then _ else _) = _ =>
        destruct b eqn:ES end; [| discriminate].
      change (- Z.of_nat 1)%Z with (-1)%Z in H. rewrite Hi in H.
      cbn [bind] in H.
      assert (E0 : (0 <? length highs)%nat = true) by (apply Nat.ltb_lt; lia).
      rewrite E0 in H.
      change (-1)%Z with (- Z.of_nat 1)%Z in H.
      rewrite (iloc_from_end highs 1 c0) in H by lia. cbn [bind] in H.
      injection H as <-. apply Short.
  - cbn [bind] in H.
    destruct (2 <=? length lows)%nat eqn:El; [| discriminate].
    apply Nat.leb_le in El.
    rewrite (iloc_from_end lows 2 c0) in H by lia. cbn [bind] in H.
    match type of H with (if ?b then _ else _) = _ =>
      destruct b eqn:ES end; [| discriminate].
    change (- Z.of_nat 1)%Z with (-1)%Z in H. rewrite Hi in H.
      cbn [bind] in H.
    destruct (0 <? length highs)%nat eqn:E0.
    + apply Nat.ltb_lt in E0.
      change (-1)%Z with (- Z.of_nat 1)%Z in H.
      rewrite (iloc_from_end highs 1 c0) in H by lia. cbn [bind] in H.
      injection H as <-. apply Short.
    + cbn [bind] in H. injection H as <-. apply Short.
Qed.

(** C1 fails as stated.  On well formed candles the Market Structure
    Break detector emits a LONG signal whose stop (179, the low of the
    latest swing low) is above its entry (178).  On candles whose close
    lies outside their range the average true range can be 0: the
    Volume Profile detector then emits a LONG signal whose target equals
    its entry, and the EMA Crossover detector one whose stop and target
    both equal its entry.  And on fourteen candles of which the first
    has its high below its low the average true range is negative: the
    Market Structure Break detector then emits a LONG signal whose
    target (85.5) is below its entry (105). *)
Lemma signal_ordering_violated :
  Forall well_formed df_break_below_swing_low
  /\ (exists s : Signal,
        detect MarketStructureBreak df_break_below_swing_low = Ok (Some s)
        /\ type s = LONG
        /\ same (entry s) (Fin 178)
        /\ same (stop_loss s) (Fin 179)
        /\ ~ ordered s)
  /\ (exists s : Signal,
        detect VolumeProfileOrderFlow df_close_outside_range = Ok (Some s)
        /\ type s = LONG
        /\ same (entry s) (Fin 105)
        /\ same (take_profit s) (Fin 105)
        /\ ~ ordered s)
  /\ (exists s : Signal,
        detect EmaCrossoverRsi df_cross_outside_range = Ok (Some s)
        /\ type s = LONG
        /\ same (entry s) (Fin 105)
        /\ same (stop_loss s) (Fin 105)
        /\ same (take_profit s) (Fin 105)
        /\ ~ ordered s)
  /\ (exists s : Signal,
        detect MarketStructureBreak df_inverted_first = Ok (Some s)
        /\ length df_inverted_first = 14%nat
        /\ type s = LONG
        /\ same (entry s) (Fin 105)
        /\ same (take_profit s) (Fin (171 # 2))
        /\ ~ target_weakly_ordered s).
Proof.
  split; [apply well_formed_frame; vm_compute; reflexivity |].
  split; [| split; [| split]].
  - eexists. split; [vm_compute; reflexivity |].
    repeat split; try (vm_compute; reflexivity).
    unfold ordered, lt. vm_compute. intros [H _]. discriminate.
  - eexists. split; [vm_compute; reflexivity |].
    repeat split; try (vm_compute; reflexivity).
    unfold ordered, lt. vm_compute. intros [_ H]. discriminate.
  - eexists. split; [vm_compute; reflexivity |].
    repeat split; try (vm_compute; reflexivity).
    unfold ordered, lt. vm_compute. intros [_ H]. discriminate.
  - eexists. split; [vm_compute; reflexivity |].
    repeat split; try (vm_compute; reflexivity).
    unfold target_weakly_ordered, at_most. vm_compute. discriminate.
Qed.

(** C1, as the code has it.  A signal of the EMA Crossover detector has
    its stop and its target on the sides the invariant names or on the
    entry itself (LONG: stop_loss <= entry <= take_profit; SHORT:
    take_profit <= entry <= stop_loss); a signal of the Volume Profile
    detector has them so too, and its stop strictly off the entry; a
    signal of the Market Structure Break detector has its target so, on
    a frame of at least 15 candles or of candles with low <= high (its
    stop is the latest swing low or high, wherever that lies). *)
Theorem emitted_signal_ordering :
  forall (df : DataFrame) (s : Signal),
    (detect EmaCrossoverRsi df = Ok (Some s) -> weakly_ordered s)
    /\ (detect VolumeProfileOrderFlow df = Ok (Some s) ->
        weakly_ordered s /\ stop_ordered s)
    /\ (detect MarketStructureBreak df = Ok (Some s) ->
        (15 <= length df)%nat \/ Forall ranged df ->
        target_weakly_ordered s).
Proof.
  intros df s. cbn [detect]. split; [| split].
  - apply ema_crossover_weakly_ordered.
  - apply volume_profile_weakly_ordered.
  - intros H Hr. apply (market_structure_target_weakly_ordered df); assumption.
Qed.

Lemma emitted_signal_ordering_witness :
  (exists s : Signal,
     detect EmaCrossoverRsi (cross 6) = Ok (Some s)
     /\ weakly_ordered s)
  /\ (exists s : Signal,
        detect VolumeProfileOrderFlow (cross 6) = Ok (Some s)
        /\ weakly_ordered s /\ stop_ordered s)
  /\ (exists s : Signal,
        detect MarketStructureBreak (cross 0) = Ok (Some s)
        /\ ((15 <= length (cross 0))%nat \/ Forall ranged (cross 0))
        /\ target_weakly_ordered s).
Proof.
  split; [| split].
  - eexists. split; [vm_compute; reflexivity |].
    apply (proj1 (emitted_signal_ordering (cross 6) _)).
    vm_compute. reflexivity.
  - eexists. split; [vm_compute; reflexivity |].
    apply (proj1 (proj2 (emitted_signal_ordering (cross 6) _))).
    vm_compute. reflexivity.
  - assert (Hr : Forall ranged (cross 0))
      by (apply ranged_frame; vm_compute; reflexivity).
    eexists. split; [vm_compute; reflexivity |].
    split; [right; exact Hr |].
    apply (proj2 (proj2 (emitted_signal_ordering (cross 0) _)));
      [vm_compute; reflexivity | right; exact Hr].
Defined.

(** ** Closing statements on the concrete frames *)

Lemma calculate_position_size_rounds_formula_witness :
  ~ 100 == 90
  /\ exists k : Z,
       TradingBot.calculate_position_size (TradingBot.init default_config)
         (PyFloat (Fin 100)) (PyFloat (Fin 90))
       = Ok (PyFloat (Fin (inject_Z k / 1000)))
       /\ Qabs (inject_Z k / 1000
                - spec_size 10000 1 100 90 10) <= 1 # 2000.
Proof.
  assert (H : ~ 100 == 90) by (intro E; discriminate E).
  split; [exact H |].
  destruct (calculate_position_size_rounds_formula
              (TradingBot.init default_config) 100 90 false false H)
    as [[k [Hk [_ Hr]]] _].
  exists k. split; [exact Hk | exact Hr].
Defined.

(** C3 fails as stated.  On [df_break_on_swing_low] the Market Structure
    Break detector emits a signal whose stop equals its entry; the sizer
    returns an infinite size without raising, and the loop executes the
    trade. *)
Lemma zero_distance_trade_executed :
  detect MarketStructureBreak df_break_on_swing_low
  = Ok (Some zero_distance_signal)
  /\ entry zero_distance_signal = stop_loss zero_distance_signal
  /\ TradingBot.calculate_position_size (TradingBot.init default_config)
       (NpFloat64 (entry zero_distance_signal))
       (NpFloat64 (stop_loss zero_distance_signal))
     = Ok (NpFloat64 PInf)
  /\ TradingBot.execute_trade (TradingBot.init default_config) true
       zero_distance_signal
     = (true, [TradeExecuted zero_distance_signal (NpFloat64 PInf)])
  /\ snd (TradingBot.iteration (TradingBot.init default_config)
            {| ohlcv := Some df_break_on_swing_low;
               account_total := Fin 10000 |})
     = [TradeExecuted zero_distance_signal (NpFloat64 PInf)].
Proof.
  repeat split; vm_compute; reflexivity.
Qed.

Lemma zero_distance_is_divided_witness :
  entry zero_distance_signal = Fin 179
  /\ stop_loss zero_distance_signal = Fin 179
  /\ 179 == 179
  /\ TradingBot.execute_trade (TradingBot.init default_config) false
       zero_distance_signal
     = (false, [ErrorExecutingTrade ZeroDivisionError])
  /\ exists x : float,
       not_finite x
       /\ TradingBot.execute_trade (TradingBot.init default_config) true
            zero_distance_signal
          = (true, [TradeExecuted zero_distance_signal (NpFloat64 x)]).
Proof.
  split; [reflexivity |]. split; [reflexivity |]. split; [reflexivity |].
  destruct (zero_distance_is_divided (TradingBot.init default_config)
              zero_distance_signal 179 179 eq_refl eq_refl (Qeq_refl 179))
    as [_ [Hp [x [Hx [_ He]]]]].
  split; [exact Hp |]. exists x. split; [exact Hx | exact He].
Defined.

(** C5: the detector misses what the claim describes.  On
    [df_sweep_and_gap] the last three candles sweep the first low,
    recover above the middle high, leave a gap up (low 102 of the third
    over high 101 of the first) and carry the volume: the condition of
    the specification holds, and the detector's own gap column flags the
    middle candle; yet the detector reads the flag of the latest candle,
    which [shift(-1)] never sets, and returns no signal, there as on
    every frame. *)
Theorem liquidity_sweep_never_fires :
  spec_sweep_long df_sweep_and_gap = true
  /\ tail 3 (zip_with gtb (shift_back (lift (col low df_sweep_and_gap)))
               (shift (lift (col high df_sweep_and_gap))))
     = [false; true; false]
  /\ liquidity_sweep_fvg_strategy df_sweep_and_gap = Ok None
  /\ forall (df : DataFrame) (s : Signal),
       liquidity_sweep_fvg_strategy df <> Ok (Some s).
Proof.
  split; [vm_compute; reflexivity |].
  split; [vm_compute; reflexivity |].
  split; [vm_compute; reflexivity |].
  intros df s H. rewrite liquidity_sweep_fvg_never_emits in H.
  destruct df; discriminate.
Qed.

(** C6: the detector misses what the claim describes.  On
    [df_bullish_divergence] the two lowest lows of the last 20 candles
    are 48 (delta -5) and, more recent, 45 (delta -1/2), OBV is above
    its mean and RSI14 below 40: the condition of the specification
    holds; yet the detector compares the rows in the order [nsmallest]
    returns them (lowest first), asks the second to be below the first,
    and returns no signal, there as on every frame. *)
Theorem delta_divergence_never_fires :
  spec_bullish_divergence df_bullish_divergence = true
  /\ map low (nsmallest 2 low (tail 20 df_bullish_divergence)) = [45; 48]
  /\ delta_divergence_strategy df_bullish_divergence = Ok None
  /\ forall df : DataFrame, delta_divergence_strategy df = Ok None.
Proof.
  split; [vm_compute; reflexivity |].
  split; [vm_compute; reflexivity |].
  split; [vm_compute; reflexivity |].
  apply delta_divergence_never_emits.
Qed.

(** ** Further properties of the indicators *)

Lemma ewm_alpha_range (span : Z) :
  (1 <= span)%Z ->
  0 < 2 / (inject_Z span + 1) /\ 2 / (inject_Z span + 1) <= 1.
Proof.
  intro H.
  assert (Hs : 1 <= inject_Z span).
  { change 1 with (inject_Z 1). rewrite <- Zle_Qle. exact H. }
  split.
  - apply Qlt_shift_div_l; lra.
  - apply Qle_shift_div_r; lra.
Qed.

Lemma ewm_from_bounded (alpha lo hi prev : Q) (s : list Q) :
  0 < alpha -> alpha <= 1 ->
  lo <= prev <= hi ->
  Forall (fun x => lo <= x <= hi) s ->
  Forall (fun y => lo <= y <= hi) (ewm_from alpha prev s).
Proof.
  intros Ha0 Ha1. revert prev.
  induction s as [| x t IH]; intros prev Hp Hs; simpl; constructor.
  - inversion Hs as [| ? ? Hx _]; subst. rewrite Qred_correct. nra.
  - inversion Hs as [| ? ? Hx Ht]; subst. apply IH; [| exact Ht].
    rewrite Qred_correct. nra.
Qed.

(** X1.  For a span of at least 1 the EMA stays within the range of its
    data: between any lower and upper bound of the series. *)
Theorem calculate_ema_within_range :
  forall (data : list Q) (period : Z) (lo hi : Q),
    (1 <= period)%Z ->
    Forall (fun x => lo <= x <= hi) data ->
    exists ema : list Q,
      calculate_ema data period = Ok ema
      /\ length ema = length data
      /\ Forall (fun y => lo <= y <= hi) ema.
Proof.
  intros data period lo hi Hp Hd.
  destruct (ewm_mean_ok period data Hp) as [e [He Hl]].
  exists e. split; [exact He |]. split; [exact Hl |].
  unfold ewm_mean in He.
  destruct (period <? 1)%Z; [discriminate |].
  assert (E : e = ewm_values (2 / (inject_Z period + 1)) data) by congruence.
  rewrite E.
  destruct (ewm_alpha_range period Hp) as [Ha0 Ha1].
  destruct data as [| x t]; simpl; [constructor |].
  inversion Hd as [| ? ? Hx Ht]; subst.
  constructor; [exact Hx |].
  apply ewm_from_bounded; assumption.
Qed.

Lemma calculate_ema_within_range_witness :
  (1 <= 9)%Z
  /\ Forall (fun x => 100 <= x <= 114) rising_prices
  /\ exists ema : list Q,
       calculate_ema rising_prices 9 = Ok ema
       /\ Forall (fun y => 100 <= y <= 114) ema.
Proof.
  assert (Hd : Forall (fun x => 100 <= x <= 114) rising_prices).
  { unfold rising_prices. repeat constructor; unfold Qle; simpl; lia. }
  split; [lia |]. split; [exact Hd |].
  destruct (calculate_ema_within_range rising_prices 9 100 114)
    as [ema [He [_ Hb]]]; [lia | exact Hd |].
  exists ema. split; [exact He | exact Hb].
Defined.

Lemma rsi_of_range (g l : Q) :
  0 <= g -> 0 <= l ->
  rsi_of (Fin g / Fin l)%F = NaN
  \/ exists r : Q, rsi_of (Fin g / Fin l)%F = Fin r /\ 0 <= r <= 100.
Proof.
  intros Hg Hl.
  destruct (Qlt_le_dec 0 l) as [Hlp | Hln].
  - right. rewrite rsi_of_ratio by assumption.
    eexists. split; [reflexivity |].
    assert (Hq : 0 <= g / l) by (apply Qle_shift_div_l; [exact Hlp | lra]).
    assert (Hd : 0 < 1 + g / l) by lra.
    assert (H1 : 100 / (1 + g / l) <= 100)
      by (apply Qle_shift_div_r; [exact Hd | lra]).
    assert (H2 : 0 <= 100 / (1 + g / l))
      by (apply Qle_shift_div_l; [exact Hd | lra]).
    lra.
  - assert (Hl0 : l == 0) by lra.
    destruct (Qlt_le_dec 0 g) as [Hgp | Hgn].
    + right. rewrite rsi_of_no_loss by assumption.
      eexists. split; [reflexivity | lra].
    + left. apply rsi_of_no_change; [lra | exact Hl0].
Qed.

(** X2.  Wherever it is defined, the RSI of a finite series lies between
    0 and 100. *)
Theorem calculate_rsi_between_0_and_100 :
  forall (s : list Q) (period : Z),
    (1 <= period)%Z ->
    exists rsi : Series,
      calculate_rsi (lift s) period = Ok rsi
      /\ length rsi = length s
      /\ Forall (fun v => v = NaN
                          \/ exists r : Q, v = Fin r /\ 0 <= r <= 100) rsi.
Proof.
  intros s period Hp.
  assert (Hw : (0 < Z.to_nat period)%nat) by lia.
  eexists. split; [apply calculate_rsi_ok; lia |].
  split; [apply rsi_length; exact Hw |].
  apply Forall_forall. intros v Hv.
  apply (In_nth _ _ NaN) in Hv. destruct Hv as [i [Hi Hv]].
  rewrite rsi_length in Hi by exact Hw.
  destruct (Nat.lt_ge_cases (i + 1) (Z.to_nat period)) as [Hs | Hf].
  - left. rewrite <- Hv. apply rsi_short. exact Hs.
  - rewrite <- Hv. rewrite rsi_filled by assumption.
    apply rsi_of_range.
    + apply window_mean_nonneg; [exact Hw |].
      apply changes_nonneg, positive_part_nonneg.
    + apply window_mean_nonneg; [exact Hw |].
      apply changes_nonneg, negative_part_nonneg.
Qed.

Lemma calculate_rsi_between_0_and_100_witness :
  (1 <= 14)%Z
  /\ exists rsi : Series,
       calculate_rsi (lift rising_prices) 14 = Ok rsi
       /\ Forall (fun v => v = NaN
                           \/ exists r : Q, v = Fin r /\ 0 <= r <= 100) rsi.
Proof.
  split; [lia |].
  destruct (calculate_rsi_between_0_and_100 rising_prices 14)
    as [rsi [Hr [_ Hb]]]; [lia |].
  exists rsi. split; [exact Hr | exact Hb].
Defined.

(** X3.  On well formed candles the average
    true range is not-a-number on the first [period - 1] rows and a
    non-negative number from then on: the mean of the true ranges of the
    trailing window. *)
Theorem calculate_atr_defined_and_nonnegative :
  forall (df : DataFrame) (period : Z),
    (1 <= period)%Z ->
    Forall well_formed df ->
    exists atr : Series,
      calculate_atr df period = Ok atr
      /\ length atr = length df
      /\ forall i : nat,
           (i < length df)%nat ->
           ((Z.of_nat i + 1 < period)%Z -> nth i atr NaN = NaN)
           /\ ((period <= Z.of_nat i + 1)%Z ->
               nth i atr NaN
               = Fin (window_mean (Z.to_nat period) i (true_ranges df))
               /\ 0 <= window_mean (Z.to_nat period) i (true_ranges df)).
Proof.
  intros df period Hp Hwf.
  eexists. split; [apply calculate_atr_eq; lia |].
  split.
  { rewrite rolling_nat_length. unfold lift.
    rewrite length_map. apply true_ranges_length. }
  intros i Hi. split.
  - intro Hs. apply rolling_short. lia.
  - intro Hf. split.
    + apply rolling_mean_lift; try lia.
      rewrite true_ranges_length. exact Hi.
    + apply window_mean_nonneg; [lia |].
      apply true_ranges_nonneg. exact Hwf.
Qed.

Lemma calculate_atr_defined_and_nonnegative_witness :
  (1 <= 14)%Z
  /\ Forall well_formed df_volume_thrust
  /\ exists atr : Series,
       calculate_atr df_volume_thrust 14 = Ok atr
       /\ length atr = length df_volume_thrust
       /\ same (nth 50 atr NaN) (Fin (5 # 14)).
Proof.
  assert (Hwf : Forall well_formed df_volume_thrust)
    by (apply well_formed_frame; vm_compute; reflexivity).
  split; [lia |]. split; [exact Hwf |].
  destruct (calculate_atr_defined_and_nonnegative df_volume_thrust 14)
    as [atr [Ha [Hl Hi]]]; [lia | exact Hwf |].
  exists atr. split; [exact Ha |]. split; [exact Hl |].
  destruct (Hi 50%nat) as [_ Hf]; [vm_compute; lia |].
  destruct Hf as [E _]; [lia |].
  rewrite E. vm_compute. reflexivity.
Defined.

Section Vwap.

Variables lo hi : Q.

Let typical (c : Candle) : float :=
  ((Fin (high c) + Fin (low c) + Fin (close c)) / Fin 3)%F.

Let in_range (v : float) : Prop :=
  exists q : Q, v = Fin q /\ lo <= q <= hi.

Let fits (c : Candle) : Prop :=
  well_formed c /\ 0 <= volume c /\ lo <= low c /\ high c <= hi.

Lemma typical_fin (c : Candle) :
  typical c = Fin ((high c + low c + close c) / 3).
Proof. reflexivity. Qed.

Lemma typical_range (c : Candle) :
  fits c -> lo <= (high c + low c + close c) / 3 <= hi.
Proof.
  intros [[H1 [H2 [H3 H4]]] [_ [Hl Hh]]]. split.
  - apply Qle_shift_div_l; lra.
  - apply Qle_shift_div_r; lra.
Qed.

Lemma ratio_in_range (n v : Q) :
  0 < v -> lo * v <= n <= hi * v -> in_range (Fin n / Fin v)%F.
Proof.
  intros Hv [Hl Hh]. cbn [div]. rewrite (Qcompare_Gt_0 v Hv).
  eexists. split; [reflexivity |]. split.
  - apply Qle_shift_div_l; [exact Hv | lra].
  - apply Qle_shift_div_r; [exact Hv | lra].
Qed.

Lemma ratio_nan (n v : Q) :
  v == 0 -> lo * v <= n <= hi * v -> (Fin n / Fin v)%F = NaN.
Proof.
  intros Hv [Hl Hh]. cbn [div]. rewrite (Qcompare_Eq_0 v Hv).
  unfold signed_inf. rewrite Qcompare_Eq_0; [reflexivity |].
  rewrite Hv in Hl, Hh. lra.
Qed.

Lemma vwap_tail (t : DataFrame) (n v : Q) :
  0 <= v -> lo * v <= n <= hi * v ->
  Forall fits t ->
  Forall (fun x => x = NaN \/ in_range x)
    (zip_with div
       (cumsum_from (Fin n) (zip_with Num.mul (map typical t) (lift (col volume t))))
       (cumsum_from (Fin v) (lift (col volume t))))
  /\ (0 < v ->
      Forall in_range
        (zip_with div
           (cumsum_from (Fin n)
              (zip_with Num.mul (map typical t) (lift (col volume t))))
           (cumsum_from (Fin v) (lift (col volume t))))).
Proof.
  intros Hv Hn Ht. revert n v Hv Hn.
  induction Ht as [| c u Hc Hu IH]; intros n v Hv Hn.
  - split; [constructor | intros _; constructor].
  - change (lift (col volume (c :: u)))
      with (Fin (volume c) :: lift (col volume u)).
    cbn [map zip_with cumsum_from]. rewrite typical_fin.
    cbn [Num.mul Num.add].
    pose proof (typical_range c Hc) as Htp.
    destruct Hc as [_ [Hvc _]].
    set (tp := (high c + low c + close c) / 3) in *.
    assert (Hv' : 0 <= v + volume c) by lra.
    assert (Hn' : lo * (v + volume c) <= n + tp * volume c
                  <= hi * (v + volume c)) by nra.
    destruct (IH _ _ Hv' Hn') as [IH1 IH2].
    split.
    + constructor; [| exact IH1].
      destruct (Qlt_le_dec 0 (v + volume c)) as [Hp | Hz].
      * right. apply ratio_in_range; assumption.
      * left. apply ratio_nan; [lra | exact Hn'].
    + intro Hpos. assert (Hp : 0 < v + volume c) by lra.
      constructor; [apply ratio_in_range; assumption |].
      apply IH2. exact Hp.
Qed.

Lemma vwap_range (df : DataFrame) :
  Forall fits df ->
  Forall (fun x => x = NaN \/ in_range x) (calculate_vwap df)
  /\ (forall (c : Candle) (t : DataFrame),
        df = c :: t -> 0 < volume c ->
        Forall in_range (calculate_vwap df)).
Proof.
  intro H. unfold calculate_vwap. fold typical.
  destruct H as [| c u Hc Hu].
  - split; [constructor | intros c t E; discriminate].
  - change (lift (col volume (c :: u)))
      with (Fin (volume c) :: lift (col volume u)).
    cbn [map zip_with cumsum]. rewrite typical_fin. cbn [Num.mul].
    pose proof (typical_range c Hc) as Htp.
    pose proof Hc as [_ [Hvc _]].
    set (tp := (high c + low c + close c) / 3) in *.
    assert (Hn : lo * volume c <= tp * volume c <= hi * volume c) by nra.
    destruct (vwap_tail u _ _ Hvc Hn Hu) as [T1 T2].
    split.
    + constructor; [| exact T1].
      destruct (Qlt_le_dec 0 (volume c)) as [Hp | Hz].
      * right. apply ratio_in_range; assumption.
      * left. apply ratio_nan; [lra | exact Hn].
    + intros c' t E Hpos. injection E as <- <-.
      constructor; [apply ratio_in_range; assumption | apply T2; exact Hpos].
Qed.

End Vwap.

Lemma calculate_vwap_length (df : DataFrame) :
  length (calculate_vwap df) = length df.
Proof.
  unfold calculate_vwap.
  assert (Hc : forall s : Series, length (cumsum s) = length s).
  { intros [| x t]; [reflexivity |]. simpl. f_equal.
    generalize x. induction t as [| y u IH]; intros a; simpl;
      [reflexivity | rewrite IH; reflexivity]. }
  rewrite zip_with_length, !Hc, zip_with_length.
  unfold lift, col. rewrite !length_map. lia.
Qed.

(** X4.  In exact arithmetic, on well formed candles with non-negative
    volumes whose lows and highs lie between [lo] and [hi], every VWAP
    value is not-a-number or lies between [lo] and [hi]; when the first
    candle has a positive volume, none is not-a-number.  (The binary64
    average of the program can leave the range by a rounding error:
    (0.1 + 0.1 + 0.1) / 3 exceeds 0.1 there.) *)
Theorem calculate_vwap_within_range :
  forall (df : DataFrame) (lo hi : Q),
    Forall (fun c => well_formed c /\ 0 <= volume c
                     /\ lo <= low c /\ high c <= hi) df ->
    length (calculate_vwap df) = length df
    /\ Forall (fun v => v = NaN \/ exists q : Q, v = Fin q /\ lo <= q <= hi)
         (calculate_vwap df)
    /\ (forall (c : Candle) (t : DataFrame),
          df = c :: t -> 0 < volume c ->
          Forall (fun v => exists q : Q, v = Fin q /\ lo <= q <= hi)
            (calculate_vwap df)).
Proof.
  intros df lo hi H. split; [apply calculate_vwap_length |].
  apply (vwap_range lo hi df). exact H.
Qed.

Lemma Forall_of_forallb {A : Type} (P : A -> Prop) (b : A -> bool)
    (l : list A) :
  (forall x : A, b x = true -> P x) -> forallb b l = true -> Forall P l.
Proof.
  intros Hb H. apply Forall_forall. intros x Hx.
  apply Hb. rewrite forallb_forall in H. apply H. exact Hx.
Qed.

Lemma calculate_vwap_within_range_witness :
  Forall (fun c => well_formed c /\ 0 <= volume c
                   /\ 100 <= low c /\ high c <= 105) df_volume_thrust
  /\ Forall (fun v => exists q : Q, v = Fin q /\ 100 <= q <= 105)
       (calculate_vwap df_volume_thrust).
Proof.
  assert (H : Forall (fun c => well_formed c /\ 0 <= volume c
                               /\ 100 <= low c /\ high c <= 105)
                df_volume_thrust).
  { apply (Forall_of_forallb _
             (fun c => well_formedb c && Qleb 0 (volume c)
                       && Qleb 100 (low c) && Qleb (high c) 105)).
    - intros c Hc.
      repeat (apply andb_true_iff in Hc; destruct Hc as [Hc ?]).
      repeat split; try (apply Qleb_true; assumption).
      all: apply well_formedb_ok in Hc; apply Hc.
    - vm_compute. reflexivity. }
  split; [exact H |].
  destruct (calculate_vwap_within_range df_volume_thrust 100 105 H)
    as [_ [_ Hp]].
  apply (Hp (mkCandle 0 100 100 100 100 10) (List.tl df_volume_thrust)).
  - vm_compute. reflexivity.
  - reflexivity.
Defined.

Lemma obv_tail (t : DataFrame) (pc a : Q) :
  cumsum_from (Fin a)
    (fillna (Fin 0)
       (zip_with Num.mul
          (map sign (lift (changes_from (fun d => d) pc (col close t))))
          (lift (col volume t))))
  = lift (obv_from pc a t).
Proof.
  unfold fillna, lift.
  revert pc a. induction t as [| c u IH]; intros pc a; [reflexivity |].
  change (col close (c :: u)) with (close c :: col close u).
  change (col volume (c :: u)) with (volume c :: col volume u).
  cbn [changes_from map zip_with cumsum_from obv_from].
  assert (E : (if is_nan (sign (Fin (close c + - pc)) * Fin (volume c))%F
               then Fin 0
               else (sign (Fin (close c + - pc)) * Fin (volume c))%F)
              = Fin (sgn (close c + - pc) * volume c)).
  { unfold sign, sgn. destruct (close c + - pc ?= 0); reflexivity. }
  rewrite E. cbn [Num.add]. rewrite IH. reflexivity.
Qed.

Lemma calculate_obv_values (df : DataFrame) :
  calculate_obv df = lift (obv_values df).
Proof.
  unfold calculate_obv. rewrite diff_lift.
  destruct df as [| c t]; [reflexivity |].
  change (col close (c :: t)) with (close c :: col close t).
  change (lift (col volume (c :: t)))
    with (Fin (volume c) :: lift (col volume t)).
  pose proof (obv_tail t (close c) 0) as H.
  unfold fillna in *. cbn [map zip_with cumsum obv_values].
  cbn [sign Num.mul is_nan]. rewrite H. reflexivity.
Qed.

Lemma obv_from_length (pc a : Q) (df : DataFrame) :
  length (obv_from pc a df) = length df.
Proof.
  revert pc a. induction df as [| c t IH]; intros pc a; simpl;
    [reflexivity | rewrite IH; reflexivity].
Qed.

Lemma obv_from_step (t : DataFrame) (pc a : Q) (i : nat) (c0 c1 : Candle) :
  nth_error t i = Some c0 ->
  nth_error t (S i) = Some c1 ->
  nth (S i) (obv_from pc a t) 0
  = nth i (obv_from pc a t) 0 + sgn (close c1 + - close c0) * volume c1.
Proof.
  revert pc a i. induction t as [| c u IH]; intros pc a i H0 H1;
    [destruct i; discriminate |].
  destruct i as [| i].
  - simpl in H0. injection H0 as ->.
    destruct u as [| c' u']; [discriminate |].
    simpl in H1. injection H1 as ->. reflexivity.
  - simpl in H0, H1. cbn [obv_from nth]. apply IH; assumption.
Qed.

Lemma sgn_cases (d : Q) :
  (0 < d -> sgn d = 1) /\ (d < 0 -> sgn d = -1) /\ (d == 0 -> sgn d = 0).
Proof.
  unfold sgn. repeat split; intro H.
  - rewrite (Qcompare_Gt_0 d H). reflexivity.
  - rewrite (Qcompare_Lt_0 d H). reflexivity.
  - rewrite (Qcompare_Eq_0 d H). reflexivity.
Qed.

(** X5.  On-balance volume has one finite value per candle; it starts at
    0 and moves from one row to the next by the volume of the later
    candle: up when its close is above the previous close, down when
    below, not at all when equal. *)
Theorem calculate_obv_steps :
  forall df : DataFrame,
    length (calculate_obv df) = length df
    /\ (df <> [] -> nth 0 (calculate_obv df) NaN = Fin 0)
    /\ forall (i : nat) (c0 c1 : Candle),
         nth_error df i = Some c0 ->
         nth_error df (S i) = Some c1 ->
         exists a b : Q,
           nth i (calculate_obv df) NaN = Fin a
           /\ nth (S i) (calculate_obv df) NaN = Fin b
           /\ (close c0 < close c1 -> b == a + volume c1)
           /\ (close c1 < close c0 -> b == a - volume c1)
           /\ (close c1 == close c0 -> b == a).
Proof.
  intro df. rewrite calculate_obv_values.
  assert (Hlen : length (obv_values df) = length df).
  { destruct df as [| c t]; [reflexivity |]. simpl.
    rewrite obv_from_length. reflexivity. }
  split; [unfold lift; rewrite length_map; exact Hlen |].
  split; [destruct df as [| c t]; [contradiction | reflexivity] |].
  intros i c0 c1 H0 H1.
  assert (Hi : (S i < length df)%nat)
    by (apply nth_error_Some; rewrite H1; discriminate).
  exists (nth i (obv_values df) 0), (nth (S i) (obv_values df) 0).
  assert (Hn : forall j, (j < length df)%nat ->
                 nth j (lift (obv_values df)) NaN = Fin (nth j (obv_values df) 0)).
  { intros j Hj. unfold lift.
    rewrite (nth_indep _ NaN (Fin 0)) by (rewrite length_map; lia).
    apply (map_nth Fin). }
  split; [apply Hn; lia |]. split; [apply Hn; lia |].
  assert (Hstep : nth (S i) (obv_values df) 0
                  = nth i (obv_values df) 0
                    + sgn (close c1 + - close c0) * volume c1).
  { destruct df as [| c t]; [destruct i; discriminate |].
    destruct i as [| i].
    - simpl in H0. injection H0 as ->.
      destruct t as [| c' t']; [discriminate |].
      simpl in H1. injection H1 as ->. reflexivity.
    - simpl in H0, H1. cbn [obv_values nth].
      apply obv_from_step; assumption. }
  rewrite Hstep.
  destruct (sgn_cases (close c1 + - close c0)) as [Hup [Hdn Heq]].
  repeat split; intro H.
  - rewrite Hup by lra. ring.
  - rewrite Hdn by lra. ring.
  - rewrite Heq by lra. ring.
Qed.

Lemma calculate_obv_steps_witness :
  nth_error df_bullish_divergence 47 <> None
  /\ exists a b : Q,
       nth 47 (calculate_obv df_bullish_divergence) NaN = Fin a
       /\ nth 48 (calculate_obv df_bullish_divergence) NaN = Fin b
       /\ b == a + 100.
Proof.
  split; [vm_compute; discriminate |].
  destruct (calculate_obv_steps df_bullish_divergence) as [_ [_ H]].
  destruct (H 47%nat
              (mkCandle 14100000 50 50 45 (99 # 2) 1)
              (mkCandle 14400000 (99 # 2) (101 # 2) (99 # 2) (101 # 2) 100)
              eq_refl eq_refl) as [a [b [Ha [Hb [Hup _]]]]].
  exists a, b. split; [exact Ha |]. split; [exact Hb |].
  apply Hup. reflexivity.
Defined.

Lemma ewm_values_bounded (span : Z) (lo hi : Q) (s : list Q) :
  (1 <= span)%Z ->
  Forall (fun x => lo <= x <= hi) s ->
  Forall (fun y => lo <= y <= hi) (ewm_values (2 / (inject_Z span + 1)) s).
Proof.
  intros Hp Hs. destruct (ewm_alpha_range span Hp) as [Ha0 Ha1].
  destruct s as [| x t]; simpl; [constructor |].
  inversion Hs as [| ? ? Hx Ht]; subst.
  constructor; [exact Hx |]. apply ewm_from_bounded; assumption.
Qed.

Lemma ewm_values_length (alpha : Q) (s : list Q) :
  length (ewm_values alpha s) = length s.
Proof.
  destruct s as [| x t]; simpl; [reflexivity |].
  rewrite ewm_from_length. reflexivity.
Qed.

Lemma zip_with_Forall {A B C : Type} (f : A -> B -> C)
    (P : A -> Prop) (R : B -> Prop) (S : C -> Prop)
    (l1 : list A) (l2 : list B) :
  (forall a b, P a -> R b -> S (f a b)) ->
  Forall P l1 -> Forall R l2 -> Forall S (zip_with f l1 l2).
Proof.
  intros Hf H1. revert l2.
  induction H1 as [| a l1' Ha _ IH]; intros l2 H2; [constructor |].
  destruct H2 as [| b l2' Hb H2']; simpl; constructor.
  - apply Hf; assumption.
  - apply IH. exact H2'.
Qed.

(** X6.  For spans of at least 1 and a series lying between [lo] and
    [hi], MACD returns three series of the length of the data: the MACD
    line and the signal line stay within the width [hi - lo] of the data
    around 0, and the histogram within twice that width.  In particular
    all three are 0 on a constant series. *)
Theorem calculate_macd_within_width :
  forall (data : list Q) (fast slow signal : Z) (lo hi : Q),
    (1 <= fast)%Z -> (1 <= slow)%Z -> (1 <= signal)%Z ->
    Forall (fun x => lo <= x <= hi) data ->
    exists macd signal_line histogram : list Q,
      calculate_macd data fast slow signal
      = Ok (macd, signal_line, histogram)
      /\ length macd = length data
      /\ length signal_line = length data
      /\ length histogram = length data
      /\ Forall (fun m => lo - hi <= m <= hi - lo) macd
      /\ Forall (fun s => lo - hi <= s <= hi - lo) signal_line
      /\ Forall (fun h => 2 * (lo - hi) <= h <= 2 * (hi - lo)) histogram.
Proof.
  intros data fast slow signal lo hi Hf Hs Hg Hd.
  unfold calculate_macd.
  rewrite !ewm_mean_eq by assumption. cbn [bind].
  rewrite ewm_mean_eq by assumption. cbn [bind].
  set (ef := ewm_values (2 / (inject_Z fast + 1)) data).
  set (es := ewm_values (2 / (inject_Z slow + 1)) data).
  set (macd := zip_with Qminus ef es).
  set (sl := ewm_values (2 / (inject_Z signal + 1)) macd).
  assert (Lm : length macd = length data).
  { unfold macd. rewrite zip_with_length. unfold ef, es.
    rewrite !ewm_values_length. apply Nat.min_id. }
  assert (Ls : length sl = length data).
  { unfold sl. rewrite ewm_values_length. exact Lm. }
  assert (Bm : Forall (fun m => lo - hi <= m <= hi - lo) macd).
  { unfold macd.
    apply (zip_with_Forall Qminus (fun x => lo <= x <= hi)
             (fun x => lo <= x <= hi)).
    - intros a b Ha Hb. lra.
    - apply ewm_values_bounded; assumption.
    - apply ewm_values_bounded; assumption. }
  assert (Bs : Forall (fun s => lo - hi <= s <= hi - lo) sl).
  { unfold sl. apply ewm_values_bounded; assumption. }
  exists macd, sl, (zip_with Qminus macd sl).
  split; [reflexivity |]. split; [exact Lm |]. split; [exact Ls |].
  split; [rewrite zip_with_length, Lm, Ls; apply Nat.min_id |].
  split; [exact Bm |]. split; [exact Bs |].
  apply (zip_with_Forall Qminus (fun m => lo - hi <= m <= hi - lo)
           (fun s => lo - hi <= s <= hi - lo));
    [intros a b Ha Hb; lra | exact Bm | exact Bs].
Qed.

Lemma calculate_macd_within_width_witness :
  Forall (fun x => 100 <= x <= 114) rising_prices
  /\ exists macd signal_line histogram : list Q,
       calculate_macd rising_prices 12 26 9
       = Ok (macd, signal_line, histogram)
       /\ Forall (fun m => 100 - 114 <= m <= 114 - 100) macd.
Proof.
  assert (Hd : Forall (fun x => 100 <= x <= 114) rising_prices).
  { unfold rising_prices. repeat constructor; unfold Qle; simpl; lia. }
  split; [exact Hd |].
  destruct (calculate_macd_within_width rising_prices 12 26 9 100 114)
    as [m [s [h [E [_ [_ [_ [B _]]]]]]]]; [lia | lia | lia | exact Hd |].
  exists m, s, h. split; [exact E | exact B].
Defined.

(** ** What the detectors return *)

Lemma atr_last (df : DataFrame) :
  (1 <= length df)%nat ->
  exists (atr_s : Series) (a : float),
    calculate_atr df 14 = Ok atr_s
    /\ iloc atr_s (-1) = Ok a
    /\ ((14 <= length df)%nat -> exists q : Q, a = Fin q).
Proof.
  intro H. rewrite calculate_atr_eq by lia. change (Z.to_nat 14) with 14%nat.
  set (atr_s := rolling_nat 14 mean (lift (true_ranges df))).
  assert (L : length atr_s = length df).
  { unfold atr_s. rewrite rolling_nat_length. unfold lift.
    rewrite length_map. apply true_ranges_length. }
  exists atr_s, (nth (length df - 1) atr_s NaN).
  split; [reflexivity |]. split.
  - change (-1)%Z with (- Z.of_nat 1)%Z.
    rewrite (iloc_from_end atr_s 1 NaN) by lia. rewrite L. reflexivity.
  - intro Hn. exists (window_mean 14 (length df - 1) (true_ranges df)).
    unfold atr_s. apply rolling_mean_lift; try lia.
    rewrite true_ranges_length. lia.
Qed.

(** The signal of a branch of a detector, by its fields. *)
Lemma ema_crossover_shape (df : DataFrame) :
  (2 <= length df)%nat ->
  ema_crossover_rsi_strategy df = Ok None
  \/ (20 <= length df)%nat
     /\ exists a : Q,
          ema_crossover_rsi_strategy df
          = Ok (Some {| type := LONG; entry := latest_close df;
                        stop_loss := (latest_close df - Fin 2 * Fin a)%F;
                        take_profit := (latest_close df + Fin 4 * Fin a)%F;
                        confidence := 75;
                        strategy := "EMA Crossover with RSI" |})
          \/ ema_crossover_rsi_strategy df
             = Ok (Some {| type := SHORT; entry := latest_close df;
                           stop_loss := (latest_close df + Fin 2 * Fin a)%F;
                           take_profit := (latest_close df - Fin 4 * Fin a)%F;
                           confidence := 75;
                           strategy := "EMA Crossover with RSI" |}).
Proof.
  intro H2.
  destruct (Nat.lt_ge_cases (length df) 20) as [Hs | Hn];
    [left; apply ema_crossover_short; lia |].
  destruct (atr_last df) as [atr_s [a [Ha [Hi Hq]]]]; [lia |].
  destruct Hq as [q ->]; [lia |].
  unfold ema_crossover_rsi_strategy, calculate_ema, latest_close.
  rewrite !ewm_mean_eq by lia. cbn [bind].
  rewrite calculate_rsi_ok by lia. cbn [bind].
  rewrite rolling_ok by lia. cbn [bind].
  change (-1)%Z with (- Z.of_nat 1)%Z. change (-2)%Z with (- Z.of_nat 2)%Z.
  rewrite !pos_from_end by lia. cbn [bind].
  change (- Z.of_nat 1)%Z with (-1)%Z.
  rewrite Ha. cbn [bind]. rewrite Hi. cbn [bind].
  match goal with |- (if ?c then _ else _) = _ \/ _ => destruct c end.
  - right. split; [exact Hn |]. exists q. left. reflexivity.
  - match goal with |- (if ?c then _ else _) = _ \/ _ => destruct c end.
    + right. split; [exact Hn |]. exists q. right. reflexivity.
    + left. reflexivity.
Qed.

Lemma volume_profile_shape (df : DataFrame) :
  (1 <= length df)%nat ->
  volume_profile_order_flow_strategy df = Ok None
  \/ (20 <= length df)%nat
     /\ exists a : Q,
          volume_profile_order_flow_strategy df
          = Ok (Some {| type := LONG; entry := latest_close df;
                        stop_loss :=
                          (get (calculate_vwap df) (length df - 1) - Fin a)%F;
                        take_profit := (latest_close df + Fin 3 * Fin a)%F;
                        confidence := 80;
                        strategy := "Volume Profile + Order Flow" |})
          \/ volume_profile_order_flow_strategy df
             = Ok (Some {| type := SHORT; entry := latest_close df;
                           stop_loss :=
                             (get (calculate_vwap df) (length df - 1) + Fin a)%F;
                           take_profit := (latest_close df - Fin 3 * Fin a)%F;
                           confidence := 80;
                           strategy := "Volume Profile + Order Flow" |}).
Proof.
  intro H1.
  destruct (Nat.lt_ge_cases (length df) 20) as [Hs | Hn];
    [left; apply volume_profile_short; lia |].
  destruct (atr_last df) as [atr_s [a [Ha [Hi Hq]]]]; [lia |].
  destruct Hq as [q ->]; [lia |].
  unfold volume_profile_order_flow_strategy, calculate_ema, latest_close.
  rewrite !ewm_mean_eq by lia. cbn [bind].
  rewrite rolling_ok by lia. cbn [bind].
  change (-1)%Z with (- Z.of_nat 1)%Z.
  rewrite !pos_from_end by lia. cbn [bind].
  change (- Z.of_nat 1)%Z with (-1)%Z.
  rewrite Ha. cbn [bind]. rewrite Hi. cbn [bind].
  match goal with |- (if ?c then _ else _) = _ \/ _ => destruct c end.
  - right. split; [exact Hn |]. exists q. left. reflexivity.
  - match goal with |- (if ?c then _ else _) = _ \/ _ => destruct c end.
    + right. split; [exact Hn |]. exists q. right. reflexivity.
    + left. reflexivity.
Qed.

(** The short branch of the Market Structure Break detector, reached when
    the long branch returned nothing. *)
Ltac msb_short_branch lows highs c0 q Hn :=
  let El := fresh "El" in
  let E0 := fresh "E0" in
  destruct (2 <=? length lows)%nat eqn:El; [| left; reflexivity];
  apply Nat.leb_le in El;
  rewrite (iloc_from_end lows 2 c0) by lia; cbn [bind];
  match goal with |- (if ?b then _ else _) = _ \/ _ => destruct b end;
    [| left; reflexivity];
  right; split; [exact Hn |]; exists q;
  destruct (0 <? length highs)%nat eqn:E0;
    [ apply Nat.ltb_lt in E0;
      change (-1)%Z with (- Z.of_nat 1)%Z;
      rewrite (iloc_from_end highs 1 c0) by lia; cbn [bind];
      eexists; right; reflexivity
    | cbn [bind]; eexists; right; reflexivity ].

Lemma market_structure_shape (df : DataFrame) :
  (1 <= length df)%nat ->
  market_structure_break_strategy df = Ok None
  \/ (14 <= length df)%nat
     /\ exists (a : Q) (stop : float),
          market_structure_break_strategy df
          = Ok (Some {| type := LONG; entry := latest_close df;
                        stop_loss := stop;
                        take_profit := (latest_close df + Fin 3 * Fin a)%F;
                        confidence := 72;
                        strategy := "Market Structure Break" |})
          \/ market_structure_break_strategy df
             = Ok (Some {| type := SHORT; entry := latest_close df;
                           stop_loss := stop;
                           take_profit := (latest_close df - Fin 3 * Fin a)%F;
                           confidence := 72;
                           strategy := "Market Structure Break" |}).
Proof.
  intro H1.
  destruct (Nat.lt_ge_cases (length df) 14) as [Hs | Hn];
    [left; apply market_structure_short; lia |].
  destruct (atr_last df) as [atr_s [a [Ha [Hi Hq]]]]; [lia |].
  destruct Hq as [q ->]; [lia |].
  destruct df as [| c0 t] eqn:Edf; [simpl in H1; lia |].
  rewrite <- Edf in *. clear Edf t.
  unfold market_structure_break_strategy, latest_close.
  rewrite calculate_rsi_ok by lia. cbn [bind].
  destruct (calculate_macd_ok (col close df) 12 26 9) as [m Hm]; try lia.
  rewrite Hm. cbn [bind].
  change (-1)%Z with (- Z.of_nat 1)%Z. change (-2)%Z with (- Z.of_nat 2)%Z.
  rewrite !pos_from_end by lia. cbn [bind].
  match goal with |- context [tail 3 (select ?mask df)] =>
    set (highs := tail 3 (select mask df)) end.
  match goal with |- context [tail 3 (select ?mask df)] =>
    set (lows := tail 3 (select mask df)) end.
  change (- Z.of_nat 1)%Z with (-1)%Z.
  rewrite Ha. cbn [bind]. rewrite Hi. cbn [bind].
  destruct (2 <=? length highs)%nat eqn:Eh.
  - apply Nat.leb_le in Eh.
    rewrite (iloc_from_end highs 2 c0) by lia. cbn [bind].
    match goal with |- context [if ?b then _ else Ok None] =>
      match b with andb _ _ => destruct b end end.
    + right. split; [exact Hn |]. exists q.
      destruct (0 <? length lows)%nat eqn:El.
      * apply Nat.ltb_lt in El.
        change (-1)%Z with (- Z.of_nat 1)%Z.
        rewrite (iloc_from_end lows 1 c0) by lia. cbn [bind].
        eexists. left. reflexivity.
      * cbn [bind]. eexists. left. reflexivity.
    + cbn [bind]. msb_short_branch lows highs c0 q Hn.
  - cbn [bind]. msb_short_branch lows highs c0 q Hn.
Qed.

(** X7.  A detector raises only on a frame that lacks a row it indexes
    without a guard: the EMA Crossover detector on fewer than 2 rows,
    the Volume Profile, Market Structure Break and Liquidity Sweep
    detectors on the empty frame, and then they raise [IndexError].  On
    a frame with at least one row and with those rows, of whatever
    candles, each of the five detectors returns a signal or none.  (The
    Delta Divergence detector on the empty frame is left out.) *)
Theorem detectors_raise_only_without_rows :
  forall (d : Detector) (df : DataFrame),
    ((length df < rows_indexed d)%nat -> detect d df = Raise IndexError)
    /\ (df <> [] ->
        (rows_indexed d <= length df)%nat ->
        exists r : option Signal, detect d df = Ok r).
Proof.
  intros d df. split; [intros H | intros _ H].
  - destruct d; simpl in *.
    + apply ema_crossover_raises. exact H.
    + destruct df; [apply volume_profile_raises | simpl in H; lia].
    + destruct df; [apply market_structure_raises | simpl in H; lia].
    + rewrite liquidity_sweep_fvg_never_emits.
      destruct df; [reflexivity | simpl in H; lia].
    + lia.
  - destruct d; simpl in *.
    + destruct (ema_crossover_shape df H) as [E | [_ [a [E | E]]]];
        rewrite E; eexists; reflexivity.
    + destruct (volume_profile_shape df H) as [E | [_ [a [E | E]]]];
        rewrite E; eexists; reflexivity.
    + destruct (market_structure_shape df H) as [E | [_ [a [st [E | E]]]]];
        rewrite E; eexists; reflexivity.
    + rewrite liquidity_sweep_fvg_never_emits.
      destruct df; [simpl in H; lia | eexists; reflexivity].
    + rewrite delta_divergence_never_emits. eexists. reflexivity.
Qed.



(** X9.  Every signal of the EMA Crossover detector has finite prices
    with the target twice as far from the entry as the stop, on the
    other side: [take_profit - entry = 2 * (entry - stop_loss)]. *)
Theorem ema_crossover_reward_twice_risk :
  forall (df : DataFrame) (s : Signal),
    ema_crossover_rsi_strategy df = Ok (Some s) ->
    exists e sl tp : Q,
      entry s = Fin e /\ stop_loss s = Fin sl /\ take_profit s = Fin tp
      /\ tp - e == 2 * (e - sl).
Proof.
  intros df s H.
  destruct (Nat.lt_ge_cases (length df) 2) as [Hlt | Hge];
    [rewrite ema_crossover_raises in H by exact Hlt; discriminate |].
  destruct (ema_crossover_shape df Hge) as [E | [_ [a [E | E]]]];
    rewrite E in H; [discriminate | |]; injection H as <-;
    unfold latest_close; cbn [entry stop_loss take_profit Num.mul Num.add
                                Num.sub neg];
    do 3 eexists; (split; [reflexivity |]); (split; [reflexivity |]);
    (split; [reflexivity |]); ring.
Qed.

Lemma ema_crossover_reward_twice_risk_witness :
  exists s : Signal,
    ema_crossover_rsi_strategy df_ema_cross = Ok (Some s)
    /\ exists e sl tp : Q,
         entry s = Fin e /\ stop_loss s = Fin sl /\ take_profit s = Fin tp
         /\ tp - e == 2 * (e - sl).
Proof.
  eexists. split; [vm_compute; reflexivity |].
  apply (ema_crossover_reward_twice_risk df_ema_cross).
  vm_compute. reflexivity.
Defined.

Lemma detectors_raise_only_without_rows_witness :
  (length df_single < rows_indexed EmaCrossoverRsi)%nat
  /\ detect EmaCrossoverRsi df_single = Raise IndexError
  /\ df_single <> []
  /\ (rows_indexed DeltaDivergence <= length df_single)%nat
  /\ exists r : option Signal, detect DeltaDivergence df_single = Ok r.
Proof.
  split; [vm_compute; lia |].
  split; [apply (proj1 (detectors_raise_only_without_rows EmaCrossoverRsi
                          df_single)); vm_compute; lia |].
  split; [discriminate |].
  split; [vm_compute; lia |].
  apply (proj2 (detectors_raise_only_without_rows DeltaDivergence
                  df_single)); [discriminate | vm_compute; lia].
Defined.

(** ** The aggregator *)

Lemma sort_three (e v m : option Signal) :
  (forall s, e = Some s -> confidence s = 75%Z) ->
  (forall s, v = Some s -> confidence s = 80%Z) ->
  (forall s, m = Some s -> confidence s = 72%Z) ->
  TradingBot.sort_by_confidence (emitted e ++ emitted v ++ emitted m)
  = emitted v ++ emitted e ++ emitted m.
Proof.
  intros He Hv Hm. unfold TradingBot.sort_by_confidence.
  destruct e as [[? ? ? ? ce ?] |];
    [specialize (He _ eq_refl); cbn [confidence] in He; subst ce | clear He];
    (destruct v as [[? ? ? ? cv ?] |];
     [specialize (Hv _ eq_refl); cbn [confidence] in Hv; subst cv | clear Hv]);
    (destruct m as [[? ? ? ? cm ?] |];
     [specialize (Hm _ eq_refl); cbn [confidence] in Hm; subst cm | clear Hm]);
    reflexivity.
Qed.

Lemma collect_three (df : DataFrame) (e v m : option Signal) :
  df <> [] ->
  ema_crossover_rsi_strategy df = Ok e ->
  volume_profile_order_flow_strategy df = Ok v ->
  market_structure_break_strategy df = Ok m ->
  TradingBot.collect TradingBot.strategy_methods df []
  = Ok (emitted e ++ emitted v ++ emitted m).
Proof.
  intros Hdf He Hv Hm. unfold TradingBot.strategy_methods.
  cbn [TradingBot.collect]. rewrite He. cbn [bind]. rewrite Hv. cbn [bind].
  rewrite Hm. cbn [bind]. rewrite liquidity_sweep_fvg_never_emits.
  destruct df as [| c t]; [contradiction |]. cbn [bind].
  rewrite delta_divergence_never_emits. cbn [bind].
  destruct e, v, m; reflexivity.
Qed.

(** On a frame of at least two candles the aggregator returns what the
    first three detectors emit, by descending confidence. *)
Lemma analyze_market_signals (self : TradingBot.t) (df : DataFrame) :
  (2 <= length df)%nat ->
  exists e v m : option Signal,
    ema_crossover_rsi_strategy df = Ok e
    /\ volume_profile_order_flow_strategy df = Ok v
    /\ market_structure_break_strategy df = Ok m
    /\ TradingBot.analyze_market self df
       = Ok (emitted v ++ emitted e ++ emitted m).
Proof.
  intro H.
  assert (exists e, ema_crossover_rsi_strategy df = Ok e
                    /\ forall s, e = Some s -> confidence s = 75%Z)
    as [e [He Ce]].
  { destruct (ema_crossover_shape df H) as [E | [_ [a [E | E]]]];
      rewrite E; eexists; (split; [reflexivity |]); intros s Hs;
      [discriminate | |]; injection Hs as <-; reflexivity. }
  assert (exists v, volume_profile_order_flow_strategy df = Ok v
                    /\ forall s, v = Some s -> confidence s = 80%Z)
    as [v [Hv Cv]].
  { destruct (volume_profile_shape df) as [E | [_ [a [E | E]]]]; [lia | | |];
      rewrite E; eexists; (split; [reflexivity |]); intros s Hs;
      [discriminate | |]; injection Hs as <-; reflexivity. }
  assert (exists m, market_structure_break_strategy df = Ok m
                    /\ forall s, m = Some s -> confidence s = 72%Z)
    as [m [Hm Cm]].
  { destruct (market_structure_shape df) as [E | [_ [a [st [E | E]]]]];
      [lia | | |];
      rewrite E; eexists; (split; [reflexivity |]); intros s Hs;
      [discriminate | |]; injection Hs as <-; reflexivity. }
  exists e, v, m. repeat (split; [assumption |]).
  unfold TradingBot.analyze_market.
  rewrite (collect_three df e v m); try assumption.
  - cbn [bind]. rewrite sort_three by assumption. reflexivity.
  - intro E. rewrite E in H. simpl in H. lia.
Qed.

(** X10.  On a frame of at least two candles [analyze_market] raises
    nothing and returns at most three signals, in the order Volume
    Profile (80), EMA Crossover (75), Market Structure Break (72): each
    is present exactly when its detector emits it, and nothing of the
    Liquidity Sweep or Delta Divergence detectors ever is.  On a shorter
    frame it raises [IndexError]. *)
Theorem analyze_market_priority :
  forall (self : TradingBot.t) (df : DataFrame),
    ((length df < 2)%nat ->
     TradingBot.analyze_market self df = Raise IndexError)
    /\ ((2 <= length df)%nat ->
        exists e v m : option Signal,
          ema_crossover_rsi_strategy df = Ok e
          /\ volume_profile_order_flow_strategy df = Ok v
          /\ market_structure_break_strategy df = Ok m
          /\ TradingBot.analyze_market self df
             = Ok (emitted v ++ emitted e ++ emitted m)).
Proof.
  intros self df. split; intro H.
  - unfold TradingBot.analyze_market, TradingBot.strategy_methods.
    cbn [TradingBot.collect]. rewrite ema_crossover_raises by exact H.
    reflexivity.
  - apply analyze_market_signals. exact H.
Qed.

Lemma analyze_market_priority_witness :
  (2 <= length df_ema_cross)%nat
  /\ exists e v m : Signal,
       ema_crossover_rsi_strategy df_ema_cross = Ok (Some e)
       /\ volume_profile_order_flow_strategy df_ema_cross = Ok (Some v)
       /\ market_structure_break_strategy df_ema_cross = Ok (Some m)
       /\ TradingBot.analyze_market (TradingBot.init default_config)
            df_ema_cross = Ok [v; e; m].
Proof.
  split; [vm_compute; lia |].
  destruct (proj2 (analyze_market_priority (TradingBot.init default_config)
                     df_ema_cross))
    as [e [v [m [He [Hv [Hm Ha]]]]]]; [vm_compute; lia |].
  assert (Ee : exists s, ema_crossover_rsi_strategy df_ema_cross = Ok (Some s))
    by (eexists; vm_compute; reflexivity).
  assert (Ev : exists s,
             volume_profile_order_flow_strategy df_ema_cross = Ok (Some s))
    by (eexists; vm_compute; reflexivity).
  assert (Em : exists s,
             market_structure_break_strategy df_ema_cross = Ok (Some s))
    by (eexists; vm_compute; reflexivity).
  destruct Ee as [se Ee]. destruct Ev as [sv Ev]. destruct Em as [sm Em].
  rewrite Ee in He. rewrite Ev in Hv. rewrite Em in Hm.
  injection He as <-. injection Hv as <-. injection Hm as <-.
  exists se, sv, sm. repeat (split; [assumption |]). exact Ha.
Defined.

(** ** The trading loop *)

Section Loop.

Import TradingBot.

Lemma iteration_events (self : t) (ex : Exchange) (ev : Event) :
In ev (snd (iteration self ex)) ->
ev = ErrorFetchingData
\/ exists (s : Signal) (size : scalar), ev = TradeExecuted s size.
Proof.
unfold iteration, fetch_ohlcv.
destruct (ohlcv ex) as [df |]; cbn [snd app].
2: { intros [H | []]. left. symmetry. exact H. }
destruct (50 <? length df)%nat eqn:E; cbn [snd]; [| intros []].
apply Nat.ltb_lt in E.
destruct (analyze_market_signals self df) as [e [v [m [_ [_ [_ Ha]]]]]];
  [lia |].
rewrite Ha.
destruct (emitted v ++ emitted e ++ emitted m) as [| best rest];
  cbn [snd app]; [intros [] |].
destruct (Z.of_nat (length (positions self)) <? max_positions (config self))%Z;
  cbn [snd app]; [| intros []].
unfold execute_trade. cbn [wrap].
destruct (calculate_position_size_numpy_total self (entry best)
            (stop_loss best)) as [size Es].
rewrite Es. cbn [snd]. intros [H | []]. right. exists best, size.
symmetry. exact H.
Qed.

Lemma loop_events (ticks : list Tick) (self : t) (ev : Event) :
In ev (snd (loop self ticks)) ->
ev = ErrorFetchingData \/ ev = BotStopped
\/ exists (s : Signal) (size : scalar), ev = TradeExecuted s size.
Proof.
revert self. induction ticks as [| tick rest IH]; intros self; simpl;
  [intros [] |].
destruct (is_running self); [| intros []].
pose proof (iteration_events self (exchange tick) ev) as Hi.
destruct (iteration self (exchange tick)) as [self1 ev1]. cbn [snd] in Hi.
destruct (stop_called tick).
- specialize (IH (fst (stop self1))).
  unfold stop in *. cbn [fst] in IH.
  destruct (loop _ rest) as [self3 ev3]. cbn [snd] in *.
  intro H. apply in_app_or in H. destruct H as [H | [H | H]].
  + destruct (Hi H) as [E | E]; [left; exact E | right; right; exact E].
  + right. left. symmetry. exact H.
  + apply IH. exact H.
- specialize (IH self1).
  destruct (loop self1 rest) as [self3 ev3]. cbn [snd app] in *.
  intro H. apply in_app_or in H. destruct H as [H | H].
  + destruct (Hi H) as [E | E]; [left; exact E | right; right; exact E].
  + apply IH. exact H.
Qed.

(** What an iteration logs depends on the bot only through its balance,
  its configuration and its positions. *)
Lemma iteration_log_reads (self self' : t) (ex : Exchange) :
balance self' = balance self ->
config self' = config self ->
positions self' = positions self ->
snd (iteration self' ex) = snd (iteration self ex).
Proof.
intros Hb Hc Hp. unfold iteration, fetch_ohlcv.
destruct (ohlcv ex) as [df |]; [| reflexivity].
destruct (50 <? length df)%nat; [| reflexivity].
change (analyze_market self' df) with (analyze_market self df).
destruct (analyze_market self df) as [[| best rest] | e]; try reflexivity.
rewrite Hp, Hc.
destruct (Z.of_nat (length (positions self)) <? max_positions (config self))%Z;
  [| reflexivity].
unfold execute_trade.
rewrite (calculate_position_size_reads self self' _ _ Hb Hc).
reflexivity.
Qed.

Lemma loop_positions (ticks : list Tick) (self : t) :
positions (fst (loop self ticks)) = positions self.
Proof.
revert self. induction ticks as [| tick rest IH]; intros self; simpl;
  [reflexivity |].
destruct (is_running self); [| reflexivity].
pose proof (iteration_state self (exchange tick)) as Hi.
destruct (iteration self (exchange tick)) as [self1 ev1].
simpl in Hi. subst self1.
destruct (stop_called tick).
- specialize (IH (fst (stop self))). unfold stop in *. cbn [fst] in *.
  destruct (loop _ rest) as [self3 ev3]. exact IH.
- specialize (IH self). destruct (loop self rest) as [self3 ev3]. exact IH.
Qed.

Lemma loop_repeat (tick : Tick) (n : nat) (self : t) :
is_running self = true ->
stop_called tick = false ->
snd (loop self (repeat tick n))
= concat (repeat (snd (iteration self (exchange tick))) n).
Proof.
intros Hr Hs. induction n as [| n IH]; [reflexivity |].
cbn [repeat loop concat]. rewrite Hr, Hs.
pose proof (iteration_state self (exchange tick)) as Hi.
destruct (iteration self (exchange tick)) as [self1 ev1].
cbn [fst snd] in *. subst self1.
destruct (loop self (repeat tick n)) as [self3 ev3]. cbn [snd] in *.
rewrite IH. reflexivity.
Qed.

Lemma loop_until_stop (before after : list Tick) (tick : Tick) (self : t) :
is_running self = true ->
Forall (fun t => stop_called t = false) before ->
stop_called tick = true ->
loop self (before ++ tick :: after) = loop self (before ++ [tick])
/\ is_running (fst (loop self (before ++ [tick]))) = false
/\ exists ev : list Event,
     snd (loop self (before ++ [tick])) = ev ++ [BotStopped]
     /\ ~ In BotStopped ev.
Proof.
intros Hr Hb Hs. induction Hb as [| t0 before' H0 _ IH].
- cbn [app loop]. rewrite Hr, Hs.
  pose proof (iteration_state self (exchange tick)) as Hi.
  pose proof (iteration_events self (exchange tick)) as He.
  destruct (iteration self (exchange tick)) as [self1 ev1].
  cbn [fst snd] in *. subst self1.
  unfold stop. destruct after as [| t1 after']; cbn [loop is_running].
  + split; [reflexivity |]. split; [reflexivity |].
    exists ev1. split; [rewrite app_nil_r; reflexivity |].
    intro H. destruct (He _ H) as [E | [s [sz E]]]; discriminate.
  + split; [reflexivity |]. split; [reflexivity |].
    exists ev1. split; [rewrite app_nil_r; reflexivity |].
    intro H. destruct (He _ H) as [E | [s [sz E]]]; discriminate.
- cbn [app loop]. rewrite Hr, H0.
  pose proof (iteration_state self (exchange t0)) as Hi.
  pose proof (iteration_events self (exchange t0)) as He.
  destruct (iteration self (exchange t0)) as [self1 ev1].
  cbn [fst snd] in *. subst self1.
  destruct IH as [IH1 [IH2 [ev [IH3 IH4]]]].
  rewrite IH1.
  destruct (loop self (before' ++ [tick])) as [self3 ev3].
  cbn [fst snd] in *.
  split; [reflexivity |]. split; [exact IH2 |].
  exists (ev1 ++ ev). split.
  + cbn [app]. rewrite IH3, app_assoc. reflexivity.
  + intro H. apply in_app_or in H. destruct H as [H | H].
    * destruct (He _ H) as [E | [s [sz E]]]; discriminate.
    * exact (IH4 H).
Qed.

End Loop.

(** X11.  Whatever the exchange delivers over a run, the loop never
    reaches its two exception handlers: no analysis of a fetched frame
    raises (a frame is analysed only with more than 50 candles) and no
    sizing of a signal raises (the division is numpy's).  The log holds
    nothing but the start, failed fetches, executed trades and the stop. *)
Theorem loop_handlers_unreachable :
  forall (self : TradingBot.t) (ticks : list TradingBot.Tick) (ev : Event),
    In ev (snd (TradingBot.run self ticks)) ->
    ev = BotStarted \/ ev = BotStopped \/ ev = ErrorFetchingData
    \/ exists (s : Signal) (size : scalar), ev = TradeExecuted s size.
Proof.
  intros self ticks ev. unfold TradingBot.run.
  match goal with |- context [TradingBot.loop ?s ticks] =>
    pose proof (loop_events ticks s ev) as H;
    destruct (TradingBot.loop s ticks) as [self1 evs] end.
  cbn [snd] in *. intros [E | Hin].
  - left. symmetry. exact E.
  - destruct (H Hin) as [E | [E | E]]; auto.
Qed.

Lemma loop_handlers_unreachable_witness :
  In ErrorFetchingData
    (snd (TradingBot.run (TradingBot.init default_config)
            [ {| TradingBot.exchange :=
                   {| ohlcv := None; account_total := Fin 5 |};
                 TradingBot.stop_called := true |} ]))
  /\ (ErrorFetchingData = BotStarted \/ ErrorFetchingData = BotStopped
      \/ ErrorFetchingData = ErrorFetchingData
      \/ exists (s : Signal) (size : scalar),
           ErrorFetchingData = TradeExecuted s size).
Proof.
  assert (H : In ErrorFetchingData
                (snd (TradingBot.run (TradingBot.init default_config)
                        [ {| TradingBot.exchange :=
                               {| ohlcv := None; account_total := Fin 5 |};
                             TradingBot.stop_called := true |} ])))
    by (right; left; reflexivity).
  split; [exact H |].
  exact (loop_handlers_unreachable _ _ _ H).
Defined.

(** X12.  The loop keeps no record of what it traded: [positions] is
    never written, and as long as [stop] is not called the same candles
    yield the same log entries on every tick (so a signal that persists
    is traded again each minute, whatever [max_positions] allows). *)
Theorem loop_keeps_no_record :
  forall (self : TradingBot.t) (tick : TradingBot.Tick) (n : nat),
    TradingBot.stop_called tick = false ->
    TradingBot.positions (fst (TradingBot.run self (repeat tick n)))
    = TradingBot.positions self
    /\ snd (TradingBot.run self (repeat tick n))
       = BotStarted
         :: concat (repeat (snd (TradingBot.iteration self
                                   (TradingBot.exchange tick))) n).
Proof.
  intros self tick n Hs. unfold TradingBot.run.
  match goal with |- context [TradingBot.loop ?s _] => set (self0 := s) end.
  pose proof (loop_positions (repeat tick n) self0) as Hp.
  pose proof (loop_repeat tick n self0 eq_refl Hs) as Hl.
  destruct (TradingBot.loop self0 (repeat tick n)) as [self1 ev].
  cbn [fst snd] in *. split; [exact Hp |].
  rewrite Hl.
  rewrite (iteration_log_reads self self0 (TradingBot.exchange tick));
    reflexivity.
Qed.

Lemma loop_keeps_no_record_witness :
  TradingBot.stop_called tick_volume_thrust = false
  /\ exists (s : Signal) (size : scalar),
       snd (TradingBot.run (TradingBot.init default_config)
              (repeat tick_volume_thrust 2))
       = [BotStarted; TradeExecuted s size; TradeExecuted s size].
Proof.
  split; [reflexivity |].
  destruct (loop_keeps_no_record (TradingBot.init default_config)
              tick_volume_thrust 2 eq_refl) as [_ H].
  rewrite H. eexists. eexists. vm_compute. reflexivity.
Defined.

(** X13.  The loop ends with the tick during which [stop] is called:
    the iteration of that tick still runs, the flag is cleared, the stop
    is the last entry of the log and the only one, and nothing the
    exchange delivers afterwards is looked at. *)
Theorem run_ends_at_stop :
  forall (self : TradingBot.t) (before after : list TradingBot.Tick)
         (tick : TradingBot.Tick),
    Forall (fun t => TradingBot.stop_called t = false) before ->
    TradingBot.stop_called tick = true ->
    TradingBot.run self (before ++ tick :: after)
    = TradingBot.run self (before ++ [tick])
    /\ TradingBot.is_running (fst (TradingBot.run self (before ++ [tick])))
       = false
    /\ exists ev : list Event,
         snd (TradingBot.run self (before ++ [tick]))
         = BotStarted :: ev ++ [BotStopped]
         /\ ~ In BotStopped ev.
Proof.
  intros self before after tick Hb Hs. unfold TradingBot.run.
  match goal with |- context [TradingBot.loop ?s _] => set (self0 := s) end.
  destruct (loop_until_stop before after tick self0 eq_refl Hb Hs)
    as [H1 [H2 [ev [H3 H4]]]].
  rewrite H1.
  destruct (TradingBot.loop self0 (before ++ [tick])) as [self1 evs].
  cbn [fst snd] in *.
  split; [reflexivity |]. split; [exact H2 |].
  exists ev. split; [rewrite H3; reflexivity | exact H4].
Qed.

Lemma run_ends_at_stop_witness :
  Forall (fun t => TradingBot.stop_called t = false) [tick_volume_thrust]
  /\ TradingBot.stop_called tick_stop = true
  /\ TradingBot.run (TradingBot.init default_config)
       ([tick_volume_thrust] ++ tick_stop :: [tick_volume_thrust])
     = TradingBot.run (TradingBot.init default_config)
         ([tick_volume_thrust] ++ [tick_stop]).
Proof.
  assert (H : Forall (fun t => TradingBot.stop_called t = false)
                [tick_volume_thrust]) by (repeat constructor).
  split; [exact H |]. split; [reflexivity |].
  exact (proj1 (run_ends_at_stop (TradingBot.init default_config)
                  [tick_volume_thrust] [tick_volume_thrust] tick_stop
                  H eq_refl)).
Defined.

(** ** The server of [binance_bot_backend.py] *)

Section Server.

Import Backend.

(** Every bot the server holds has the balance and the positions
  [__init__] gave it. *)
Let fresh (srv : Server) : Prop :=
match bot_instance srv with
| None => True
| Some bot => TradingBot.balance bot = 10000 /\ TradingBot.positions bot = []
end.

Lemma step_fresh (srv : Server) (s : Step) : fresh srv -> fresh (step srv s).
Proof.
unfold fresh. intro H. destruct s as [cfg | | | ex]; cbn [step].
- unfold start_bot. destruct (running srv); cbn [snd]; [exact H |].
  cbn [bot_instance TradingBot.init TradingBot.balance TradingBot.positions].
  split; reflexivity.
- unfold stop_bot. destruct (bot_instance srv) as [bot |] eqn:E;
    cbn [fst snd TradingBot.stop bot_instance]; [exact H |].
  rewrite E. exact I.
- unfold task_begin.
  destruct (scheduled srv) as [| n]; [exact H |].
  destruct (bot_instance srv) as [bot |] eqn:E;
    cbn [bot_instance TradingBot.balance TradingBot.positions];
    [exact H | rewrite E; exact I].
- destruct (bot_instance srv) as [bot |] eqn:E; [| rewrite E; exact I].
  destruct (TradingBot.is_running bot); [| rewrite E; exact H].
  cbn [bot_instance]. rewrite iteration_state. exact H.
Qed.

Lemma steps_fresh (l : list Step) (srv : Server) :
fresh srv -> fresh (steps srv l).
Proof.
unfold steps. revert srv. induction l as [| s l IH]; intros srv H;
  [exact H |].
cbn [fold_left]. apply IH. apply step_fresh. exact H.
Qed.

Lemma status_of_fresh (srv : Server) :
fresh srv ->
Status.positions (get_status srv) = []
/\ (Status.balance (get_status srv) = 10000
    \/ Status.balance (get_status srv) = 0
       /\ Status.is_running (get_status srv) = false).
Proof.
unfold fresh, get_status. destruct (bot_instance srv) as [bot |].
- intros [Hb Hp]. cbn. split; [exact Hp | left; exact Hb].
- intros _. cbn. split; [reflexivity | right; split; reflexivity].
Qed.

Lemma initial_fresh : fresh initial.
Proof. exact I. Qed.

End Server.

(** X14.  Whatever requests the server has handled since it came up
    (starts, stops) and whatever the loop of its bot has met on the
    exchange, [/status] reports no position and a balance of 10000, or,
    as long as no bot was ever started, a balance of 0 and a bot that is
    not running. *)
Theorem status_reports_initial_account :
  forall l : list Backend.Step,
    Backend.Status.positions
      (Backend.get_status (Backend.steps Backend.initial l)) = []
    /\ (Backend.Status.balance
          (Backend.get_status (Backend.steps Backend.initial l)) = 10000
        \/ Backend.Status.balance
             (Backend.get_status (Backend.steps Backend.initial l)) = 0
           /\ Backend.Status.is_running
                (Backend.get_status (Backend.steps Backend.initial l))
              = false).
Proof.
  intro l. apply status_of_fresh. apply steps_fresh. apply initial_fresh.
Qed.

(** X15.  [stop_bot] raises HTTP 400 "Bot is not running" exactly when
    no bot was ever started.  Once one was, it answers "Bot stopped
    successfully" whether the bot is running or not, leaves it not
    running, answers the same when asked again, and a start is accepted
    afterwards. *)
Theorem stop_bot_answers :
  forall srv : Backend.Server,
    (Backend.bot_instance srv = None ->
     Backend.stop_bot srv
     = (Raise (HTTPException 400 "Bot is not running"), srv, []))
    /\ (Backend.bot_instance srv <> None ->
        let srv' := snd (fst (Backend.stop_bot srv)) in
        Backend.stop_bot srv
        = (Ok "Bot stopped successfully"%string, srv', [BotStopped])
        /\ Backend.Status.is_running (Backend.get_status srv') = false
        /\ Backend.stop_bot srv'
           = (Ok "Bot stopped successfully"%string, srv', [BotStopped])
        /\ forall cfg : BotConfig,
             fst (Backend.start_bot cfg srv')
             = Ok "Bot started successfully"%string).
Proof.
  intro srv. unfold Backend.stop_bot, Backend.get_status, Backend.start_bot,
    Backend.running.
  destruct (Backend.bot_instance srv) as [bot |] eqn:E; split; intro H;
    try congruence.
  cbn. repeat split.
Qed.

Lemma stop_bot_answers_witness :
  Backend.bot_instance Backend.initial = None
  /\ fst (fst (Backend.stop_bot Backend.initial))
     = Raise (HTTPException 400 "Bot is not running")
  /\ Backend.bot_instance
       (Backend.steps Backend.initial
          [Backend.StartBot default_config; Backend.TaskBegin]) <> None
  /\ fst (fst (Backend.stop_bot
                 (Backend.steps Backend.initial
                    [Backend.StartBot default_config; Backend.TaskBegin])))
     = Ok "Bot stopped successfully"%string.
Proof.
  split; [reflexivity |].
  split; [rewrite (proj1 (stop_bot_answers Backend.initial) eq_refl);
          reflexivity |].
  assert (H : Backend.bot_instance
                (Backend.steps Backend.initial
                   [Backend.StartBot default_config; Backend.TaskBegin])
              <> None) by discriminate.
  split; [exact H |].
  destruct (proj2 (stop_bot_answers
                     (Backend.steps Backend.initial
                        [Backend.StartBot default_config; Backend.TaskBegin]))
              H) as [E _].
  rewrite E. reflexivity.
Defined.

(** ** The client and the handlers of [main-no-ccxt.py] *)

Section Client.

Import MainNoCcxt.
Import SimpleBinanceClient.

Lemma fetch_balance_zeros (reply : Reply (list Item.t)) :
no_balance reply -> fetch_balance reply = zeros.
Proof.
unfold no_balance, fetch_balance.
destruct reply as [| status data]; [reflexivity |].
destruct (status =? 200)%Z eqn:E; [| reflexivity].
apply Z.eqb_eq in E. intros [H | H]; [contradiction |].
destruct (find is_usdt data) as [item |]; [| reflexivity].
destruct H as [H | [H | H]]; rewrite H.
- reflexivity.
- destruct (Item.balance item); reflexivity.
- destruct (Item.balance item); destruct (Item.free item); reflexivity.
Qed.

(** The balance [fetch_balance] reports when the request brings one. *)
Lemma fetch_balance_usdt (data : list Item.t) (item : Item.t)
  (total free used : float) :
find is_usdt data = Some item ->
to_float (Item.balance item) = Ok total ->
to_float (Item.free item) = Ok free ->
to_float (Item.locked item) = Ok used ->
fetch_balance (Http 200 data)
= {| Balance.total := total; Balance.free := free; Balance.used := used |}.
Proof.
intros Hf Ht Hfr Hu. unfold fetch_balance. cbn [Z.eqb Pos.eqb].
rewrite Hf, Ht. cbn [bind]. rewrite Hfr. cbn [bind]. rewrite Hu.
reflexivity.
Qed.

End Client.

(** X16.  [fetch_balance] turns every failure into a balance of zeros,
    so the handlers cannot tell a failed request from an empty account.
    With credentials configured and a bot that is not running, a balance
    request that raises, is refused by the exchange (any status other
    than 200), holds no USDT row or holds an unreadable number makes
    [start_bot] answer "blocked" with a balance of $0.00 (not "error"),
    leaving the bot as it was; and [get_account], as long as the bot has
    stored no account data, answers zeros under the status
    "real_account". *)
Theorem failed_balance_request_reads_as_zero :
  forall (env_vars : MainNoCcxt.Dict)
         (reply : MainNoCcxt.Reply (list MainNoCcxt.SimpleBinanceClient.Item.t))
         (bot : MainNoCcxt.Bot) (now : string),
    MainNoCcxt.is_running bot = false ->
    has_keys (MainNoCcxt.credentials env_vars) = true ->
    no_balance reply ->
    MainNoCcxt.start_bot (MainNoCcxt.credentials env_vars)
      (MainNoCcxt.fetched_balance None reply) bot
    = ({| MainNoCcxt.status := "blocked";
          MainNoCcxt.message :=
            "Account balance is $0.00. Cannot start bot with zero balance.";
          MainNoCcxt.balance := Some (Fin 0) |}, bot)
    /\ MainNoCcxt.get_account None env_vars None reply now
       = {| MainNoCcxt.Account.total := Fin 0;
            MainNoCcxt.Account.free := Fin 0;
            MainNoCcxt.Account.used := Fin 0;
            MainNoCcxt.Account.positions := [];
            MainNoCcxt.Account.trades := [];
            MainNoCcxt.Account.totalPnL := Fin 0;
            MainNoCcxt.Account.lastUpdate := Some now;
            MainNoCcxt.Account.status := Some "real_account"%string;
            MainNoCcxt.Account.error := None |}.
Proof.
  intros env_vars reply bot now Hr Hk Hn.
  unfold has_keys in Hk. apply negb_true_iff in Hk.
  unfold MainNoCcxt.start_bot, MainNoCcxt.get_account,
    MainNoCcxt.fetched_balance.
  rewrite Hr, Hk, (fetch_balance_zeros reply Hn). split; reflexivity.
Qed.

Lemma failed_balance_request_reads_as_zero_witness :
  MainNoCcxt.is_running bot_idle = false
  /\ no_balance (MainNoCcxt.Http 401 [])
  /\ exists env_vars : MainNoCcxt.Dict,
       MainNoCcxt.load_env None = Ok env_vars
       /\ fst (MainNoCcxt.start_bot (MainNoCcxt.credentials env_vars)
                 (MainNoCcxt.fetched_balance None (MainNoCcxt.Http 401 []))
                 bot_idle)
          = {| MainNoCcxt.status := "blocked";
               MainNoCcxt.message :=
                 "Account balance is $0.00. Cannot start bot with zero balance.";
               MainNoCcxt.balance := Some (Fin 0) |}.
Proof.
  assert (Hn : no_balance (MainNoCcxt.Http 401 []))
    by (left; discriminate).
  split; [reflexivity |]. split; [exact Hn |].
  eexists. split; [reflexivity |].
  match goal with |- fst (MainNoCcxt.start_bot (MainNoCcxt.credentials ?d) _ _)
                     = _ =>
    rewrite (proj1 (failed_balance_request_reads_as_zero d
                      (MainNoCcxt.Http 401 []) bot_idle EmptyString
                      eq_refl eq_refl Hn)) end.
  reflexivity.
Defined.

(** ** Reading [.env] *)

Section LoadEnv.

Import MainNoCcxt.

Lemma split_once_none (s : string) :
split_once s = None <-> ~ In equals (list_ascii_of_string s).
Proof.
induction s as [| c t IH]; simpl.
- split; [intros _ [] | reflexivity].
- destruct (Ascii.eqb c equals) eqn:E.
  + apply Ascii.eqb_eq in E. subst c.
    split; [discriminate | intro H; exfalso; apply H; left; reflexivity].
  + apply Ascii.eqb_neq in E.
    destruct (split_once t) as [[k v] |].
    * split; [discriminate |].
      intro H. exfalso. apply H. right.
      destruct (in_dec Ascii.ascii_dec equals (list_ascii_of_string t))
        as [Hin | Hn]; [exact Hin |].
      apply IH in Hn. discriminate.
    * split; [| reflexivity]. intros _ [H | H]; [congruence |].
      apply (proj1 IH eq_refl). exact H.
Qed.

Lemma split_once_assignment (key value : string) :
~ In equals (list_ascii_of_string key) ->
split_once (assignment key value) = Some (key, value).
Proof.
unfold assignment. induction key as [| c t IH]; simpl; intro H.
- reflexivity.
- destruct (Ascii.eqb c equals) eqn:E.
  + apply Ascii.eqb_eq in E. exfalso. apply H. left. exact E.
  + rewrite IH; [reflexivity |]. intro Hin. apply H. right. exact Hin.
Qed.

Lemma read_lines_app (l1 l2 : list string) (env_vars : Dict) :
read_lines (l1 ++ l2) env_vars
= (d <- read_lines l1 env_vars ;; read_lines l2 d).
Proof.
revert env_vars. induction l1 as [| line rest IH]; intros env_vars;
  [reflexivity |].
cbn [app read_lines].
destruct (negb (is_empty (strip line)) && negb (is_comment (strip line)));
  [| apply IH].
destruct (split_once (strip line)) as [[k v] |]; [apply IH | reflexivity].
Qed.

Lemma dict_get_set (d : Dict) (key value : string) :
dict_get (dict_set d key value) key = Some value.
Proof.
induction d as [| [k v] t IH]; simpl.
- rewrite String.eqb_refl. reflexivity.
- destruct (String.eqb k key) eqn:E; simpl.
  + rewrite String.eqb_refl. reflexivity.
  + rewrite E. exact IH.
Qed.

Lemma dict_get_set_other (d : Dict) (key value k' : string) :
k' <> key -> dict_get (dict_set d key value) k' = dict_get d k'.
Proof.
intro H. induction d as [| [k v] t IH]; simpl.
- destruct (String.eqb key k') eqn:E; [| reflexivity].
  apply String.eqb_eq in E. congruence.
- destruct (String.eqb k key) eqn:E; simpl.
  + apply String.eqb_eq in E. subst k.
    destruct (String.eqb key k') eqn:E'; [| reflexivity].
    apply String.eqb_eq in E'. congruence.
  + destruct (String.eqb k k'); [reflexivity | exact IH].
Qed.

Lemma read_lines_readable (lines : list string) (env_vars : Dict) :
Forall readable_line lines ->
exists d : Dict, read_lines lines env_vars = Ok d.
Proof.
intro H. revert env_vars.
induction H as [| line rest Hl _ IH]; intros env_vars;
  [eexists; reflexivity |].
cbn [read_lines]. unfold readable_line in Hl. cbv zeta in Hl.
destruct Hl as [Hl | [Hl | Hl]].
- rewrite Hl. cbn. apply IH.
- rewrite Hl, andb_false_r. apply IH.
- destruct (negb (is_empty (strip line)) && negb (is_comment (strip line)));
    [| apply IH].
  destruct (split_once (strip line)) as [[k v] |] eqn:E; [apply IH |].
  apply split_once_none in E. contradiction.
Qed.

Lemma read_lines_unreadable (lines : list string) (env_vars : Dict) :
Exists (fun line => ~ readable_line line) lines ->
read_lines lines env_vars = Raise ValueError.
Proof.
intro H. revert env_vars.
induction H as [line rest Hl | line rest _ IH]; intros env_vars;
  cbn [read_lines].
- unfold readable_line in Hl. cbv zeta in Hl.
  destruct (strip line) as [| c t] eqn:Es;
    [exfalso; apply Hl; left; reflexivity |].
  destruct (is_comment (String c t)) eqn:Ec;
    [exfalso; apply Hl; right; left; reflexivity |].
  cbn [is_empty negb andb].
  destruct (split_once (String c t)) as [[k v] |] eqn:E; [| reflexivity].
  exfalso. apply Hl. right. right.
  destruct (in_dec Ascii.ascii_dec equals (list_ascii_of_string (String c t)))
    as [Hin | Hn]; [exact Hin |].
  apply split_once_none in Hn. congruence.
- destruct (negb (is_empty (strip line)) && negb (is_comment (strip line)));
    [| apply IH].
  destruct (split_once (strip line)) as [[k v] |]; [apply IH | reflexivity].
Qed.

End LoadEnv.

(** X17.  [load_env] returns a dict exactly when every line of [.env],
    once stripped, is empty, a comment or holds an [=]; a single other
    line makes it raise [ValueError] (the unpacking of [split('=', 1)]
    fails and only [FileNotFoundError] is caught), which is raised while
    the module is loaded. *)
Theorem load_env_needs_assignments :
  forall lines : list string,
    (Forall readable_line lines ->
     exists env_vars : MainNoCcxt.Dict,
       MainNoCcxt.load_env (Some lines) = Ok env_vars)
    /\ (Exists (fun line => ~ readable_line line) lines ->
        MainNoCcxt.load_env (Some lines) = Raise ValueError).
Proof.
  intro lines. unfold MainNoCcxt.load_env. split; intro H.
  - apply read_lines_readable. exact H.
  - apply read_lines_unreadable. exact H.
Qed.

(** X18.  A line [key=value] without surrounding blanks, whose key holds
    no [=], appended to a file that [load_env] reads, sets exactly that
    key to exactly that value (with every later [=], blank or quote of
    the value, and every blank at the end of the key, kept), overriding
    an earlier line for the key and leaving the other keys as they
    were. *)
Theorem load_env_last_assignment_wins :
  forall (lines : list string) (env_vars : MainNoCcxt.Dict)
         (key value : string),
    MainNoCcxt.load_env (Some lines) = Ok env_vars ->
    ~ In MainNoCcxt.equals (list_ascii_of_string key) ->
    MainNoCcxt.strip (assignment key value) = assignment key value ->
    MainNoCcxt.is_comment (assignment key value) = false ->
    exists env_vars' : MainNoCcxt.Dict,
      MainNoCcxt.load_env (Some (lines ++ [assignment key value]))
      = Ok env_vars'
      /\ MainNoCcxt.dict_get env_vars' key = Some value
      /\ forall k : string,
           k <> key ->
           MainNoCcxt.dict_get env_vars' k = MainNoCcxt.dict_get env_vars k.
Proof.
  intros lines env_vars key value Hl Hk Hs Hc.
  unfold MainNoCcxt.load_env in *.
  rewrite read_lines_app, Hl. cbn [bind MainNoCcxt.read_lines].
  rewrite Hs, Hc, (split_once_assignment key value Hk).
  assert (He : MainNoCcxt.is_empty (assignment key value) = false).
  { unfold assignment. destruct key; reflexivity. }
  rewrite He. cbn [negb andb].
  exists (MainNoCcxt.dict_set env_vars key value).
  split; [reflexivity |]. split.
  - apply dict_get_set.
  - intros k Hne. apply dict_get_set_other. exact Hne.
Qed.

Lemma load_env_last_assignment_wins_witness :
  MainNoCcxt.load_env (Some ["# keys"; "TRADING_MODE=testnet"]%string)
  = Ok [("TRADING_MODE", "testnet")]%string
  /\ exists env_vars' : MainNoCcxt.Dict,
       MainNoCcxt.load_env
         (Some (["# keys"%string; "TRADING_MODE=testnet"%string]
                ++ [assignment "TRADING_MODE" "live=1"])%list)
       = Ok env_vars'
       /\ MainNoCcxt.dict_get env_vars' "TRADING_MODE" = Some "live=1"%string.
Proof.
  split; [reflexivity |].
  destruct (load_env_last_assignment_wins
              ["# keys"; "TRADING_MODE=testnet"]%string
              [("TRADING_MODE", "testnet")]%string
              "TRADING_MODE" "live=1" eq_refl)
    as [d [Hd [Hg _]]].
  - vm_compute. intros H. repeat (destruct H as [H | H]; [discriminate |]).
    exact H.
  - reflexivity.
  - reflexivity.
  - exists d. split; [exact Hd | exact Hg].
Defined.

Lemma load_env_needs_assignments_witness :
  Forall readable_line ["# keys"; "  "; "TRADING_MODE=testnet"]%string
  /\ (exists env_vars : MainNoCcxt.Dict,
        MainNoCcxt.load_env
          (Some ["# keys"; "  "; "TRADING_MODE=testnet"]%string)
        = Ok env_vars)
  /\ Exists (fun line => ~ readable_line line)
       ["TRADING_MODE=testnet"; "BINANCE_API_KEY"]%string
  /\ MainNoCcxt.load_env
       (Some ["TRADING_MODE=testnet"; "BINANCE_API_KEY"]%string)
     = Raise ValueError.
Proof.
  assert (H1 : Forall readable_line
                 ["# keys"; "  "; "TRADING_MODE=testnet"]%string).
  { constructor; [right; left; reflexivity |].
    constructor; [left; reflexivity |].
    constructor; [right; right; vm_compute; tauto | constructor]. }
  assert (H2 : Exists (fun line => ~ readable_line line)
                 ["TRADING_MODE=testnet"; "BINANCE_API_KEY"]%string).
  { right. left. unfold readable_line. vm_compute.
    intros [H | [H | H]]; try discriminate.
    repeat (destruct H as [H | H]; [discriminate |]). exact H. }
  split; [exact H1 |].
  split; [exact (proj1 (load_env_needs_assignments _) H1) |].
  split; [exact H2 |].
  exact (proj2 (load_env_needs_assignments _) H2).
Defined.

(** ** Open positions *)

Section Positions.

Import MainNoCcxt.
Import SimpleBinanceClient.

Lemma active_readable (data : list Position.t) :
Forall (fun pos => ~ unreadable pos) data ->
active data = Ok (filter is_active data).
Proof.
induction 1 as [| pos rest Hp _ IH]; [reflexivity |].
cbn [active filter]. unfold is_active, unreadable in *.
destruct (Position.positionAmt pos) as [| x |]; cbn [to_float bind];
  [| | contradiction]; rewrite IH; cbn [bind]; reflexivity.
Qed.

Lemma active_unreadable (data : list Position.t) :
Exists unreadable data -> active data = Raise ValueError.
Proof.
induction 1 as [pos rest Hp | pos rest _ IH]; cbn [active].
- unfold unreadable in Hp. rewrite Hp. reflexivity.
- destruct (Position.positionAmt pos); cbn [to_float bind];
    try rewrite IH; reflexivity.
Qed.

End Positions.

(** X19.  From an answer with status 200 whose position amounts are all
    readable, [fetch_positions] keeps exactly the rows with an amount
    other than zero, in their order (a row without [positionAmt] counts
    as zero), and these are the positions [get_positions] serves after
    the next [update_account_data].  A single unreadable amount empties
    the whole list, as does any status other than 200 or a request that
    raised. *)
Theorem fetch_positions_keeps_active_rows :
  forall (data : list MainNoCcxt.SimpleBinanceClient.Position.t),
    (Forall (fun pos => ~ unreadable pos) data ->
     MainNoCcxt.SimpleBinanceClient.fetch_positions (MainNoCcxt.Http 200 data)
     = filter is_active data
     /\ forall (balance_reply :
                  MainNoCcxt.Reply (list MainNoCcxt.SimpleBinanceClient.Item.t))
               (now : string),
          MainNoCcxt.get_positions
            (Some (MainNoCcxt.update_account_data balance_reply
                     (MainNoCcxt.Http 200 data) now))
          = filter is_active data)
    /\ (Exists unreadable data ->
        MainNoCcxt.SimpleBinanceClient.fetch_positions
          (MainNoCcxt.Http 200 data) = [])
    /\ (forall status : Z,
          status <> 200%Z ->
          MainNoCcxt.SimpleBinanceClient.fetch_positions
            (MainNoCcxt.Http status data) = [])
    /\ MainNoCcxt.SimpleBinanceClient.fetch_positions MainNoCcxt.RequestFailed
       = [].
Proof.
  intro data. unfold MainNoCcxt.get_positions, MainNoCcxt.update_account_data,
    MainNoCcxt.SimpleBinanceClient.fetch_positions.
  cbn [MainNoCcxt.Account.positions].
  repeat split.
  - cbn [Z.eqb Pos.eqb]. rewrite active_readable by assumption. reflexivity.
  - intros _ _. cbn [Z.eqb Pos.eqb].
    rewrite active_readable by assumption. reflexivity.
  - intro H. cbn [Z.eqb Pos.eqb]. rewrite active_unreadable by exact H.
    reflexivity.
  - intros status H. destruct (status =? 200)%Z eqn:E; [| reflexivity].
    apply Z.eqb_eq in E. contradiction.
Qed.

Lemma fetch_positions_keeps_active_rows_witness :
  Forall (fun pos => ~ unreadable pos)
    [ {| MainNoCcxt.SimpleBinanceClient.Position.symbol := "BTCUSDT";
         MainNoCcxt.SimpleBinanceClient.Position.positionAmt :=
           MainNoCcxt.Value (Fin 0) |};
      {| MainNoCcxt.SimpleBinanceClient.Position.symbol := "ETHUSDT";
         MainNoCcxt.SimpleBinanceClient.Position.positionAmt :=
           MainNoCcxt.Value (Fin (-3 # 2)) |} ]
  /\ MainNoCcxt.SimpleBinanceClient.fetch_positions
       (MainNoCcxt.Http 200
          [ {| MainNoCcxt.SimpleBinanceClient.Position.symbol := "BTCUSDT";
               MainNoCcxt.SimpleBinanceClient.Position.positionAmt :=
                 MainNoCcxt.Value (Fin 0) |};
            {| MainNoCcxt.SimpleBinanceClient.Position.symbol := "ETHUSDT";
               MainNoCcxt.SimpleBinanceClient.Position.positionAmt :=
                 MainNoCcxt.Value (Fin (-3 # 2)) |} ])
     = [ {| MainNoCcxt.SimpleBinanceClient.Position.symbol := "ETHUSDT";
            MainNoCcxt.SimpleBinanceClient.Position.positionAmt :=
              MainNoCcxt.Value (Fin (-3 # 2)) |} ].
Proof.
  assert (H : Forall (fun pos => ~ unreadable pos)
    [ {| MainNoCcxt.SimpleBinanceClient.Position.symbol := "BTCUSDT";
         MainNoCcxt.SimpleBinanceClient.Position.positionAmt :=
           MainNoCcxt.Value (Fin 0) |};
      {| MainNoCcxt.SimpleBinanceClient.Position.symbol := "ETHUSDT";
         MainNoCcxt.SimpleBinanceClient.Position.positionAmt :=
           MainNoCcxt.Value (Fin (-3 # 2)) |} ])
    by (repeat constructor; discriminate).
  split; [exact H |].
  rewrite (proj1 (proj1 (fetch_positions_keeps_active_rows _) H)).
  reflexivity.
Defined.

(** ** The serverless handler *)

Section Api.

Import ApiIndex.

Lemma sum_positive_wallets (qs : list Q) (a : Q) :
exists s : Q,
  sum_positive (wallets qs) (Fin a) = inl (Fin s)
  /\ s == a + positive_sum qs.
Proof.
revert a. induction qs as [| q t IH]; intros a.
- exists a. split; [reflexivity |]. unfold positive_sum. simpl. ring.
- cbn [wallets map sum_positive to_float]. fold (wallets t).
  unfold positive_sum in *. cbn [map Qsum fold_right].
  unfold positive_part at 1. cbn [gtb ltb].
  destruct (Qltb 0 q).
  + cbn [Num.add]. destruct (IH (a + q)) as [s [Hs Es]].
    exists s. split; [exact Hs |]. rewrite Es. unfold Qsum. ring.
  + destruct (IH a) as [s [Hs Es]].
    exists s. split; [exact Hs |]. rewrite Es. unfold Qsum. ring.
Qed.

Lemma round_2 (s : Q) :
exists r : Z,
  round_digits (Fin s) 2 = Fin (inject_Z r / 100)
  /\ Qabs (inject_Z r - s * 100) <= 1 # 2.
Proof.
exists (round_half_even (s * 100)). split; [reflexivity |].
apply round_half_even_nearest.
Qed.

Lemma positive_sum_nonneg (qs : list Q) : 0 <= positive_sum qs.
Proof.
unfold positive_sum. apply Qsum_nonneg.
induction qs as [| q t IH]; simpl; constructor;
  [apply positive_part_nonneg | exact IH].
Qed.

(** The total the balance request reports on finite wallet balances. *)
Lemma fetch_total (qs : list Q) (text : string) :
exists r : Z,
  fetch_binance_balance (Answered 200 (wallets qs) text)
  = inl [ ("total", JNumber (Fin (inject_Z r / 100)));
          ("currency", JString "USDT");
          ("status", JString "ok") ]%string
  /\ Qabs (inject_Z r - positive_sum qs * 100) <= 1 # 2.
Proof.
unfold fetch_binance_balance. cbn [Z.eqb Pos.eqb].
destruct (sum_positive_wallets qs 0) as [s [Hs Es]]. rewrite Hs.
destruct (round_2 s) as [r [Hr Er]]. rewrite Hr.
exists r. split; [reflexivity |].
assert (E : s == positive_sum qs) by (rewrite Es; ring).
rewrite <- E. exact Er.
Qed.

End Api.

(** X20.  On an answer with status 200 whose wallet balances are finite
    numbers, [fetch_binance_balance] reports as total the sum of the
    positive balances (zero and negative ones do not count) rounded to
    two decimals: a non-negative number of cents within half a cent of
    that sum. *)
Theorem fetch_binance_balance_sums_positive :
  forall (qs : list Q) (text : string),
    exists total : Q,
      ApiIndex.fetch_binance_balance
        (ApiIndex.Answered 200 (wallets qs) text)
      = inl [ ("total", ApiIndex.JNumber (Fin total));
              ("currency", ApiIndex.JString "USDT");
              ("status", ApiIndex.JString "ok") ]%string
      /\ 0 <= total
      /\ Qabs (total - positive_sum qs) <= 1 # 200
      /\ exists cents : Z, total == inject_Z cents / 100.
Proof.
  intros qs text. destruct (fetch_total qs text) as [r [Hf Hr]].
  exists (inject_Z r / 100). split; [exact Hf |].
  pose proof (positive_sum_nonneg qs) as Hp.
  apply Qabs_Qle_condition in Hr. destruct Hr as [Hlo Hhi].
  assert (H0 : (0 <= r)%Z).
  { assert (Hq : inject_Z (-1) < inject_Z r)
      by (change (inject_Z (-1)) with (-1); lra).
    rewrite <- Zlt_Qlt in Hq. lia. }
  assert (Hr0 : 0 <= inject_Z r)
    by (change 0 with (inject_Z 0); rewrite <- Zle_Qle; exact H0).
  split; [| split].
  - unfold Qdiv. change (/ 100) with (1 # 100). lra.
  - apply Qabs_Qle_condition. unfold Qdiv. change (/ 100) with (1 # 100).
    split; lra.
  - exists r. reflexivity.
Qed.

(** X21.  With both API keys configured, [/api/start] (POST) decides on
    the sum of the positive wallet balances of the account answer: below
    9.995 it answers 400 "Insufficient balance (minimum $10 required)",
    above 9.995 it answers 200 "started" (the total is compared with 10
    after rounding to cents).  When the exchange answers with another
    status than 200 it answers 500 with the text of that error. *)
Theorem api_start_decides_on_rounded_total :
  forall (environ : ApiIndex.Environ) (qs : list Q) (text : string),
    has_api_keys environ = true ->
    (positive_sum qs < 9995 # 1000 ->
     ApiIndex.handle_api_request environ
       (ApiIndex.Answered 200 (wallets qs) text) "/api/start" "POST"
     = ApiIndex.JSONResponse
         [ ("status", ApiIndex.JString "error");
           ("message",
            ApiIndex.JString "Insufficient balance (minimum $10 required)")
         ]%string 400)
    /\ (9995 # 1000 < positive_sum qs ->
        ApiIndex.handle_api_request environ
          (ApiIndex.Answered 200 (wallets qs) text) "/api/start" "POST"
        = ApiIndex.JSONResponse
            [ ("status", ApiIndex.JString "started");
              ("message", ApiIndex.JString "Bot started successfully")
            ]%string 200)
    /\ (forall (status : Z) (balances : list ApiIndex.Wallet),
          status <> 200%Z ->
          ApiIndex.handle_api_request environ
            (ApiIndex.Answered status balances text) "/api/start" "POST"
          = ApiIndex.JSONResponse
              [ ("status", ApiIndex.JString "error");
                ("message",
                 ApiIndex.JString
                   ("Binance API error: " ++ ApiIndex.string_of_Z status
                    ++ " - " ++ text)) ]%string 500).
Proof.
  intros environ qs text Hk.
  unfold has_api_keys in Hk. apply negb_true_iff in Hk.
  unfold ApiIndex.handle_api_request.
  cbn [String.eqb Ascii.eqb Bool.eqb andb]. rewrite Hk.
  split; [| split].
  - intro H. destruct (fetch_total qs text) as [r [Hf Hr]]. rewrite Hf.
    apply Qabs_Qle_condition in Hr. destruct Hr as [Hlo Hhi].
    assert (E : ApiIndex.total_below
                  [ ("total", ApiIndex.JNumber (Fin (inject_Z r / 100)));
                    ("currency", ApiIndex.JString "USDT");
                    ("status", ApiIndex.JString "ok") ]%string (Fin 10)
                = true).
    { unfold ApiIndex.total_below.
      cbn [find fst String.eqb Ascii.eqb Bool.eqb ltb].
      apply Qltb_true. unfold Qdiv. change (/ 100) with (1 # 100).
      assert (Hq : inject_Z r < inject_Z 1000)
        by (change (inject_Z 1000) with 1000; lra).
      rewrite <- Zlt_Qlt in Hq.
      assert (Hq' : inject_Z r <= inject_Z 999)
        by (rewrite <- Zle_Qle; lia).
      change (inject_Z 999) with 999 in Hq'. lra. }
    rewrite E. reflexivity.
  - intro H. destruct (fetch_total qs text) as [r [Hf Hr]]. rewrite Hf.
    apply Qabs_Qle_condition in Hr. destruct Hr as [Hlo Hhi].
    assert (E : ApiIndex.total_below
                  [ ("total", ApiIndex.JNumber (Fin (inject_Z r / 100)));
                    ("currency", ApiIndex.JString "USDT");
                    ("status", ApiIndex.JString "ok") ]%string (Fin 10)
                = false).
    { unfold ApiIndex.total_below.
      cbn [find fst String.eqb Ascii.eqb Bool.eqb ltb].
      apply Qltb_false. unfold Qdiv. change (/ 100) with (1 # 100).
      assert (Hq : inject_Z 999 < inject_Z r)
        by (change (inject_Z 999) with 999; lra).
      rewrite <- Zlt_Qlt in Hq.
      assert (Hq' : inject_Z 1000 <= inject_Z r)
        by (rewrite <- Zle_Qle; lia).
      change (inject_Z 1000) with 1000 in Hq'. lra. }
    rewrite E. reflexivity.
  - intros status balances Hs. unfold ApiIndex.fetch_binance_balance.
    destruct (status =? 200)%Z eqn:E; [apply Z.eqb_eq in E; contradiction |].
    reflexivity.
Qed.

Lemma api_start_decides_on_rounded_total_witness :
  has_api_keys
    {| ApiIndex.BINANCE_API_KEY := "key"; ApiIndex.BINANCE_SECRET_KEY := "secret";
       ApiIndex.TRADING_MODE := "testnet" |} = true
  /\ positive_sum [7; -3; 299 # 100] < 9995 # 1000
  /\ ApiIndex.status_code
       (ApiIndex.handle_api_request
          {| ApiIndex.BINANCE_API_KEY := "key";
             ApiIndex.BINANCE_SECRET_KEY := "secret";
             ApiIndex.TRADING_MODE := "testnet" |}
          (ApiIndex.Answered 200 (wallets [7; -3; 299 # 100]) "")
          "/api/start" "POST") = 400%Z.
Proof.
  split; [reflexivity |]. split; [vm_compute; reflexivity |].
  rewrite (proj1 (api_start_decides_on_rounded_total
                    {| ApiIndex.BINANCE_API_KEY := "key";
                       ApiIndex.BINANCE_SECRET_KEY := "secret";
                       ApiIndex.TRADING_MODE := "testnet" |}
                    [7; -3; 299 # 100] "" eq_refl)).
  - reflexivity.
  - vm_compute. reflexivity.
Defined.

(** [/api/account] cannot render a total that is not finite: the route
    answers 500 where a finite total is answered 200. *)
Example account_route_refuses_infinite_total :
  let environ :=
    {| ApiIndex.BINANCE_API_KEY := "k"; ApiIndex.BINANCE_SECRET_KEY := "s";
       ApiIndex.TRADING_MODE := "testnet" |} in
  ApiIndex.status_code
    (ApiIndex.handle_api_request environ
       (ApiIndex.Answered 200 [ApiIndex.WalletBalance PInf] "")
       "/api/account" "GET") = 500%Z
  /\ ApiIndex.status_code
       (ApiIndex.handle_api_request environ
          (ApiIndex.Answered 200 [ApiIndex.WalletBalance (Fin 25)] "")
          "/api/account" "GET") = 200%Z.
Proof. split; reflexivity. Qed.

(** ** The router *)

Section Router.

Import ApiIndex.

Lemma serve_static_cases (fs : FileSystem) (places : list string) :
serve_static fs places
= JSONResponse [("error", JString "File not found")]%string 404
\/ exists (try_path text : string),
     In try_path places
     /\ exists_ fs try_path = true
     /\ read fs try_path = inl text
     /\ (endswith try_path ".css" = true
         /\ serve_static fs places
            = {| media_type := "text/css"; status_code := 200;
                 content := Text text |}
         \/ endswith try_path ".css" = false
            /\ endswith try_path ".js" = true
            /\ serve_static fs places
               = {| media_type := "application/javascript";
                    status_code := 200; content := Text text |}).
Proof.
induction places as [| p rest IH]; [left; reflexivity |].
assert (Hrest :
  serve_static fs rest
  = JSONResponse [("error", JString "File not found")]%string 404
  \/ exists (try_path text : string),
       In try_path (p :: rest)
       /\ exists_ fs try_path = true
       /\ read fs try_path = inl text
       /\ (endswith try_path ".css" = true
           /\ serve_static fs rest
              = {| media_type := "text/css"; status_code := 200;
                   content := Text text |}
           \/ endswith try_path ".css" = false
              /\ endswith try_path ".js" = true
              /\ serve_static fs rest
                 = {| media_type := "application/javascript";
                      status_code := 200; content := Text text |})).
{ destruct IH as [E | [tp [text [Hin H]]]]; [left; exact E |].
  right. exists tp, text. split; [right; exact Hin | exact H]. }
cbn [serve_static].
destruct (exists_ fs p) eqn:Ex; [| exact Hrest].
destruct (read fs p) as [text | e] eqn:Er; [| exact Hrest].
destruct (endswith p ".css") eqn:Ec.
- right. exists p, text. split; [left; reflexivity |].
  split; [exact Ex |]. split; [exact Er |]. left.
  split; [exact Ec | reflexivity].
- destruct (endswith p ".js") eqn:Ej; [| exact Hrest].
  right. exists p, text. split; [left; reflexivity |].
  split; [exact Ex |]. split; [exact Er |]. right.
  split; [exact Ec |]. split; [exact Ej | reflexivity].
Qed.

Lemma static_path_not_root (path : string) :
String.prefix "/styles/" path || String.prefix "/js/" path = true ->
String.eqb path "/" = false.
Proof.
intro H. destruct (String.eqb path "/") eqn:E; [| reflexivity].
apply String.eqb_eq in E. subst path. cbv in H. discriminate.
Qed.

End Router.

(** X22.  Under [/styles/] and [/js/] the router answers, whatever the
    method, either 404 "File not found" or, with status 200, the text of
    a file that exists at the path without its first slash (read as it
    is, [..] segments included), or at that path behind [../] or [./],
    and whose name ends in [.css] (served as text/css) or in [.js]
    (served as application/javascript): no file with another ending is
    ever served. *)
Theorem static_route_serves_css_and_js_only :
  forall (fs : ApiIndex.FileSystem) (environ : ApiIndex.Environ)
         (answer : ApiIndex.Answer) (path method : string),
    String.prefix "/styles/" path || String.prefix "/js/" path = true ->
    ApiIndex.main fs environ answer path method
    = ApiIndex.JSONResponse
        [("error", ApiIndex.JString "File not found")]%string 404
    \/ exists (try_path text : string),
         In try_path
           [ ApiIndex.drop_first path;
             ("../" ++ ApiIndex.drop_first path)%string;
             ("./" ++ ApiIndex.drop_first path)%string ]
         /\ ApiIndex.exists_ fs try_path = true
         /\ ApiIndex.read fs try_path = inl text
         /\ (ApiIndex.endswith try_path ".css" = true
             /\ ApiIndex.main fs environ answer path method
                = {| ApiIndex.media_type := "text/css";
                     ApiIndex.status_code := 200;
                     ApiIndex.content := ApiIndex.Text text |}
             \/ ApiIndex.endswith try_path ".css" = false
                /\ ApiIndex.endswith try_path ".js" = true
                /\ ApiIndex.main fs environ answer path method
                   = {| ApiIndex.media_type := "application/javascript";
                        ApiIndex.status_code := 200;
                        ApiIndex.content := ApiIndex.Text text |}).
Proof.
  intros fs environ answer path method H. unfold ApiIndex.main.
  rewrite (static_path_not_root path H), H. cbn [andb].
  apply serve_static_cases.
Qed.

Lemma static_route_serves_css_and_js_only_witness :
  String.prefix "/styles/" "/styles/main.txt"
  || String.prefix "/js/" "/styles/main.txt" = true
  /\ ApiIndex.main
       {| ApiIndex.exists_ := fun _ => true;
          ApiIndex.read := fun _ => inl "body"%string |}
       {| ApiIndex.BINANCE_API_KEY := ""; ApiIndex.BINANCE_SECRET_KEY := "";
          ApiIndex.TRADING_MODE := "testnet" |}
       (ApiIndex.RequestRaised "") "/styles/main.txt" "GET"
     = ApiIndex.JSONResponse
         [("error", ApiIndex.JString "File not found")]%string 404.
Proof.
  split; [reflexivity |].
  destruct (static_route_serves_css_and_js_only
              {| ApiIndex.exists_ := fun _ => true;
                 ApiIndex.read := fun _ => inl "body"%string |}
              {| ApiIndex.BINANCE_API_KEY := "";
                 ApiIndex.BINANCE_SECRET_KEY := "";
                 ApiIndex.TRADING_MODE := "testnet" |}
              (ApiIndex.RequestRaised "") "/styles/main.txt" "GET" eq_refl)
    as [E | [tp [text [Hin [_ [_ [[Hc _] | [_ [Hj _]]]]]]]]].
  - exact E.
  - exfalso. destruct Hin as [<- | [<- | [<- | []]]]; vm_compute in Hc;
      discriminate.
  - exfalso. destruct Hin as [<- | [<- | [<- | []]]]; vm_compute in Hj;
      discriminate.
Defined.

(** ** What a position puts at risk *)

Lemma round_half_even_comp (x y : Q) :
  x == y -> round_half_even x = round_half_even y.
Proof.
  intro H. unfold round_half_even.
  rewrite (Qfloor_comp _ _ H).
  assert (E : (x - inject_Z (Qfloor y) ?= 1 # 2)
              = (y - inject_Z (Qfloor y) ?= 1 # 2))
    by (rewrite H; reflexivity).
  rewrite E. reflexivity.
Qed.

(** X23.  With a non-negative balance, risk percentage and leverage and
    a stop at a finite non-zero distance [d] from the entry, the size is
    not negative, is the same for a stop above as for a stop below the
    entry, and is such that the move from the entry to the stop costs
    [size * d = leverage * (balance * risk_percent / 100)] up to the
    rounding of the size ([0.0005 * d]): the configured risk amount
    times the leverage. *)
Theorem position_size_risks_leverage_times_risk :
  forall (self : TradingBot.t) (e s : Q) (ke ks : bool),
    ~ e == s ->
    0 <= TradingBot.balance self ->
    0 <= risk_percent (TradingBot.config self) ->
    (0 <= leverage (TradingBot.config self))%Z ->
    exists size : Q,
      TradingBot.calculate_position_size self
        (wrap ke (Fin e)) (wrap ks (Fin s))
      = Ok (wrap (ke || ks) (Fin size))
      /\ 0 <= size
      /\ Qabs (size * Qabs (e - s)
               - inject_Z (leverage (TradingBot.config self))
                 * (TradingBot.balance self
                    * (risk_percent (TradingBot.config self) / 100)))
         <= (1 # 2000) * Qabs (e - s)
      /\ exists size' : Q,
           TradingBot.calculate_position_size self
             (wrap ke (Fin s)) (wrap ks (Fin e))
           = Ok (wrap (ke || ks) (Fin size'))
           /\ size' == size.
Proof.
  intros self e s ke ks H Hb Hr Hl.
  set (risk := TradingBot.balance self
               * (risk_percent (TradingBot.config self) / 100)).
  set (lev := inject_Z (leverage (TradingBot.config self))).
  assert (Hrisk : 0 <= risk).
  { unfold risk. apply Qmult_le_0_compat; [exact Hb |].
    unfold Qdiv. change (/ 100) with (1 # 100).
    apply Qmult_le_0_compat; [exact Hr | discriminate]. }
  assert (Hlev : 0 <= lev).
  { unfold lev. change 0 with (inject_Z 0). rewrite <- Zle_Qle. exact Hl. }
  pose proof (abs_sub_pos e s H) as Hd.
  assert (Hs : ~ s == e) by (intro E; apply H; symmetry; exact E).
  assert (Ed : Qabs (s + - e) == Qabs (e + - s)).
  { rewrite <- (Qabs_opp (e + - s)). apply Qabs_wd. ring. }
  set (d := Qabs (e + - s)) in *.
  set (x := risk / d * lev).
  assert (Hx : 0 <= x).
  { unfold x. apply Qmult_le_0_compat; [| exact Hlev].
    unfold Qdiv. apply Qmult_le_0_compat; [exact Hrisk |].
    apply Qlt_le_weak. apply Qinv_lt_0_compat. exact Hd. }
  pose proof (round_half_even_nearest (x * inject_Z (10 ^ 3))) as Hn.
  change (inject_Z (10 ^ 3)) with 1000 in Hn.
  set (k := round_half_even (x * 1000)) in *.
  apply Qabs_Qle_condition in Hn. destruct Hn as [Hlo Hhi].
  assert (Hk : 0 <= inject_Z k).
  { assert (Hq : inject_Z (-1) < inject_Z k)
      by (change (inject_Z (-1)) with (-1); lra).
    rewrite <- Zlt_Qlt in Hq.
    change 0 with (inject_Z 0). rewrite <- Zle_Qle. lia. }
  exists (inject_Z k / 1000). split; [| split; [| split]].
  - rewrite (calculate_position_size_nonzero self e s ke ks H).
    reflexivity.
  - unfold Qdiv. change (/ 1000) with (1 # 1000). lra.
  - change (e - s) with (e + - s). fold d.
    assert (Exd : x * d == lev * risk).
    { unfold x. field. intro E. rewrite E in Hd. apply (Qlt_irrefl 0 Hd). }
    rewrite <- Exd.
    assert (E : inject_Z k / 1000 * d - x * d
                == (inject_Z k / 1000 - x) * d) by ring.
    rewrite E, Qabs_Qmult, (Qabs_pos d) by (apply Qlt_le_weak; exact Hd).
    apply Qmult_le_compat_r; [| apply Qlt_le_weak; exact Hd].
    apply Qabs_Qle_condition. unfold Qdiv. change (/ 1000) with (1 # 1000).
    split; lra.
  - eexists. split.
    + rewrite (calculate_position_size_nonzero self s e ke ks Hs).
      reflexivity.
    + change (inject_Z (10 ^ 3)) with 1000.
      assert (Ex : risk / Qabs (s + - e) * lev * 1000 == x * 1000).
      { unfold x. rewrite Ed. reflexivity. }
      unfold k. fold risk lev.
      rewrite (round_half_even_comp _ _ Ex). reflexivity.
Qed.

Lemma position_size_risks_leverage_times_risk_witness :
  ~ 100 == 90
  /\ exists size : Q,
       TradingBot.calculate_position_size (TradingBot.init default_config)
         (wrap true (Fin 100)) (wrap true (Fin 90))
       = Ok (wrap (true || true) (Fin size))
       /\ Qabs (size * Qabs (100 - 90) - inject_Z 10 * (10000 * (1 / 100)))
          <= (1 # 2000) * Qabs (100 - 90).
Proof.
  assert (H : ~ 100 == 90) by (intro E; discriminate E).
  split; [exact H |].
  destruct (position_size_risks_leverage_times_risk
              (TradingBot.init default_config) 100 90 true true H)
    as [size [Hs [_ [Hr _]]]];
    [discriminate | discriminate | discriminate |].
  exists size. split; [exact Hs | exact Hr].
Defined.

(** ** A market that does not move *)

Lemma ewm_values_flat (span : Z) (v : Q) (s : list Q) (i : nat) :
  (1 <= span)%Z ->
  Forall (fun x => x == v) s ->
  (i < length s)%nat ->
  getq (ewm_values (2 / (inject_Z span + 1)) s) i == v.
Proof.
  intros Hs Hv Hi.
  assert (Hb : Forall (fun y => v <= y <= v)
                 (ewm_values (2 / (inject_Z span + 1)) s)).
  { apply ewm_values_bounded; [exact Hs |].
    apply (Forall_impl _ (P := fun x => x == v)); [| exact Hv].
    intros x Hx. rewrite Hx. split; apply Qle_refl. }
  rewrite Forall_forall in Hb.
  assert (Hin : In (getq (ewm_values (2 / (inject_Z span + 1)) s) i)
                  (ewm_values (2 / (inject_Z span + 1)) s)).
  { unfold getq. apply nth_In. rewrite ewm_values_length. exact Hi. }
  specialize (Hb _ Hin). lra.
Qed.

Lemma flat_closes (v : Q) (df : DataFrame) :
  flat_market v df -> Forall (fun x => x == v) (col close df).
Proof.
  unfold flat_market, col. intro H. apply Forall_map.
  apply (Forall_impl _ (P := fun c => close c == v /\ open c == v));
    [| exact H].
  intros c [Hc _]. exact Hc.
Qed.

Lemma changes_from_flat (f : Q -> Q) (v prev : Q) (s : list Q) :
  (forall d, d == 0 -> f d == 0) ->
  prev == v ->
  Forall (fun x => x == v) s ->
  Forall (fun x => x == 0) (changes_from f prev s).
Proof.
  intros Hf Hp H. revert prev Hp.
  induction H as [| x t Hx _ IH]; intros prev Hp; simpl; constructor.
  - apply Hf. rewrite Hx, Hp. ring.
  - apply IH. exact Hx.
Qed.

Lemma changes_flat (f : Q -> Q) (v : Q) (s : list Q) :
  (forall d, d == 0 -> f d == 0) ->
  Forall (fun x => x == v) s ->
  Forall (fun x => x == 0) (changes f s).
Proof.
  intros Hf H. destruct H as [| x t Hx Ht]; [constructor |].
  unfold changes. constructor; [reflexivity |].
  apply (changes_from_flat f v); assumption.
Qed.

Lemma Qsum_zero (l : list Q) : Forall (fun x => x == 0) l -> Qsum l == 0.
Proof.
  induction 1 as [| x t Hx _ IH]; [reflexivity |].
  unfold Qsum in *. cbn [fold_right]. rewrite Hx, IH. ring.
Qed.

Lemma window_mean_zero (w i : nat) (s : list Q) :
  (0 < w)%nat -> Forall (fun x => x == 0) s -> window_mean w i s == 0.
Proof.
  intros Hw H. unfold window_mean.
  rewrite (Qsum_zero _ (window_Forall _ w i s H)).
  pose proof (inject_nat_pos w Hw) as Hp.
  field. intro E. rewrite E in Hp. apply (Qlt_irrefl 0 Hp).
Qed.

Lemma positive_part_zero (d : Q) : d == 0 -> positive_part d == 0.
Proof.
  intro H. unfold positive_part. destruct (Qltb 0 d); [exact H | reflexivity].
Qed.

Lemma negative_part_zero (d : Q) : d == 0 -> negative_part d == 0.
Proof.
  intro H. unfold negative_part. destruct (Qltb d 0); [rewrite H |]; reflexivity.
Qed.

Lemma ema_crossover_flat (v : Q) (df : DataFrame) :
  flat_market v df -> (2 <= length df)%nat ->
  ema_crossover_rsi_strategy df = Ok None.
Proof.
  intros Hf Hn. pose proof (flat_closes v df Hf) as Hc.
  assert (Hl : (length df - 1 < length (col close df))%nat)
    by (unfold col; rewrite length_map; lia).
  pose proof (ewm_values_flat 9 v _ _ ltac:(lia) Hc Hl) as E9.
  pose proof (ewm_values_flat 21 v _ _ ltac:(lia) Hc Hl) as E21.
  unfold ema_crossover_rsi_strategy, calculate_ema.
  rewrite !ewm_mean_eq by lia. cbn [bind].
  rewrite calculate_rsi_ok by lia. cbn [bind].
  rewrite rolling_ok by lia. cbn [bind].
  change (-1)%Z with (- Z.of_nat 1)%Z. change (-2)%Z with (- Z.of_nat 2)%Z.
  rewrite !pos_from_end by lia. cbn [bind].
  set (e9 := getq (ewm_values (2 / (inject_Z 9 + 1)) (col close df))
               (length df - 1)) in *.
  set (e21 := getq (ewm_values (2 / (inject_Z 21 + 1)) (col close df))
                (length df - 1)) in *.
  assert (Hgt : (Fin e9 >? Fin e21)%F = false).
  { unfold gtb. cbn [ltb]. apply Qltb_false. lra. }
  assert (Hlt : (Fin e9 <? Fin e21)%F = false).
  { cbn [ltb]. apply Qltb_false. lra. }
  rewrite Hgt, Hlt. rewrite !andb_false_r. reflexivity.
Qed.

Lemma volume_profile_flat (v : Q) (df : DataFrame) :
  flat_market v df -> (1 <= length df)%nat ->
  volume_profile_order_flow_strategy df = Ok None.
Proof.
  intros Hf Hn.
  destruct df as [| c0 t] eqn:Edf; [simpl in Hn; lia |].
  rewrite <- Edf in *. clear Edf t.
  assert (Hd : getq (calculate_delta df) (length df - 1) == 0).
  { unfold calculate_delta.
    change (map (fun c => close c - open c) df)
      with (col (fun c => close c - open c) df).
    rewrite (getq_map _ df (length df - 1) c0) by lia.
    unfold flat_market in Hf. rewrite Forall_forall in Hf.
    destruct (Hf (nth (length df - 1) df c0)) as [Hc Ho];
      [apply nth_In; lia |].
    rewrite Hc, Ho. ring. }
  unfold volume_profile_order_flow_strategy, calculate_ema.
  rewrite !ewm_mean_eq by lia. cbn [bind].
  rewrite rolling_ok by lia. cbn [bind].
  change (-1)%Z with (- Z.of_nat 1)%Z.
  rewrite !pos_from_end by lia. cbn [bind].
  set (d := getq (calculate_delta df) (length df - 1)) in *.
  assert (Hgt : (Fin d >? Fin 0)%F = false).
  { unfold gtb. cbn [ltb]. apply Qltb_false. lra. }
  assert (Hlt : (Fin d <? Fin 0)%F = false).
  { cbn [ltb]. apply Qltb_false. lra. }
  rewrite Hgt, Hlt. rewrite !andb_false_r. reflexivity.
Qed.

Lemma market_structure_flat (v : Q) (df : DataFrame) :
  flat_market v df -> (1 <= length df)%nat ->
  market_structure_break_strategy df = Ok None.
Proof.
  intros Hf Hn.
  destruct (Nat.lt_ge_cases (length df) 14) as [Hs | H14];
    [apply market_structure_short; lia |].
  pose proof (flat_closes v df Hf) as Hc.
  destruct (rsi_last df H14) as [g [l [Hr [_ [_ [Hg Hl]]]]]].
  assert (Eg : g == 0).
  { rewrite Hg. apply window_mean_zero; [lia |].
    apply (changes_flat positive_part v);
      [apply positive_part_zero | exact Hc]. }
  assert (El : l == 0).
  { rewrite Hl. apply window_mean_zero; [lia |].
    apply (changes_flat negative_part v);
      [apply negative_part_zero | exact Hc]. }
  rewrite (rsi_of_no_change g l Eg El) in Hr.
  unfold market_structure_break_strategy.
  rewrite calculate_rsi_ok by lia. cbn [bind].
  destruct (calculate_macd_ok (col close df) 12 26 9) as [m Hm]; try lia.
  rewrite Hm. cbn [bind].
  change (-1)%Z with (- Z.of_nat 1)%Z. change (-2)%Z with (- Z.of_nat 2)%Z.
  rewrite !pos_from_end by lia. cbn [bind].
  change (Z.to_nat 14) with 14%nat.
  rewrite Hr.
  destruct df as [| c0 df']; [simpl in Hn; lia |].
  set (df := c0 :: df') in *.
  match goal with |- context [tail 3 (select ?m df)] =>
    set (highs := tail 3 (select m df)) end.
  match goal with |- context [tail 3 (select ?m df)] =>
    set (lows := tail 3 (select m df)) end.
  destruct (2 <=? length highs)%nat eqn:Eh.
  - apply Nat.leb_le in Eh.
    rewrite (iloc_from_end highs 2 c0) by lia. cbn [bind].
    rewrite gtb_nan_l, andb_false_r. cbn [andb bind].
    destruct (2 <=? length lows)%nat eqn:Elo; [| reflexivity].
    apply Nat.leb_le in Elo.
    rewrite (iloc_from_end lows 2 c0) by lia. cbn [bind].
    rewrite ltb_nan_l. rewrite andb_false_r. reflexivity.
  - cbn [bind].
    destruct (2 <=? length lows)%nat eqn:Elo; [| reflexivity].
    apply Nat.leb_le in Elo.
    rewrite (iloc_from_end lows 2 c0) by lia. cbn [bind].
    rewrite ltb_nan_l. rewrite andb_false_r. reflexivity.
Qed.

(** X24.  On a market that does not move (every candle of the frame
    opens and closes at one price, whatever its high, low and volume) no
    detector emits a signal, and [analyze_market] returns the empty
    list. *)
Theorem no_signal_on_flat_market :
  forall (v : Q) (df : DataFrame),
    flat_market v df ->
    (2 <= length df)%nat ->
    (forall d : Detector, detect d df = Ok None)
    /\ forall self : TradingBot.t, TradingBot.analyze_market self df = Ok [].
Proof.
  intros v df Hf Hn.
  assert (Hd : forall d : Detector, detect d df = Ok None).
  { intros [| | | |]; cbn [detect].
    - apply (ema_crossover_flat v); assumption.
    - apply (volume_profile_flat v); [assumption | lia].
    - apply (market_structure_flat v); [assumption | lia].
    - rewrite liquidity_sweep_fvg_never_emits.
      destruct df; [simpl in Hn; lia | reflexivity].
    - apply delta_divergence_never_emits. }
  split; [exact Hd |].
  intro self. unfold TradingBot.analyze_market.
  rewrite (collect_three df None None None).
  - reflexivity.
  - intro E. rewrite E in Hn. simpl in Hn. lia.
  - exact (Hd EmaCrossoverRsi).
  - exact (Hd VolumeProfileOrderFlow).
  - exact (Hd MarketStructureBreak).
Qed.

Lemma no_signal_on_flat_market_witness :
  flat_market 100 (frame (flat 30 100 ++ [ (100, 120, 80, 100, 500) ]))
  /\ detect VolumeProfileOrderFlow
       (frame (flat 30 100 ++ [ (100, 120, 80, 100, 500) ])) = Ok None.
Proof.
  assert (H : flat_market 100
                (frame (flat 30 100 ++ [ (100, 120, 80, 100, 500) ]))).
  { unfold flat_market. apply Forall_forall. intros c Hc.
    cbv [frame flat repeat app combine seq length map] in Hc.
    repeat (destruct Hc as [<- | Hc]; [split; reflexivity |]).
    destruct Hc. }
  split; [exact H |].
  apply (proj1 (no_signal_on_flat_market 100 _ H ltac:(vm_compute; lia))).
Defined.

(** ** Bollinger bands *)

Section Bands.

Variable sqrt : Q -> Q.
Hypothesis sqrt_nonneg : forall x : Q, 0 <= x -> 0 <= sqrt x.





End Bands.





(** ** Stopping and restarting the bot of [main-no-ccxt.py] *)

Section Restart.

Import MainNoCcxt.

Lemma wakes_running (k : nat) (rt : Runtime) :
is_running (trading_bot rt) = true -> moves rt (repeat Wake k) = rt.
Proof.
intro H. unfold moves. induction k as [| k IH]; [reflexivity |].
cbn [repeat fold_left move]. rewrite H. exact IH.
Qed.

Lemma wakes_stopped (k : nat) (rt : Runtime) :
is_running (trading_bot rt) = false ->
moves rt (repeat Wake k)
= {| trading_bot := trading_bot rt; loops := loops rt - k |}.
Proof.
unfold moves. revert rt. induction k as [| k IH]; intros rt H.
- destruct rt as [bot n]. cbn. rewrite Nat.sub_0_r. reflexivity.
- cbn [repeat fold_left move]. rewrite H. rewrite IH by exact H.
  cbn [trading_bot loops]. f_equal. lia.
Qed.

Lemma moves_app (rt : Runtime) (l1 l2 : list Move) :
moves rt (l1 ++ l2) = moves (moves rt l1) l2.
Proof. unfold moves. apply fold_left_app. Qed.

End Restart.

(** X26.  The loops of the bot end one by one, each when it next tests
    the flag, once the bot is stopped; but a start accepted before they
    have come back from their sleep sets the flag of the one shared bot
    again, and then every loop that was still asleep goes on beside the
    new one: after the restart one loop more than before is running, for
    as long as the bot is not stopped. *)
Theorem restart_before_wake_keeps_old_loops :
  forall (rt : MainNoCcxt.Runtime) (env : MainNoCcxt.Env) (total : float)
         (k : nat),
    MainNoCcxt.is_running (MainNoCcxt.trading_bot rt) = false ->
    MainNoCcxt.scheduled (MainNoCcxt.trading_bot rt) = 0%nat ->
    has_keys env = true ->
    (total <=? Fin 0)%F = false ->
    MainNoCcxt.loops (MainNoCcxt.moves rt (repeat MainNoCcxt.Wake k))
    = (MainNoCcxt.loops rt - k)%nat
    /\ MainNoCcxt.status
         (fst (MainNoCcxt.start_bot env (inl total) (MainNoCcxt.trading_bot rt)))
       = "started"%string
    /\ MainNoCcxt.loops
         (MainNoCcxt.moves rt
            ([MainNoCcxt.PostStart env (inl total); MainNoCcxt.Enter]
             ++ repeat MainNoCcxt.Wake k))
       = S (MainNoCcxt.loops rt)
    /\ MainNoCcxt.is_running
         (MainNoCcxt.trading_bot
            (MainNoCcxt.moves rt
               ([MainNoCcxt.PostStart env (inl total); MainNoCcxt.Enter]
                ++ repeat MainNoCcxt.Wake k)))
       = true.
Proof.
  intros rt env total k Hr Hs Hk Ht.
  unfold has_keys in Hk. apply negb_true_iff in Hk.
  split; [rewrite wakes_stopped by exact Hr; reflexivity |].
  assert (E : MainNoCcxt.start_bot env (inl total) (MainNoCcxt.trading_bot rt)
              = ({| MainNoCcxt.status := "started";
                    MainNoCcxt.message :=
                      "Trading bot started successfully. Balance: $"
                      ++ format_2f total;
                    MainNoCcxt.balance := Some total |},
                 {| MainNoCcxt.is_running := false;
                    MainNoCcxt.scheduled := 1 |})).
  { unfold MainNoCcxt.start_bot. rewrite Hr, Hk, Ht, Hs. reflexivity. }
  split; [rewrite E; reflexivity |].
  rewrite moves_app.
  assert (E2 : MainNoCcxt.moves rt
                 [MainNoCcxt.PostStart env (inl total); MainNoCcxt.Enter]
               = {| MainNoCcxt.trading_bot :=
                      {| MainNoCcxt.is_running := true;
                         MainNoCcxt.scheduled := 0 |};
                    MainNoCcxt.loops := S (MainNoCcxt.loops rt) |}).
  { unfold MainNoCcxt.moves. cbn [fold_left MainNoCcxt.move].
    rewrite E. reflexivity. }
  rewrite E2, wakes_running by reflexivity. split; reflexivity.
Qed.

Lemma restart_before_wake_keeps_old_loops_witness :
  MainNoCcxt.is_running
    (MainNoCcxt.trading_bot
       (MainNoCcxt.moves runtime_idle
          [ MainNoCcxt.PostStart env_with_keys (inl (Fin 100));
            MainNoCcxt.Enter; MainNoCcxt.PostStop ])) = false
  /\ MainNoCcxt.loops
       (MainNoCcxt.moves
          (MainNoCcxt.moves runtime_idle
             [ MainNoCcxt.PostStart env_with_keys (inl (Fin 100));
               MainNoCcxt.Enter; MainNoCcxt.PostStop ])
          ([ MainNoCcxt.PostStart env_with_keys (inl (Fin 100));
             MainNoCcxt.Enter ] ++ repeat MainNoCcxt.Wake 5)) = 2%nat.
Proof.
  split; [reflexivity |].
  destruct (restart_before_wake_keeps_old_loops
              (MainNoCcxt.moves runtime_idle
                 [ MainNoCcxt.PostStart env_with_keys (inl (Fin 100));
                   MainNoCcxt.Enter; MainNoCcxt.PostStop ])
              env_with_keys (Fin 100) 5 eq_refl eq_refl eq_refl eq_refl)
    as [_ [_ [H _]]].
  exact H.
Defined.

(** ** The size of the trades the loop executes *)

Lemma sized_when_stop_ordered (self : TradingBot.t) (s : Signal) (e : Q) :
  entry s = Fin e ->
  stop_ordered s ->
  exists size : Q,
    TradingBot.calculate_position_size self (NpFloat64 (entry s))
      (NpFloat64 (stop_loss s))
    = Ok (NpFloat64 (Fin size)).
Proof.
  intros He Ho. rewrite He. unfold stop_ordered in Ho. rewrite He in Ho.
  destruct (stop_loss s) as [sl | | |] eqn:Es.
  - assert (Hne : ~ e == sl).
    { unfold lt in Ho. cbn [ltb] in Ho.
      destruct (type s); apply Qltb_true in Ho; lra. }
    eexists.
    exact (calculate_position_size_nonzero self e sl true true Hne).
  - eexists. unfold TradingBot.calculate_position_size, truediv, Python.abs,
      Python.sub, Python.mul, Python.round, lift2, round_digits.
    cbn. reflexivity.
  - eexists. unfold TradingBot.calculate_position_size, truediv, Python.abs,
      Python.sub, Python.mul, Python.round, lift2, round_digits.
    cbn. reflexivity.
  - exfalso. unfold lt in Ho.
    destruct (type s); cbn in *; discriminate.
Qed.

(** X27.  Every signal of the Volume Profile detector is traded with a
    size that is a number: the detector compares the close with VWAP
    strictly and puts the stop on the other side of VWAP, so the stop is
    off the entry and the sizer divides by a distance that is not zero.
    (A signal of the EMA Crossover or of the Market Structure Break
    detector can have its stop on its entry.) *)
Theorem volume_profile_trades_are_sized :
  forall (self : TradingBot.t) (df : DataFrame) (s : Signal),
    detect VolumeProfileOrderFlow df = Ok (Some s) ->
    exists size : Q,
      TradingBot.execute_trade self true s
      = (true, [TradeExecuted s (NpFloat64 (Fin size))]).
Proof.
  intros self df s H. cbn [detect] in H.
  assert (Ho : stop_ordered s)
    by (apply (volume_profile_weakly_ordered df); assumption).
  assert (He : entry s = latest_close df).
  { destruct df as [| c0 t] eqn:Edf; [discriminate |].
    rewrite <- Edf in *.
    destruct (volume_profile_shape df) as [E | [_ [a [E | E]]]];
      [rewrite Edf; simpl; lia | | |];
      rewrite E in H; [discriminate | |]; injection H as <-; reflexivity. }
  destruct (sized_when_stop_ordered self s _ He Ho) as [size Hs].
  exists size. unfold TradingBot.execute_trade. cbn [wrap].
  rewrite Hs. reflexivity.
Qed.

Lemma volume_profile_trades_are_sized_witness :
  exists (s : Signal) (size : Q),
    detect VolumeProfileOrderFlow df_volume_thrust = Ok (Some s)
    /\ TradingBot.execute_trade (TradingBot.init default_config) true s
       = (true, [TradeExecuted s (NpFloat64 (Fin size))]).
Proof.
  assert (E : exists s,
             detect VolumeProfileOrderFlow df_volume_thrust = Ok (Some s))
    by (eexists; vm_compute; reflexivity).
  destruct E as [s E].
  destruct (volume_profile_trades_are_sized
              (TradingBot.init default_config) df_volume_thrust s E)
    as [size Hs].
  exists s, size. split; [exact E | exact Hs].
Defined.
